(** * JfkDocumentScraper: the download orchestrator and its record store

    A shallow embedding of [server/storage.ts] (class [MemStorage]),
    [server/downloader.ts] (class [Downloader]) and the computations of the
    download routes of [server/routes.ts].

    The source is asynchronous TypeScript running on a single-threaded event
    loop.  Every [async] method is cut at its [await]s: the code between two
    [await]s runs without interruption and is one transition of the machine
    below, and a suspended call is a continuation ([Cont]) waiting in the
    task table.  Whatever comes from outside the two classes (the clock, the
    network, the file system, the zip library) is supplied by the event that
    resumes a continuation.

    The order in which the event loop resumes suspended calls is left open
    by [run]; [run_fifo] adds the order of the microtask queue, in which the
    continuations of [await]s on settled promises are run first in, first
    out.

    Numbers: identifiers, counters, byte counts and timestamps are JavaScript
    numbers holding integers and are modelled as [Z]; the throughput
    computation of [getCurrentSpeed] and the numbers that [parseInt] reads
    from file names are modelled on binary64 floats ([PrimFloat]).  Strings
    are sequences of 8-bit characters.  A JavaScript [Map] is a [gmap].  The
    maps of the store are listed in the order of their ids, which is the
    order in which their keys were set; the iteration order of
    [activeDownloads] is not tracked. *)

From Stdlib Require Import ZArith Ascii String PrimFloat Uint63 FloatOps
  SpecFloat FloatAxioms.
From stdpp Require Import gmap strings list pretty.

Open Scope string_scope.
Open Scope Z_scope.

(** ** Records of [shared/schema.ts] *)

Inductive PdfStatus := ready | queued | downloading | completed | failed.

Global Instance PdfStatus_eq_dec : EqDecision PdfStatus.
Proof. solve_decision. Defined.

(** [PdfFile]: a row of [pdf_files].  [size] is a nullable text column. *)
Record PdfFile := mkPdfFile {
  pf_id : Z;
  pf_url : string;
  pf_filename : string;
  pf_size : option string;
  pf_status : PdfStatus;
  pf_progress : Z;
  pf_createdAt : Z
}.

(** [DownloadJob]: a row of [download_jobs].  [status] is a text column; the
    code writes the literals "queued", "in progress", "creating zip",
    "completed", "failed" and "cancelled". *)
Record DownloadJob := mkDownloadJob {
  job_id : Z;
  job_name : string;
  job_totalFiles : Z;
  job_downloadedFiles : Z;
  job_size : option string;
  job_status : string;
  job_createdAt : Z;
  job_completedAt : option Z
}.

Record CompletedDownload := mkCompletedDownload {
  cd_id : Z;
  cd_filename : string;
  cd_contents : string;
  cd_size : string;
  cd_path : string;
  cd_date : Z
}.

Record History := mkHistory {
  h_id : Z;
  h_date : Z;
  h_action : string;
  h_details : string;
  h_filesCount : Z
}.

(** [Partial<PdfFile>] and [Partial<DownloadJob>]: [None] is an absent key. *)
Record PartialPdfFile := mkPartialPdfFile {
  pp_id : option Z;
  pp_url : option string;
  pp_filename : option string;
  pp_size : option (option string);
  pp_status : option PdfStatus;
  pp_progress : option Z;
  pp_createdAt : option Z
}.

Record PartialDownloadJob := mkPartialDownloadJob {
  pj_id : option Z;
  pj_name : option string;
  pj_totalFiles : option Z;
  pj_downloadedFiles : option Z;
  pj_size : option (option string);
  pj_status : option string;
  pj_createdAt : option Z;
  pj_completedAt : option (option Z)
}.

(** One key of an object spread [{ ...old, ...data }]. *)
Definition spread {A} (old : A) (new : option A) : A :=
  match new with Some v => v | None => old end.

Definition spreadPdfFile (file : PdfFile) (data : PartialPdfFile) : PdfFile :=
  {| pf_id := spread (pf_id file) (pp_id data);
     pf_url := spread (pf_url file) (pp_url data);
     pf_filename := spread (pf_filename file) (pp_filename data);
     pf_size := spread (pf_size file) (pp_size data);
     pf_status := spread (pf_status file) (pp_status data);
     pf_progress := spread (pf_progress file) (pp_progress data);
     pf_createdAt := spread (pf_createdAt file) (pp_createdAt data) |}.

Definition spreadDownloadJob (job : DownloadJob) (data : PartialDownloadJob)
  : DownloadJob :=
  {| job_id := spread (job_id job) (pj_id data);
     job_name := spread (job_name job) (pj_name data);
     job_totalFiles := spread (job_totalFiles job) (pj_totalFiles data);
     job_downloadedFiles :=
       spread (job_downloadedFiles job) (pj_downloadedFiles data);
     job_size := spread (job_size job) (pj_size data);
     job_status := spread (job_status job) (pj_status data);
     job_createdAt := spread (job_createdAt job) (pj_createdAt data);
     job_completedAt := spread (job_completedAt job) (pj_completedAt data) |}.

(** What a field of the updated record is: the given value when the key is
    in the partial update, the old value otherwise. *)
Definition takes {A} (given : option A) (old new : A) : Prop :=
  match given with Some v => new = v | None => new = old end.

(** ** [MemStorage] *)

Record MemStorage := mkMemStorage {
  pdfFiles : gmap Z PdfFile;
  downloadJobs : gmap Z DownloadJob;
  completedDownloads : gmap Z CompletedDownload;
  historyEntries : gmap Z History;
  pdfFilesCounter : Z;
  downloadJobsCounter : Z;
  completedDownloadsCounter : Z;
  historyCounter : Z
}.

Definition emptyStorage : MemStorage :=
  mkMemStorage ∅ ∅ ∅ ∅ 1 1 1 1.

Definition set_pdfFiles (m : gmap Z PdfFile) (st : MemStorage) : MemStorage :=
  mkMemStorage m (downloadJobs st) (completedDownloads st) (historyEntries st)
    (pdfFilesCounter st) (downloadJobsCounter st)
    (completedDownloadsCounter st) (historyCounter st).

Definition set_downloadJobs (m : gmap Z DownloadJob) (st : MemStorage)
  : MemStorage :=
  mkMemStorage (pdfFiles st) m (completedDownloads st) (historyEntries st)
    (pdfFilesCounter st) (downloadJobsCounter st)
    (completedDownloadsCounter st) (historyCounter st).

(** [Array.from(map.values())] lists the records of a [Map] in the order
    in which their keys were first set.  The maps of the store are keyed by
    ids taken from a counter that only goes up, and [set] on a key that is
    there keeps its place: the order is that of the ids. *)
Fixpoint insert_by_id {A} (x : Z * A) (l : list (Z * A)) : list (Z * A) :=
  match l with
  | [] => [x]
  | y :: l' => if x.1 <=? y.1 then x :: l else y :: insert_by_id x l'
  end.

Definition values_by_id {A} (m : gmap Z A) : list A :=
  (foldr insert_by_id [] (map_to_list m)).*2.

Definition getPdfFiles (st : MemStorage) : list PdfFile :=
  values_by_id (pdfFiles st).

Definition getDownloadJob (id : Z) (st : MemStorage) : option DownloadJob :=
  downloadJobs st !! id.

Definition updatePdfFile (id : Z) (data : PartialPdfFile) (st : MemStorage)
  : option PdfFile * MemStorage :=
  match pdfFiles st !! id with
  | None => (None, st)
  | Some file =>
      let updatedFile := spreadPdfFile file data in
      (Some updatedFile, set_pdfFiles (<[id := updatedFile]> (pdfFiles st)) st)
  end.

Definition updateDownloadJob (id : Z) (data : PartialDownloadJob)
  (st : MemStorage) : option DownloadJob * MemStorage :=
  match downloadJobs st !! id with
  | None => (None, st)
  | Some job =>
      let updatedJob := spreadDownloadJob job data in
      (Some updatedJob,
       set_downloadJobs (<[id := updatedJob]> (downloadJobs st)) st)
  end.

(** [createPdfFile]: the caller passes [url], [filename], [size] and
    [status]; [createdAt] is [new Date()]. *)
Definition createPdfFile (url filename : string) (size : option string)
  (status : PdfStatus) (now : Z) (st : MemStorage) : PdfFile * MemStorage :=
  let id := pdfFilesCounter st in
  let newFile := mkPdfFile id url filename size status 0 now in
  (newFile,
   mkMemStorage (<[id := newFile]> (pdfFiles st)) (downloadJobs st)
     (completedDownloads st) (historyEntries st)
     (id + 1) (downloadJobsCounter st)
     (completedDownloadsCounter st) (historyCounter st)).

(** [createDownloadJob]: the caller passes [name], [totalFiles], [size] and
    [status]. *)
Definition createDownloadJob (name : string) (totalFiles : Z)
  (size : option string) (status : string) (now : Z) (st : MemStorage)
  : DownloadJob * MemStorage :=
  let id := downloadJobsCounter st in
  let newJob := mkDownloadJob id name totalFiles 0 size status now None in
  (newJob,
   mkMemStorage (pdfFiles st) (<[id := newJob]> (downloadJobs st))
     (completedDownloads st) (historyEntries st)
     (pdfFilesCounter st) (id + 1)
     (completedDownloadsCounter st) (historyCounter st)).

(** [createCompletedDownload]: the caller passes the four inserted columns;
    [date] is [new Date()]. *)
Definition createCompletedDownload (filename contents size path : string)
  (now : Z) (st : MemStorage) : CompletedDownload * MemStorage :=
  let id := completedDownloadsCounter st in
  let newDownload := mkCompletedDownload id filename contents size path now in
  (newDownload,
   mkMemStorage (pdfFiles st) (downloadJobs st)
     (<[id := newDownload]> (completedDownloads st)) (historyEntries st)
     (pdfFilesCounter st) (downloadJobsCounter st) (id + 1)
     (historyCounter st)).

Definition createHistoryEntry (action details : string) (filesCount : Z)
  (now : Z) (st : MemStorage) : History * MemStorage :=
  let id := historyCounter st in
  let newEntry := mkHistory id now action details filesCount in
  (newEntry,
   mkMemStorage (pdfFiles st) (downloadJobs st) (completedDownloads st)
     (<[id := newEntry]> (historyEntries st))
     (pdfFilesCounter st) (downloadJobsCounter st)
     (completedDownloadsCounter st) (id + 1)).

(** *** The other methods of [MemStorage]

    [settingsData] is read and written by [getSettings] and [updateSettings]
    only and by no other method; it is not part of the record above. *)

Definition set_completedDownloads (m : gmap Z CompletedDownload)
  (st : MemStorage) : MemStorage :=
  mkMemStorage (pdfFiles st) (downloadJobs st) m (historyEntries st)
    (pdfFilesCounter st) (downloadJobsCounter st)
    (completedDownloadsCounter st) (historyCounter st).

Definition set_historyEntries (m : gmap Z History) (st : MemStorage)
  : MemStorage :=
  mkMemStorage (pdfFiles st) (downloadJobs st) (completedDownloads st) m
    (pdfFilesCounter st) (downloadJobsCounter st)
    (completedDownloadsCounter st) (historyCounter st).

Definition getPdfFile (id : Z) (st : MemStorage) : option PdfFile :=
  pdfFiles st !! id.

(** [Map.prototype.delete] returns whether the key was there. *)
Definition deletePdfFile (id : Z) (st : MemStorage) : bool * MemStorage :=
  (bool_decide (is_Some (pdfFiles st !! id)),
   set_pdfFiles (delete id (pdfFiles st)) st).

Definition getDownloadJobs (st : MemStorage) : list DownloadJob :=
  values_by_id (downloadJobs st).

Definition deleteDownloadJob (id : Z) (st : MemStorage) : bool * MemStorage :=
  (bool_decide (is_Some (downloadJobs st !! id)),
   set_downloadJobs (delete id (downloadJobs st)) st).

Definition getCompletedDownloads (st : MemStorage) : list CompletedDownload :=
  values_by_id (completedDownloads st).

Definition getCompletedDownload (id : Z) (st : MemStorage)
  : option CompletedDownload :=
  completedDownloads st !! id.

Definition deleteCompletedDownload (id : Z) (st : MemStorage)
  : bool * MemStorage :=
  (bool_decide (is_Some (completedDownloads st !! id)),
   set_completedDownloads (delete id (completedDownloads st)) st).

Definition getHistory (st : MemStorage) : list History :=
  values_by_id (historyEntries st).

Definition clearHistory (st : MemStorage) : bool * MemStorage :=
  (true, set_historyEntries ∅ st).

(** A call of one of the methods that write to the store, with its
    arguments; the calls that stamp a date carry the clock reading. *)
Inductive StorageCall :=
  | createPdfFile_call (url filename : string) (size : option string)
      (status : PdfStatus) (now : Z)
  | updatePdfFile_call (id : Z) (data : PartialPdfFile)
  | deletePdfFile_call (id : Z)
  | createDownloadJob_call (name : string) (totalFiles : Z)
      (size : option string) (status : string) (now : Z)
  | updateDownloadJob_call (id : Z) (data : PartialDownloadJob)
  | deleteDownloadJob_call (id : Z)
  | createCompletedDownload_call (filename contents size path : string)
      (now : Z)
  | deleteCompletedDownload_call (id : Z)
  | createHistoryEntry_call (action details : string) (filesCount : Z)
      (now : Z)
  | clearHistory_call.

(** The store after the call. *)
Definition afterCall (st : MemStorage) (c : StorageCall) : MemStorage :=
  match c with
  | createPdfFile_call url filename size status now =>
      (createPdfFile url filename size status now st).2
  | updatePdfFile_call id data => (updatePdfFile id data st).2
  | deletePdfFile_call id => (deletePdfFile id st).2
  | createDownloadJob_call name totalFiles size status now =>
      (createDownloadJob name totalFiles size status now st).2
  | updateDownloadJob_call id data => (updateDownloadJob id data st).2
  | deleteDownloadJob_call id => (deleteDownloadJob id st).2
  | createCompletedDownload_call filename contents size path now =>
      (createCompletedDownload filename contents size path now st).2
  | deleteCompletedDownload_call id => (deleteCompletedDownload id st).2
  | createHistoryEntry_call action details filesCount now =>
      (createHistoryEntry action details filesCount now st).2
  | clearHistory_call => (clearHistory st).2
  end.

Definition afterCalls (st : MemStorage) (cs : list StorageCall) : MemStorage :=
  fold_left afterCall cs st.

(** Every key of the table is below the counter the next id is taken
    from. *)
Definition below {A} (m : gmap Z A) (counter : Z) : Prop :=
  ∀ id, is_Some (m !! id) → id < counter.

Record countersAhead (st : MemStorage) : Prop := {
  files_below : below (pdfFiles st) (pdfFilesCounter st);
  jobs_below : below (downloadJobs st) (downloadJobsCounter st);
  completed_below :
    below (completedDownloads st) (completedDownloadsCounter st);
  history_below : below (historyEntries st) (historyCounter st)
}.

(** The four counters, in the order of the fields. *)
Definition counters (st : MemStorage) : list Z :=
  [pdfFilesCounter st; downloadJobsCounter st; completedDownloadsCounter st;
   historyCounter st].

Inductive Table :=
  files_table | jobs_table | archives_table | history_table.

(** The table a [create] call writes to and the id of the record it
    returns. *)
Definition created (st : MemStorage) (c : StorageCall) : option (Table * Z) :=
  match c with
  | createPdfFile_call url filename size status now =>
      Some (files_table,
            pf_id (createPdfFile url filename size status now st).1)
  | createDownloadJob_call name totalFiles size status now =>
      Some (jobs_table,
            job_id (createDownloadJob name totalFiles size status now st).1)
  | createCompletedDownload_call filename contents size path now =>
      Some (archives_table,
            cd_id (createCompletedDownload filename contents size path now
                     st).1)
  | createHistoryEntry_call action details filesCount now =>
      Some (history_table,
            h_id (createHistoryEntry action details filesCount now st).1)
  | _ => None
  end.

(** ** Strings: the regular expressions and string methods the code uses *)

Definition is_digit (c : ascii) : bool :=
  let n := nat_of_ascii c in (48 <=? n)%nat && (n <=? 57)%nat.

(** [\s] on 8-bit characters: tab, line feed, vertical tab, form feed,
    carriage return, space and no-break space. *)
Definition is_space (c : ascii) : bool :=
  let n := nat_of_ascii c in
  ((9 <=? n)%nat && (n <=? 13)%nat) || (n =? 32)%nat || (n =? 160)%nat.

(** The longest run of digits at the head of [s], and what follows it. *)
Fixpoint span_digits (s : string) : string * string :=
  match s with
  | String c s' =>
      if is_digit c
      then let '(d, r) := span_digits s' in (String c d, r)
      else ("", s)
  | "" => ("", "")
  end.

Definition nonempty (s : string) : bool :=
  match s with "" => false | String _ _ => true end.

(** [after p s]: the rest of [s] behind its prefix [p]. *)
Fixpoint after (p s : string) : option string :=
  match p, s with
  | "", _ => Some s
  | String a p', String b s' => if Ascii.eqb a b then after p' s' else None
  | String _ _, "" => None
  end.

(** [name.match(/Series (\d+)/)]: group 1 of the leftmost match. *)
Fixpoint match_Series (s : string) : option string :=
  let here :=
    match after "Series " s with
    | Some r => let d := (span_digits r).1 in
                if nonempty d then Some d else None
    | None => None
    end in
  match here, s with
  | Some d, _ => Some d
  | None, String _ s' => match_Series s'
  | None, "" => None
  end.

(** [filename.match(/^(\d{3})/)]. *)
Definition match_prefix3 (s : string) : option string :=
  match s with
  | String a (String b (String c _)) =>
      if is_digit a && is_digit b && is_digit c
      then Some (String a (String b (String c "")))
      else None
  | _ => None
  end.

(** [/(\d+)-(\d+)/] anchored at the head of [s]: a digit run cannot be cut
    short before a "-", so only the longest run can match. *)
Definition range_here (s : string) : option (string * string) :=
  let '(d1, r) := span_digits s in
  match r with
  | String "-" r' =>
      let d2 := (span_digits r').1 in
      if nonempty d1 && nonempty d2 then Some (d1, d2) else None
  | _ => None
  end.

(** [name.match(/(\d+)-(\d+)/)]: groups 1 and 2 of the leftmost match. *)
Fixpoint match_range (s : string) : option (string * string) :=
  match range_here s, s with
  | Some m, _ => Some m
  | None, String _ s' => match_range s'
  | None, "" => None
  end.

(** [filename.match(/(\d+)/)]: the leftmost longest run of digits. *)
Fixpoint match_digits (s : string) : option string :=
  match s with
  | String c s' =>
      if is_digit c then Some (span_digits s).1 else match_digits s'
  | "" => None
  end.

(** The integer that the leading digits of [d] denote in radix 10. *)
Fixpoint parseInt_from (acc : Z) (d : string) : Z :=
  match d with
  | String c d' =>
      if is_digit c
      then parseInt_from (10 * acc + (Z.of_nat (nat_of_ascii c) - 48)) d'
      else acc
  | "" => acc
  end.

(** The [number] nearest to the integer [n]: the binary64 float, ties to
    even, infinite from 2^1024 - 2^970 on.  Integers up to 2^53 are kept;
    larger ones are rounded. *)
Definition toNumber (n : Z) : float :=
  SF2Prim (binary_normalize prec emax n 0 false).

(** [parseInt(d, 10)] on a string without white space or sign in front:
    the integer of the leading digits as a [number], [NaN] when the string
    does not start with a digit. *)
Definition parseInt (d : string) : float :=
  match d with
  | String c _ => if is_digit c then toNumber (parseInt_from 0 d) else nan
  | "" => nan
  end.

(** [s.replace(/\s+/g, "-")]; [in_run] tells that the previous character
    belonged to the run of white space being replaced. *)
Fixpoint replace_spaces (in_run : bool) (s : string) : string :=
  match s with
  | String c s' =>
      if is_space c
      then if in_run then replace_spaces true s'
           else String "-" (replace_spaces true s')
      else String c (replace_spaces false s')
  | "" => ""
  end.

Definition lower (c : ascii) : ascii :=
  let n := nat_of_ascii c in
  if ((65 <=? n)%nat && (n <=? 90)%nat)
     || ((192 <=? n)%nat && (n <=? 222)%nat && negb (n =? 215)%nat)
  then ascii_of_nat (n + 32) else c.

Fixpoint toLowerCase (s : string) : string :=
  match s with
  | String c s' => String (lower c) (toLowerCase s')
  | "" => ""
  end.

(** [hay.includes(needle)]. *)
Fixpoint includes (hay needle : string) : bool :=
  String.prefix needle hay ||
  match hay with
  | String _ hay' => includes hay' needle
  | "" => false
  end.

(** [path.join(dir, name)] for a plain file name. *)
Definition path_join (dir name : string) : string := dir ++ "/" ++ name.

(** [(n / 2^k).toFixed(1)] for an integer [0 <= n < 2^53]: the double holds
    [n / 2^k] exactly, and [toFixed] picks the nearest tenth, the larger one
    on a tie. *)
Definition toFixed1_shift (n k : Z) : string :=
  let t := (20 * n + 2 ^ k) / 2 ^ (k + 1) in
  pretty (t / 10) ++ "." ++ pretty (t mod 10).

(** The size formatting written out twice in [downloader.ts]. *)
Definition formatSize (bytes : Z) : string :=
  if bytes <? 1024 then pretty bytes ++ " B"
  else if bytes <? 1024 * 1024 then toFixed1_shift bytes 10 ++ " KB"
  else if bytes <? 1024 * 1024 * 1024 then toFixed1_shift bytes 20 ++ " MB"
  else toFixed1_shift bytes 30 ++ " GB".

(** ** [Downloader] *)

Record ActiveDownload := mkActiveDownload {
  ad_jobId : Z;
  ad_fileId : Z;
  ad_bytesDownloaded : Z;
  ad_startTime : Z
}.

(** The fields of the class.  [downloadSpeeds] is never read nor written
    after the constructor and is left out. *)
Record Downloader := mkDownloader {
  maxConcurrentDownloads : Z;
  activeDownloads : gmap Z ActiveDownload;
  queue : list (Z * PdfFile);
  cancelledJobs : gset Z
}.

Definition newDownloader : Downloader := mkDownloader 3 ∅ [] ∅.

(** A suspended [async] call: the [await] it waits at, and the local
    variables that are live there.  [completeJob] is only called (and
    awaited) by [downloadFile], so its continuations carry the [file] of the
    caller, to which control returns. *)
Inductive Cont :=
  (* downloadBatch *)
  | DB_job (jobId : Z) (files : list PdfFile)
  | DB_file (jobId : Z) (file : PdfFile) (rest : list PdfFile)
  (* downloadFile *)
  | DF_marked (jobId : Z) (file : PdfFile)
  | DF_fetch (jobId : Z) (file : PdfFile) (tempFilePath : string)
  | DF_reverted (jobId : Z) (file : PdfFile)
  | DF_buffer (jobId : Z) (file : PdfFile) (tempFilePath : string)
  | DF_progress (jobId : Z) (file : PdfFile) (tempFilePath : string)
  | DF_completed (jobId : Z) (file : PdfFile) (tempFilePath : string)
  | DF_sized (jobId : Z) (file : PdfFile)
  | DF_job (jobId : Z) (file : PdfFile) (job : option DownloadJob)
  | DF_counted (jobId : Z) (file : PdfFile) (job : DownloadJob)
  | DF_joined (jobId : Z) (file : PdfFile)
  | DF_failed (jobId : Z) (file : PdfFile)
  (* completeJob *)
  | CJ_job (jobId : Z) (file : PdfFile) (job : option DownloadJob)
  | CJ_zipping (jobId : Z) (file : PdfFile) (job : DownloadJob)
  | CJ_files (jobId : Z) (file : PdfFile) (job : DownloadJob)
      (allFiles : list PdfFile)
  | CJ_zip (jobId : Z) (file : PdfFile) (job : DownloadJob)
      (tempFiles : list string) (zipFileName zipFilePath : string)
  | CJ_completed (jobId : Z) (file : PdfFile) (job : DownloadJob)
      (tempFiles : list string) (zipFileName zipFilePath zipSize : string)
  | CJ_recorded (jobId : Z) (file : PdfFile) (job : DownloadJob)
      (tempFiles : list string)
  | CJ_failed (jobId : Z) (file : PdfFile) (error : option string)
  | CJ_logged (jobId : Z) (file : PdfFile)
  (* cancelDownload *)
  | CD_job.

(** The two singletons, the module constants [tempDir] and [downloadsDir],
    and the suspended calls.  [started] is a history variable: it records
    every call of [downloadFile] and is read by no operation. *)
Record State := mkState {
  storage : MemStorage;
  downloader : Downloader;
  tempDir : string;
  downloadsDir : string;
  tasks : gmap nat Cont;
  nextTask : nat;
  started : list (Z * PdfFile)
}.

Definition initialState (tempDir downloadsDir : string) : State :=
  mkState emptyStorage newDownloader tempDir downloadsDir ∅ 0 [].

Definition on_storage (f : MemStorage → MemStorage) (s : State) : State :=
  mkState (f (storage s)) (downloader s) (tempDir s) (downloadsDir s)
    (tasks s) (nextTask s) (started s).

Definition on_downloader (f : Downloader → Downloader) (s : State) : State :=
  mkState (storage s) (f (downloader s)) (tempDir s) (downloadsDir s)
    (tasks s) (nextTask s) (started s).

Definition set_activeDownloads (m : gmap Z ActiveDownload) (d : Downloader)
  : Downloader :=
  mkDownloader (maxConcurrentDownloads d) m (queue d) (cancelledJobs d).

Definition set_queue (q : list (Z * PdfFile)) (d : Downloader) : Downloader :=
  mkDownloader (maxConcurrentDownloads d) (activeDownloads d) q
    (cancelledJobs d).

Definition set_cancelledJobs (c : gset Z) (d : Downloader) : Downloader :=
  mkDownloader (maxConcurrentDownloads d) (activeDownloads d) (queue d) c.

(** The call suspends at an [await] under the task number [tid]. *)
Definition suspend (tid : nat) (k : Cont) (s : State) : State :=
  mkState (storage s) (downloader s) (tempDir s) (downloadsDir s)
    (<[tid := k]> (tasks s)) (nextTask s) (started s).

(** A call that is not awaited by its caller becomes a task of its own. *)
Definition spawn (k : Cont) (s : State) : State :=
  mkState (storage s) (downloader s) (tempDir s) (downloadsDir s)
    (<[nextTask s := k]> (tasks s)) (S (nextTask s)) (started s).

Definition remove_task (tid : nat) (s : State) : State :=
  mkState (storage s) (downloader s) (tempDir s) (downloadsDir s)
    (delete tid (tasks s)) (nextTask s) (started s).

Definition record_started (jobId : Z) (file : PdfFile) (s : State) : State :=
  mkState (storage s) (downloader s) (tempDir s) (downloadsDir s)
    (tasks s) (nextTask s) (started s ++ [(jobId, file)]).

Definition storage_updatePdfFile (id : Z) (data : PartialPdfFile) (s : State)
  : State :=
  on_storage (λ st, (updatePdfFile id data st).2) s.

Definition storage_updateDownloadJob (id : Z) (data : PartialDownloadJob)
  (s : State) : State :=
  on_storage (λ st, (updateDownloadJob id data st).2) s.

Definition withStatus (st : PdfStatus) : PartialPdfFile :=
  mkPartialPdfFile None None None None (Some st) None None.

Definition withStatusProgress (st : PdfStatus) (p : Z) : PartialPdfFile :=
  mkPartialPdfFile None None None None (Some st) (Some p) None.

Definition withProgress (p : Z) : PartialPdfFile :=
  mkPartialPdfFile None None None None None (Some p) None.

Definition withSize (sz : string) : PartialPdfFile :=
  mkPartialPdfFile None None None (Some (Some sz)) None None None.

Definition withJobStatus (st : string) : PartialDownloadJob :=
  mkPartialDownloadJob None None None None None (Some st) None None.

Definition withJobStatusAt (st : string) (completedAt : Z)
  : PartialDownloadJob :=
  mkPartialDownloadJob None None None None None (Some st) None
    (Some (Some completedAt)).

Definition withJobCompletion (completedAt : Z) (sz : string)
  : PartialDownloadJob :=
  mkPartialDownloadJob None None None None (Some (Some sz)) (Some "completed")
    None (Some (Some completedAt)).

Definition withDownloaded (n : Z) (sz : string) : PartialDownloadJob :=
  mkPartialDownloadJob None None None (Some n) (Some (Some sz)) None None None.

(** [job.size || "Calculating..."] *)
Definition sizeOrCalculating (sz : option string) : string :=
  match sz with
  | Some (String c r) => String c r
  | _ => "Calculating..."
  end.

(** What the first statement of [downloadFile] does to a file record. *)
Definition markDownloading (file : PdfFile) : PdfFile :=
  spreadPdfFile file (withStatusProgress downloading 0).

(** *** [downloadFile], up to its first [await] *)
Definition downloadFile (jobId : Z) (file : PdfFile) (s : State) : State :=
  spawn (DF_marked jobId file)
    (storage_updatePdfFile (pf_id file) (withStatusProgress downloading 0)
       (record_started jobId file s)).

(** *** [processQueue]

    The loop has no [await]: it runs to its end in one go.  [q] is
    [this.queue] on entry of an iteration. *)
Fixpoint processQueue_loop (q : list (Z * PdfFile)) (s : State) : State :=
  match q with
  | [] => s
  | (jobId, file) :: q' =>
      if bool_decide (Z.of_nat (size (activeDownloads (downloader s)))
                      < maxConcurrentDownloads (downloader s))
      then
        let s := on_downloader (set_queue q') s in
        if bool_decide (jobId ∈ cancelledJobs (downloader s))
        then processQueue_loop q' s
        else processQueue_loop q' (downloadFile jobId file s)
      else s
  end.

Definition processQueue (s : State) : State :=
  processQueue_loop (queue (downloader s)) s.

(** *** [downloadBatch] *)
Definition downloadBatch (jobId : Z) (files : list PdfFile) (s : State)
  : State :=
  spawn (DB_job jobId files)
    (storage_updateDownloadJob jobId (withJobStatus "in progress") s).

(** The [for] loop over [files], entered with the files still to do. *)
Definition downloadBatch_loop (tid : nat) (jobId : Z) (files : list PdfFile)
  (s : State) : State :=
  match files with
  | file :: rest =>
      suspend tid (DB_file jobId file rest)
        (storage_updatePdfFile (pf_id file) (withStatus queued) s)
  | [] => processQueue s
  end.

Definition queue_push (jobId : Z) (file : PdfFile) (s : State) : State :=
  on_downloader (λ d, set_queue (queue d ++ [(jobId, file)]) d) s.

(** *** [cancelDownload] *)
Definition cancelDownload (jobId : Z) (now : Z) (s : State) : State :=
  let s := on_downloader
             (λ d, set_cancelledJobs ({[jobId]} ∪ cancelledJobs d) d) s in
  let s := on_downloader
             (λ d, set_queue
                     (filter (λ item, item.1 ≠ jobId) (queue d)) d) s in
  spawn CD_job
    (storage_updateDownloadJob jobId (withJobStatusAt "cancelled" now) s).

(** *** [downloadFile], after its first [await] *)

Definition activeDownloads_delete (fileId : Z) (s : State) : State :=
  on_downloader
    (λ d, set_activeDownloads (delete fileId (activeDownloads d)) d) s.

(** The last two statements of both the [try] and the [catch] block. *)
Definition downloadFile_finish (file : PdfFile) (s : State) : State :=
  processQueue (activeDownloads_delete (pf_id file) s).

Definition downloadFile_catch (tid : nat) (jobId : Z) (file : PdfFile)
  (s : State) : State :=
  suspend tid (DF_failed jobId file)
    (storage_updatePdfFile (pf_id file) (withStatusProgress failed 0) s).

Definition downloadFile_start (tid : nat) (jobId : Z) (file : PdfFile)
  (t1 t2 : Z) (s : State) : State :=
  let tempFilePath :=
    path_join (tempDir s) (pretty t1 ++ "-" ++ pf_filename file) in
  let s := on_downloader
             (λ d, set_activeDownloads
                     (<[pf_id file := mkActiveDownload jobId (pf_id file) 0 t2]>
                        (activeDownloads d)) d) s in
  suspend tid (DF_fetch jobId file tempFilePath) s.

(** [response]: [None] when [fetch] rejects, otherwise [response.ok].
    [unlinked]: whether [fs.unlinkSync] returns (rather than throws). *)
Definition downloadFile_fetched (tid : nat) (jobId : Z) (file : PdfFile)
  (tempFilePath : string) (response : option bool) (unlinked : bool)
  (s : State) : State :=
  match response with
  | Some true =>
      if bool_decide (jobId ∈ cancelledJobs (downloader s))
      then
        if unlinked
        then suspend tid (DF_reverted jobId file)
               (storage_updatePdfFile (pf_id file)
                  (withStatusProgress ready 0) s)
        else downloadFile_catch tid jobId file s
      else suspend tid (DF_buffer jobId file tempFilePath) s
  | _ => downloadFile_catch tid jobId file s
  end.

Definition set_bytesDownloaded (n : Z) (a : ActiveDownload) : ActiveDownload :=
  mkActiveDownload (ad_jobId a) (ad_fileId a) n (ad_startTime a).

(** [buffer]: [None] when [response.buffer()] rejects, otherwise
    [buffer.length]. *)
Definition downloadFile_buffered (tid : nat) (jobId : Z) (file : PdfFile)
  (tempFilePath : string) (buffer : option Z) (s : State) : State :=
  match buffer with
  | Some bytesDownloaded =>
      let s := on_downloader
                 (λ d, set_activeDownloads
                         (alter (set_bytesDownloaded bytesDownloaded)
                            (pf_id file) (activeDownloads d)) d) s in
      suspend tid (DF_progress jobId file tempFilePath)
        (storage_updatePdfFile (pf_id file) (withProgress 100) s)
  | None => downloadFile_catch tid jobId file s
  end.

Definition downloadFile_getJob (tid : nat) (jobId : Z) (file : PdfFile)
  (s : State) : State :=
  suspend tid (DF_job jobId file (getDownloadJob jobId (storage s))) s.

(** [stats]: [None] when [fs.statSync] throws, otherwise [stats.size]. *)
Definition downloadFile_stat (tid : nat) (jobId : Z) (file : PdfFile)
  (stats : option Z) (s : State) : State :=
  match stats with
  | Some fileSizeInBytes =>
      let fileSize := formatSize fileSizeInBytes in
      if bool_decide (pf_size file = Some "Unknown")
      then suspend tid (DF_sized jobId file)
             (storage_updatePdfFile (pf_id file) (withSize fileSize) s)
      else downloadFile_getJob tid jobId file s
  | None => downloadFile_catch tid jobId file s
  end.

Definition downloadFile_count (tid : nat) (jobId : Z) (file : PdfFile)
  (job : option DownloadJob) (s : State) : State :=
  match job with
  | Some job =>
      suspend tid (DF_counted jobId file job)
        (storage_updateDownloadJob jobId
           (withDownloaded (job_downloadedFiles job + 1)
              (sizeOrCalculating (job_size job))) s)
  | None => downloadFile_finish file s
  end.

(** [completeJob], up to its first [await]. *)
Definition completeJob (tid : nat) (jobId : Z) (file : PdfFile) (s : State)
  : State :=
  suspend tid (CJ_job jobId file (getDownloadJob jobId (storage s))) s.

Definition downloadFile_check (tid : nat) (jobId : Z) (file : PdfFile)
  (job : DownloadJob) (s : State) : State :=
  if bool_decide (job_downloadedFiles job + 1 >= job_totalFiles job)
  then completeJob tid jobId file s
  else downloadFile_finish file s.


(** *** [completeJob], after its first [await] *)

(** [error instanceof Error ? error.message : "Unknown error"]; a thrown
    value is [Some message] when it is an [Error]. *)
Definition errorMessage (error : option string) : string :=
  match error with Some message => message | None => "Unknown error" end.

Definition completeJob_catch (tid : nat) (jobId : Z) (file : PdfFile)
  (error : option string) (now : Z) (s : State) : State :=
  suspend tid (CJ_failed jobId file error)
    (storage_updateDownloadJob jobId (withJobStatusAt "failed" now) s).

Definition completeJob_begin (tid : nat) (jobId : Z) (file : PdfFile)
  (job : option DownloadJob) (now : Z) (s : State) : State :=
  match job with
  | Some job =>
      suspend tid (CJ_zipping jobId file job)
        (storage_updateDownloadJob jobId (withJobStatus "creating zip") s)
  | None =>
      completeJob_catch tid jobId file
        (Some ("Job " ++ pretty jobId ++ " not found")) now s
  end.

Definition completeJob_getFiles (tid : nat) (jobId : Z) (file : PdfFile)
  (job : DownloadJob) (s : State) : State :=
  suspend tid (CJ_files jobId file job (getPdfFiles (storage s))) s.

(** The callback of [allFiles.filter] that selects the files of the job. *)
Definition belongsToJob (job : DownloadJob) (file : PdfFile) : bool :=
  match match_Series (job_name job) with
  | Some series =>
      match match_prefix3 (pf_filename file) with
      | Some prefix => bool_decide (prefix = series)
      | None => false
      end
  | None =>
      match match_range (job_name job) with
      | Some (first, last) =>
          let startNum := parseInt first in
          let endNum := parseInt last in
          match match_digits (pf_filename file) with
          | Some digits =>
              let fileNum := parseInt digits in
              PrimFloat.leb startNum fileNum && PrimFloat.leb fileNum endNum
          | None => false
          end
      | None => false
      end
  end.

(** [jobFiles] and then [completedFiles]: the files that belong to the job
    by its name, and of these the [completed] ones. *)
Definition completedFilesOf (job : DownloadJob) (allFiles : list PdfFile)
  : list PdfFile :=
  let jobFiles := List.filter (belongsToJob job) allFiles in
  List.filter (λ f, bool_decide (pf_status f = completed)) jobFiles.

(** A directory entry as the code observes it: its name, and its size when
    [fs.existsSync] holds for it. *)
Definition DirEntry : Type := string * option Z.

(** The inner loop over [matchingTempFiles]: the first entry that exists
    with a positive size. *)
Fixpoint firstValid (tempDir : string) (matching : list DirEntry)
  : option string :=
  match matching with
  | (tempFile, stats) :: rest =>
      match stats with
      | Some sz =>
          if 0 <? sz then Some (path_join tempDir tempFile)
          else firstValid tempDir rest
      | None => firstValid tempDir rest
      end
  | [] => None
  end.

Definition resolveTempFiles (tempDir : string) (allTempFiles : list DirEntry)
  (completedFiles : list PdfFile) : list string :=
  omap (λ file : PdfFile,
          firstValid tempDir
            (List.filter (λ t : DirEntry, includes t.1 (pf_filename file))
               allTempFiles))
    completedFiles.

Definition zipFileNameOf (job : DownloadJob) : string :=
  "jfk-docs-" ++ toLowerCase (replace_spaces false (job_name job)) ++ ".zip".

(** [listing]: the message thrown by [fs.readdirSync], or the entries of
    [tempDir]. *)
Definition completeJob_collect (tid : nat) (jobId : Z) (file : PdfFile)
  (job : DownloadJob) (allFiles : list PdfFile)
  (listing : option string + list DirEntry) (now : Z) (s : State) : State :=
  let completedFiles := completedFilesOf job allFiles in
  let zipFileName := zipFileNameOf job in
  let zipFilePath := path_join (downloadsDir s) zipFileName in
  match listing with
  | inr allTempFiles =>
      let tempFiles :=
        resolveTempFiles (tempDir s) allTempFiles completedFiles in
      if bool_decide (length tempFiles = 0%nat)
      then completeJob_catch tid jobId file
             (Some "No files found to include in zip") now s
      else suspend tid
             (CJ_zip jobId file job tempFiles zipFileName zipFilePath) s
  | inl error => completeJob_catch tid jobId file error now s
  end.

(** [result]: what [zipper.createZip] or the [fs.statSync] behind it threw,
    or the size of the archive. *)
Definition completeJob_zipped (tid : nat) (jobId : Z) (file : PdfFile)
  (job : DownloadJob) (tempFiles : list string)
  (zipFileName zipFilePath : string) (result : option string + Z) (now : Z)
  (s : State) : State :=
  match result with
  | inr zipSizeInBytes =>
      let zipSize := formatSize zipSizeInBytes in
      suspend tid
        (CJ_completed jobId file job tempFiles zipFileName zipFilePath zipSize)
        (storage_updateDownloadJob jobId (withJobCompletion now zipSize) s)
  | inl error => completeJob_catch tid jobId file error now s
  end.

Definition completeJob_record (tid : nat) (jobId : Z) (file : PdfFile)
  (job : DownloadJob) (tempFiles : list string)
  (zipFileName zipFilePath zipSize : string) (now : Z) (s : State) : State :=
  suspend tid (CJ_recorded jobId file job tempFiles)
    (on_storage
       (λ st, (createCompletedDownload zipFileName
                 (pretty (length tempFiles) ++ " PDFs (" ++ job_name job ++ ")")
                 zipSize zipFilePath now st).2) s).

Definition completeJob_log (tid : nat) (jobId : Z) (file : PdfFile)
  (job : DownloadJob) (tempFiles : list string) (now : Z) (s : State)
  : State :=
  suspend tid (CJ_logged jobId file)
    (on_storage
       (λ st, (createHistoryEntry "Download completed"
                 ("Completed download job: " ++ job_name job ++ " with "
                  ++ pretty (length tempFiles) ++ " files")
                 (Z.of_nat (length tempFiles)) now st).2) s).

Definition completeJob_logFailure (tid : nat) (jobId : Z) (file : PdfFile)
  (error : option string) (now : Z) (s : State) : State :=
  suspend tid (CJ_logged jobId file)
    (on_storage
       (λ st, (createHistoryEntry "Download failed"
                 ("Failed to complete download job " ++ pretty jobId ++ ": "
                  ++ errorMessage error)
                 0 now st).2) s).

(** ** The event loop *)

(** What the outside hands to a continuation when its [await] settles. *)
Inductive Response :=
  | Settled (now : Z)
  | Clock (t1 t2 : Z)
  | Fetched (response : option bool) (unlinked : bool)
  | Buffered (buffer : option Z)
  | Stats (stats : option Z)
  | Listed (listing : option string + list DirEntry) (now : Z)
  | Zipped (result : option string + Z) (now : Z).

(** The code that runs when the continuation [k] of task [tid] is resumed;
    [None] when the response is not of the kind [k] waits for. *)
Definition resume (tid : nat) (k : Cont) (r : Response) (s : State)
  : option State :=
  match k, r with
  | DB_job jobId files, Settled _ =>
      Some (downloadBatch_loop tid jobId files s)
  | DB_file jobId file rest, Settled _ =>
      Some (downloadBatch_loop tid jobId rest (queue_push jobId file s))
  | DF_marked jobId file, Clock t1 t2 =>
      Some (downloadFile_start tid jobId file t1 t2 s)
  | DF_fetch jobId file tempFilePath, Fetched response unlinked =>
      Some (downloadFile_fetched tid jobId file tempFilePath response
              unlinked s)
  | DF_reverted jobId file, Settled _ =>
      Some (activeDownloads_delete (pf_id file) s)
  | DF_buffer jobId file tempFilePath, Buffered buffer =>
      Some (downloadFile_buffered tid jobId file tempFilePath buffer s)
  | DF_progress jobId file tempFilePath, Settled _ =>
      Some (suspend tid (DF_completed jobId file tempFilePath)
              (storage_updatePdfFile (pf_id file)
                 (withStatusProgress completed 100) s))
  | DF_completed jobId file tempFilePath, Stats stats =>
      Some (downloadFile_stat tid jobId file stats s)
  | DF_sized jobId file, Settled _ =>
      Some (downloadFile_getJob tid jobId file s)
  | DF_job jobId file job, Settled _ =>
      Some (downloadFile_count tid jobId file job s)
  | DF_counted jobId file job, Settled _ =>
      Some (downloadFile_check tid jobId file job s)
  | DF_joined jobId file, Settled _ =>
      Some (downloadFile_finish file s)
  | DF_failed jobId file, Settled _ =>
      Some (downloadFile_finish file s)
  | CJ_job jobId file job, Settled now =>
      Some (completeJob_begin tid jobId file job now s)
  | CJ_zipping jobId file job, Settled _ =>
      Some (completeJob_getFiles tid jobId file job s)
  | CJ_files jobId file job allFiles, Listed listing now =>
      Some (completeJob_collect tid jobId file job allFiles listing now s)
  | CJ_zip jobId file job tempFiles zipFileName zipFilePath,
    Zipped result now =>
      Some (completeJob_zipped tid jobId file job tempFiles zipFileName
              zipFilePath result now s)
  | CJ_completed jobId file job tempFiles zipFileName zipFilePath zipSize,
    Settled now =>
      Some (completeJob_record tid jobId file job tempFiles zipFileName
              zipFilePath zipSize now s)
  | CJ_recorded jobId file job tempFiles, Settled now =>
      Some (completeJob_log tid jobId file job tempFiles now s)
  | CJ_failed jobId file error, Settled now =>
      Some (completeJob_logFailure tid jobId file error now s)
  | CJ_logged jobId file, Settled _ =>
      Some (suspend tid (DF_joined jobId file) s)
  | CD_job, Settled _ => Some s
  | _, _ => None
  end.

(** What can happen next: a caller invokes one of the two public methods
    that change state, or a suspended call is resumed. *)
Inductive Event :=
  | Call_downloadBatch (jobId : Z) (files : list PdfFile)
  | Call_cancelDownload (jobId : Z) (now : Z)
  | Resume (tid : nat) (r : Response).

Definition step (s : State) (e : Event) : option State :=
  match e with
  | Call_downloadBatch jobId files => Some (downloadBatch jobId files s)
  | Call_cancelDownload jobId now => Some (cancelDownload jobId now s)
  | Resume tid r =>
      match tasks s !! tid with
      | Some k => resume tid k r (remove_task tid s)
      | None => None
      end
  end.

Fixpoint run (s : State) (events : list Event) : option State :=
  match events with
  | [] => Some s
  | e :: events' =>
      match step s e with
      | Some s' => run s' events'
      | None => None
      end
  end.

(** ** [getCurrentSpeed] *)


Section Speed.

(** [Number.prototype.toFixed] with one fraction digit, of the runtime. *)
Variable toFixed1 : float → string.





(** *** The throughput estimate as the specification words it *)







End Speed.




(** ** Running one call without interleaving *)

(** What the outside answers during one step: the clock, the network, the
    file system and the zip library. *)
Record Outside := mkOutside {
  o_now : Z;
  o_response : option bool;
  o_unlinked : bool;
  o_buffer : option Z;
  o_stats : option Z;
  o_listing : option string + list DirEntry;
  o_zip : option string + Z
}.

(** The response of the kind the continuation waits for. *)
Definition respond (o : Outside) (k : Cont) : Response :=
  match k with
  | DF_marked _ _ => Clock (o_now o) (o_now o)
  | DF_fetch _ _ _ => Fetched (o_response o) (o_unlinked o)
  | DF_buffer _ _ _ => Buffered (o_buffer o)
  | DF_completed _ _ _ => Stats (o_stats o)
  | CJ_files _ _ _ _ => Listed (o_listing o) (o_now o)
  | CJ_zip _ _ _ _ _ _ => Zipped (o_zip o) (o_now o)
  | _ => Settled (o_now o)
  end.

(** Task [tid] takes one step per element of [os], nothing runs between. *)
Fixpoint run_alone (os : list Outside) (tid : nat) (s : State)
  : option State :=
  match os with
  | [] => Some s
  | o :: os' =>
      match tasks s !! tid with
      | Some k =>
          match step s (Resume tid (respond o k)) with
          | Some s' => run_alone os' tid s'
          | None => None
          end
      | None => None
      end
  end.

(** ** A batch submitted without interleaving *)





(** ** Failure of the archiving step *)

(** The two ways the archiving step fails: task [tid] is at
    [fs.readdirSync] and no staged file resolves, so the code throws
    "No files found to include in zip"; or it is at [zipper.createZip] and
    that call throws [error].  [r] is the response that makes it so and
    [error] what the [catch] block receives. *)
Inductive archivingFails (s : State) (tid : nat) (jobId : Z) (file : PdfFile)
  (now : Z) : Response → option string → Prop :=
  | fails_without_artifacts job allFiles listing :
      tasks s !! tid = Some (CJ_files jobId file job allFiles) →
      resolveTempFiles (tempDir s) listing (completedFilesOf job allFiles)
      = [] →
      archivingFails s tid jobId file now (Listed (inr listing) now)
        (Some "No files found to include in zip")
  | fails_in_createZip job tempFiles zipFileName zipFilePath error :
      tasks s !! tid
      = Some (CJ_zip jobId file job tempFiles zipFileName zipFilePath) →
      archivingFails s tid jobId file now (Zipped (inl error) now) error.

(** What the [catch] block of [completeJob] writes. *)
Definition failedAt (now : Z) (job : DownloadJob) : DownloadJob :=
  spreadDownloadJob job (withJobStatusAt "failed" now).

Definition failureEntry (id jobId : Z) (error : option string) (now : Z)
  : History :=
  mkHistory id now "Download failed"
    ("Failed to complete download job " ++ pretty jobId ++ ": "
     ++ errorMessage error) 0.

(** The state a run of events ends in ([s] itself when the events cannot
    happen). *)
Definition stateAfter (s : State) (events : list Event) : State :=
  match run s events with Some s' => s' | None => s end.


(** ** Observations *)

Definition fileStatus (id : Z) (s : State) : option PdfStatus :=
  pf_status <$> pdfFiles (storage s) !! id.

Definition jobStatus (id : Z) (s : State) : option string :=
  job_status <$> downloadJobs (storage s) !! id.

Definition jobDownloaded (id : Z) (s : State) : option Z :=
  job_downloadedFiles <$> downloadJobs (storage s) !! id.


(** The number of files whose status is [downloading]. *)
Definition downloadingCount (s : State) : nat :=
  length (List.filter (λ f, bool_decide (pf_status f = downloading))
            (getPdfFiles (storage s))).

(** The calls of [downloadFile] made for job [jobId]. *)
Definition startedFor (jobId : Z) (s : State) : list (Z * PdfFile) :=
  List.filter (λ item : Z * PdfFile, bool_decide (item.1 = jobId)) (started s).

(** ** A second call of [completeJob] *)

(** [x] holds job [jobId] and has the history and the archive records of
    [s]. *)
Definition archivingFrom (s : State) (jobId : Z) (x : State) : Prop :=
  is_Some (downloadJobs (storage x) !! jobId)
  ∧ historyEntries (storage x) = historyEntries (storage s)
  ∧ historyCounter (storage x) = historyCounter (storage s)
  ∧ completedDownloads (storage x) = completedDownloads (storage s)
  ∧ completedDownloadsCounter (storage x)
    = completedDownloadsCounter (storage s).

(** How a call of [completeJob] made in state [s] ends. *)
Definition archivedAgain (s : State) (tid : nat) (jobId : Z) (file : PdfFile)
  (s' : State) : Prop :=
  tasks s' !! tid = Some (CJ_logged jobId file)
  ∧ historyCounter (storage s') = historyCounter (storage s) + 1
  ∧ (∃ entry,
       historyEntries (storage s')
       = <[historyCounter (storage s) := entry]> (historyEntries (storage s)))
  ∧ ((jobStatus jobId s' = Some "completed"
      ∧ completedDownloadsCounter (storage s')
        = completedDownloadsCounter (storage s) + 1
      ∧ ∃ record,
          completedDownloads (storage s')
          = <[completedDownloadsCounter (storage s) := record]>
              (completedDownloads (storage s)))
     ∨ (jobStatus jobId s' = Some "failed"
        ∧ completedDownloads (storage s') = completedDownloads (storage s))).

(** The admission test of [processQueue]. *)
Definition hasFreeSlot (s : State) : bool :=
  bool_decide (Z.of_nat (size (activeDownloads (downloader s)))
               < maxConcurrentDownloads (downloader s)).

Definition notCancelled (s : State) (item : Z * PdfFile) : bool :=
  negb (bool_decide (item.1 ∈ cancelledJobs (downloader s))).

(** The entries of [q] that one run of [processQueue] hands to
    [downloadFile]. *)
Definition admittedFrom (q : list (Z * PdfFile)) (s : State)
  : list (Z * PdfFile) :=
  if hasFreeSlot s then List.filter (notCancelled s) q else [].

Definition admitted (s : State) : list (Z * PdfFile) :=
  admittedFrom (queue (downloader s)) s.

(** ** Relations between the states before and after a step *)

(** What [downloadFile] and [processQueue] leave alone. *)
Record sameButFilesAndTasks (s s' : State) : Prop := {
  same_active :
    activeDownloads (downloader s') = activeDownloads (downloader s);
  same_max :
    maxConcurrentDownloads (downloader s')
    = maxConcurrentDownloads (downloader s);
  same_cancelled : cancelledJobs (downloader s') = cancelledJobs (downloader s);
  same_jobs : downloadJobs (storage s') = downloadJobs (storage s);
  same_completed :
    completedDownloads (storage s') = completedDownloads (storage s);
  same_history : historyEntries (storage s') = historyEntries (storage s);
  same_historyCounter :
    historyCounter (storage s') = historyCounter (storage s);
  same_completedCounter :
    completedDownloadsCounter (storage s')
    = completedDownloadsCounter (storage s);
  same_tempDir : tempDir s' = tempDir s;
  same_downloadsDir : downloadsDir s' = downloadsDir s
}.

(** What one step may do to the log of calls of [downloadFile] and to the
    set of cancelled jobs: the set only grows, and the calls that are added
    are for jobs that were not cancelled. *)
Definition startsOnlyLive (s s' : State) : Prop :=
  cancelledJobs (downloader s) ⊆ cancelledJobs (downloader s')
  ∧ ∃ new, started s' = (started s ++ new)%list
           ∧ Forall (λ item : Z * PdfFile,
                       item.1 ∉ cancelledJobs (downloader s)) new.


(** ** What the downloader never writes *)

(** The fields that tell which file, and which job, a record is. *)
Definition fileIdentity (file : PdfFile) : Z * string * string * Z :=
  (pf_id file, pf_url file, pf_filename file, pf_createdAt file).

Definition jobIdentity (job : DownloadJob) : Z * string * Z * Z :=
  (job_id job, job_name job, job_totalFiles job, job_createdAt job).

(** The literals [downloader.ts] passes as the status of a job. *)
Definition writtenStatuses : list string :=
  ["in progress"; "creating zip"; "completed"; "failed"; "cancelled"].

(** The store [st'] comes from [st] by writes of the kind the downloader
    makes: no file or job is added or removed and none changes its
    identity, a job status that changes becomes one of the literals above,
    and the history and the archive records only grow, under fresh ids. *)
Record storeEvolves (st st' : MemStorage) : Prop := {
  keeps_filesCounter : pdfFilesCounter st' = pdfFilesCounter st;
  keeps_jobsCounter : downloadJobsCounter st' = downloadJobsCounter st;
  keeps_files :
    ∀ id, fileIdentity <$> pdfFiles st' !! id
          = fileIdentity <$> pdfFiles st !! id;
  keeps_jobs :
    ∀ id, jobIdentity <$> downloadJobs st' !! id
          = jobIdentity <$> downloadJobs st !! id;
  keeps_status :
    ∀ id, job_status <$> downloadJobs st' !! id
          = job_status <$> downloadJobs st !! id
          ∨ ∃ status, status ∈ writtenStatuses
                      ∧ job_status <$> downloadJobs st' !! id = Some status;
  grows_historyCounter : historyCounter st <= historyCounter st';
  grows_completedCounter :
    completedDownloadsCounter st <= completedDownloadsCounter st';
  keeps_history :
    ∀ id, id < historyCounter st →
          historyEntries st' !! id = historyEntries st !! id;
  keeps_completed :
    ∀ id, id < completedDownloadsCounter st →
          completedDownloads st' !! id = completedDownloads st !! id;
  keeps_ahead : countersAhead st → countersAhead st'
}.

Record evolves (s s' : State) : Prop := {
  evolves_storage : storeEvolves (storage s) (storage s');
  evolves_max :
    maxConcurrentDownloads (downloader s')
    = maxConcurrentDownloads (downloader s);
  evolves_tempDir : tempDir s' = tempDir s;
  evolves_downloadsDir : downloadsDir s' = downloadsDir s
}.

(** The status route reports the number of jobs whose status is
    "downloading" as the active part of the download queue. *)
Definition activeJobs (st : MemStorage) : nat :=
  length (List.filter (λ job, bool_decide (job_status job = "downloading"))
            (getDownloadJobs st)).

(** ** How a call of [downloadFile] ends without success *)

(** The state once a call of [downloadFile], suspended as task [tid], has
    written [status] with progress 0 to the record of its file, has removed
    its entry of [activeDownloads] and is over. *)
Definition ended (status : PdfStatus) (tid : nat) (file : PdfFile) (s : State)
  : State :=
  mkState
    (updatePdfFile (pf_id file) (withStatusProgress status 0) (storage s)).2
    (set_activeDownloads (delete (pf_id file) (activeDownloads (downloader s)))
       (downloader s))
    (tempDir s) (downloadsDir s) (delete tid (tasks s)) (nextTask s)
    (started s).

(** The ways a download fails: task [tid] waits for [fetch], which rejects
    or answers with a status that is not ok, or the job was cancelled
    meanwhile and [fs.unlinkSync] throws; or it waits for
    [response.buffer()], which rejects; or [fs.statSync] throws on the
    staged file.  [r] is the response that makes it so. *)
Inductive downloadFails (s : State) (tid : nat) (jobId : Z) (file : PdfFile)
  : Response → Prop :=
  | fetch_rejects tempFilePath unlinked :
      tasks s !! tid = Some (DF_fetch jobId file tempFilePath) →
      downloadFails s tid jobId file (Fetched None unlinked)
  | response_not_ok tempFilePath unlinked :
      tasks s !! tid = Some (DF_fetch jobId file tempFilePath) →
      downloadFails s tid jobId file (Fetched (Some false) unlinked)
  | unlink_throws tempFilePath :
      tasks s !! tid = Some (DF_fetch jobId file tempFilePath) →
      jobId ∈ cancelledJobs (downloader s) →
      downloadFails s tid jobId file (Fetched (Some true) false)
  | buffer_rejects tempFilePath :
      tasks s !! tid = Some (DF_buffer jobId file tempFilePath) →
      downloadFails s tid jobId file (Buffered None)
  | stat_throws tempFilePath :
      tasks s !! tid = Some (DF_completed jobId file tempFilePath) →
      downloadFails s tid jobId file (Stats None).

(** ** A cancellation that comes after the check *)

(** The resumptions that take a call of [downloadFile] from
    [response.buffer()] to the first statement of [completeJob], every step
    succeeding; the file size is written when the record the call holds
    says "Unknown". *)
Definition succeedAfterCheck (tid : nat) (file : PdfFile) (bytes t : Z)
  : list Event :=
  [Resume tid (Buffered (Some bytes)); Resume tid (Settled t);
   Resume tid (Stats (Some bytes))]
  ++ (if bool_decide (pf_size file = Some "Unknown")
      then [Resume tid (Settled t)] else [])
  ++ [Resume tid (Settled t); Resume tid (Settled t); Resume tid (Settled t)].

(** ** A download that succeeds below the total *)

(** The resumptions that take a call of [downloadFile] from
    [response.buffer()] to its end when the completion check does not
    fire. *)
Definition succeedAndEnd (tid : nat) (file : PdfFile) (bytes size t : Z)
  : list Event :=
  [Resume tid (Buffered (Some bytes)); Resume tid (Settled t);
   Resume tid (Stats (Some size))]
  ++ (if bool_decide (pf_size file = Some "Unknown")
      then [Resume tid (Settled t)] else [])
  ++ [Resume tid (Settled t); Resume tid (Settled t)].

(** What these steps write to the store: the file is [completed] with
    progress 100, its size is filled in when the record the call holds says
    "Unknown", and the job has the counter of [job] plus one. *)
Definition storeAfterSuccess (jobId : Z) (file : PdfFile) (job : DownloadJob)
  (size : Z) (st : MemStorage) : MemStorage :=
  let st := (updatePdfFile (pf_id file) (withProgress 100) st).2 in
  let st :=
    (updatePdfFile (pf_id file) (withStatusProgress completed 100) st).2 in
  let st :=
    if bool_decide (pf_size file = Some "Unknown")
    then (updatePdfFile (pf_id file) (withSize (formatSize size)) st).2
    else st in
  (updateDownloadJob jobId
     (withDownloaded (job_downloadedFiles job + 1)
        (sizeOrCalculating (job_size job))) st).2.

(** The state in which the call reaches its last statement,
    [this.processQueue()]. *)
Definition succeeded (tid : nat) (jobId : Z) (file : PdfFile)
  (job : DownloadJob) (size : Z) (s : State) : State :=
  mkState (storeAfterSuccess jobId file job size (storage s))
    (set_activeDownloads (delete (pf_id file) (activeDownloads (downloader s)))
       (downloader s))
    (tempDir s) (downloadsDir s) (delete tid (tasks s)) (nextTask s)
    (started s).

(** ** The download that completes a job *)

(** The resumptions that take a call of [completeJob] from its second
    statement through an archiving that works: the temp directory lists as
    [listing] and the archive has [zipSize] bytes.  At the end the call has
    returned to [downloadFile], which has ended too. *)
Definition archive (tid : nat) (listing : list DirEntry) (zipSize t : Z)
  : list Event :=
  [Resume tid (Settled t);
   Resume tid (Listed (inr listing) t);
   Resume tid (Zipped (inr zipSize) t);
   Resume tid (Settled t);
   Resume tid (Settled t);
   Resume tid (Settled t);
   Resume tid (Settled t)].

(** [tempFiles] of [completeJob]: the staged files of the [completed] files
    of the job, as [listing] shows them. *)
Definition archiveMembers (job : DownloadJob) (listing : list DirEntry)
  (tempDir : string) (st : MemStorage) : list string :=
  resolveTempFiles tempDir listing (completedFilesOf job (getPdfFiles st)).

(** The archive record and the history entry of an archive of [members]
    files for the job [name]. *)
Definition archiveRecord (id : Z) (name : string) (members : nat)
  (zipSize : Z) (downloadsDir : string) (now : Z) : CompletedDownload :=
  mkCompletedDownload id
    ("jfk-docs-" ++ toLowerCase (replace_spaces false name) ++ ".zip")
    (pretty members ++ " PDFs (" ++ name ++ ")")
    (formatSize zipSize)
    (path_join downloadsDir
       ("jfk-docs-" ++ toLowerCase (replace_spaces false name) ++ ".zip"))
    now.

Definition completionEntry (id : Z) (name : string) (members : nat) (now : Z)
  : History :=
  mkHistory id now "Download completed"
    ("Completed download job: " ++ name ++ " with " ++ pretty members
     ++ " files")
    (Z.of_nat members).

(** ** The entries of [activeDownloads] and the calls that own them *)

(** The file under whose id the suspended call has written an entry of
    [activeDownloads] that it has not removed yet: a call of [downloadFile]
    from its [fetch] up to its end, the awaited [completeJob] included. *)
Definition registered (k : Cont) : option Z :=
  match k with
  | DF_fetch _ file _ | DF_reverted _ file | DF_buffer _ file _
  | DF_progress _ file _ | DF_completed _ file _ | DF_sized _ file
  | DF_job _ file _ | DF_counted _ file _ | DF_joined _ file
  | DF_failed _ file
  | CJ_job _ file _ | CJ_zipping _ file _ | CJ_files _ file _ _
  | CJ_zip _ file _ _ _ _ | CJ_completed _ file _ _ _ _ _
  | CJ_recorded _ file _ _ | CJ_failed _ file _ | CJ_logged _ file =>
      Some (pf_id file)
  | DB_job _ _ | DB_file _ _ _ | DF_marked _ _ | CD_job => None
  end.

(** Every entry of [activeDownloads] is owned by a suspended call, and the
    task numbers in use are below the next one. *)
Record slotsOwned (s : State) : Prop := {
  tasks_below :
    ∀ tid, is_Some (tasks s !! tid) → (tid < nextTask s)%nat;
  slots_owned :
    ∀ id, is_Some (activeDownloads (downloader s) !! id) →
          ∃ tid k, tasks s !! tid = Some k ∧ registered k = Some id
}.

(** ** [routes.ts]: which files a request selects and how they become jobs

    Of the route handlers, the computations between their [await]s are
    modelled: the arguments are the arrays the store returned.  Numbers of
    a request body are integers here; [zod] admits any positive number. *)

(** An index argument of [Array.prototype.slice]: a negative one counts
    from the end, and both ends are clipped to the array. *)
Definition relativeIndex (k len : Z) : Z :=
  if k <? 0 then Z.max (len + k) 0 else Z.min k len.

(** [l.slice(start, final)]. *)
Definition slice {A} (start final : Z) (l : list A) : list A :=
  let len := Z.of_nat (length l) in
  let from := relativeIndex start len in
  let to := relativeIndex final len in
  take (Z.to_nat (to - from)) (drop (Z.to_nat from) l).

(** The body of [POST /api/downloads] once [downloadSchema] has parsed it;
    [pdfsPerZip] has its default filled in. *)
Record DownloadRequest := mkDownloadRequest {
  req_ids : option (list Z);
  req_rangeStart : option Z;
  req_rangeEnd : option Z;
  req_pdfsPerZip : Z
}.

Definition filesToDownload (req : DownloadRequest) (allFiles : list PdfFile)
  : list PdfFile :=
  match req_ids req with
  | Some (id :: ids) =>
      List.filter (λ file, bool_decide (pf_id file ∈ id :: ids)) allFiles
  | _ =>
      match req_rangeStart req, req_rangeEnd req with
      | Some rangeStart, Some rangeEnd =>
          let startIndex := Z.max 0 (rangeStart - 1) in
          let endIndex :=
            Z.min (Z.of_nat (length allFiles) - 1) (rangeEnd - 1) in
          slice startIndex (endIndex + 1) allFiles
      | _, _ => allFiles
      end
  end.

(** The loop [for (let i = 0; i < files.length; i += pdfsPerZip)] entered
    with [i]; [fuel] bounds the number of iterations, and the result is
    [None] when it runs out. *)
Fixpoint batches_from (fuel : nat) (i pdfsPerZip : Z) (files : list PdfFile)
  : option (list (list PdfFile)) :=
  if i <? Z.of_nat (length files)
  then
    match fuel with
    | O => None
    | S fuel' =>
        cons (slice i (i + pdfsPerZip) files)
          <$> batches_from fuel' (i + pdfsPerZip) pdfsPerZip files
    end
  else Some [].

(** [firstMatch ? firstMatch[0] : "unknown"] *)
Definition numberOf (file : PdfFile) : string :=
  match match_digits (pf_filename file) with
  | Some digits => digits
  | None => "unknown"
  end.

(** The name of the job of a batch, from its first and its last file. *)
Definition batchJobName (firstFile lastFile : PdfFile) : string :=
  "JFK Records " ++ numberOf firstFile ++ "-" ++ numberOf lastFile.

(** [POST /api/downloads/organized]: the record series of a file. *)
Definition seriesOf (file : PdfFile) : string :=
  match match_prefix3 (pf_filename file) with
  | Some series => series
  | None => "000"
  end.

(** [seriesGroups], a [Map] from series to files in insertion order, and
    what the body of the loop over [allFiles] does to it. *)
Fixpoint group_push (series : string) (file : PdfFile)
  (groups : list (string * list PdfFile)) : list (string * list PdfFile) :=
  match groups with
  | [] => [(series, [file])]
  | (key, files) :: rest =>
      if String.eqb key series
      then (key, files ++ [file])%list :: rest
      else (key, files) :: group_push series file rest
  end.

Definition seriesGroups (allFiles : list PdfFile)
  : list (string * list PdfFile) :=
  fold_left (λ groups file, group_push (seriesOf file) file groups)
    allFiles [].

Definition seriesJobName (series : string) : string :=
  "JFK Records Series " ++ series.

(** [POST /api/downloads/retry/:id]: the callback of [allFiles.filter]
    that selects the files to download again. *)
Definition retrySelects (job : DownloadJob) (file : PdfFile) : bool :=
  match match_range (job_name job) with
  | Some (first, last) =>
      let startNum := parseInt first in
      let endNum := parseInt last in
      match match_digits (pf_filename file) with
      | Some digits =>
          let fileNum := parseInt digits in
          PrimFloat.leb startNum fileNum && PrimFloat.leb fileNum endNum
      | None => false
      end
  | None => false
  end.

(** Every character of [s] passes the test. *)
Fixpoint all_chars (test : ascii → bool) (s : string) : bool :=
  match s with
  | String c s' => test c && all_chars test s'
  | "" => true
  end.

Definition is_upper (c : ascii) : bool :=
  let n := nat_of_ascii c in (65 <=? n)%nat && (n <=? 90)%nat.

(** [seriesGroups.get(series)] *)
Fixpoint group_get (series : string) (groups : list (string * list PdfFile))
  : option (list PdfFile) :=
  match groups with
  | [] => None
  | (key, files) :: rest =>
      if String.eqb key series then Some files else group_get series rest
  end.

(** The files of [allFiles] whose record series is [series], in order. *)
Definition ofSeries (series : string) (allFiles : list PdfFile)
  : list PdfFile :=
  List.filter (λ file, bool_decide (seriesOf file = series)) allFiles.

(** ** The order in which suspended calls are resumed

    An [await] on a promise of the record store is an [await] on a promise
    that is settled already: the continuation is queued at once as a job of
    the microtask queue of the event loop, and the event loop runs these
    jobs first in, first out.  The same holds for the [await] on
    [completeJob], whose continuation is queued when [completeJob] returns.
    The other [await]s ([fetch], [response.buffer()], [zipper.createZip])
    settle when the outside is done. *)
Definition immediate (k : Cont) : bool :=
  match k with
  | DF_fetch _ _ _ | DF_buffer _ _ _ | CJ_zip _ _ _ _ _ _ => false
  | _ => true
  end.

Definition queuedAt (s : State) (tid : nat) : bool :=
  match tasks s !! tid with
  | Some k => immediate k
  | None => false
  end.

(** The jobs a step from [s] to [s'] has added to the microtask queue: the
    task that took the step, when it is suspended at such an [await] again,
    and the calls the step has made, which are numbered from [nextTask s]
    on. *)
Definition awaiting (self : list nat) (s s' : State) : list nat :=
  List.filter (queuedAt s')
    (self ++ seq (nextTask s) (nextTask s' - nextTask s))%list.

(** One step of the event loop with its microtask queue [micro].  A
    continuation that is a job of the queue runs only when it is at the
    head of the queue.  Calls from outside and continuations of the other
    [await]s are not ordered: the caller may be a job of the queue
    itself. *)
Definition step_fifo (micro : list nat) (s : State) (e : Event)
  : option (list nat * State) :=
  match e with
  | Resume tid r =>
      if queuedAt s tid
      then match micro with
           | next :: micro' =>
               if bool_decide (next = tid)
               then (λ s', ((micro' ++ awaiting [tid] s s')%list, s'))
                      <$> step s e
               else None
           | [] => None
           end
      else (λ s', ((micro ++ awaiting [tid] s s')%list, s')) <$> step s e
  | _ => (λ s', ((micro ++ awaiting [] s s')%list, s')) <$> step s e
  end.

Fixpoint run_fifo (micro : list nat) (s : State) (events : list Event)
  : option (list nat * State) :=
  match events with
  | [] => Some (micro, s)
  | e :: events' =>
      match step_fifo micro s e with
      | Some (micro', s') => run_fifo micro' s' events'
      | None => None
      end
  end.




(** The continuations a call starts with. *)
Definition fresh (k : Cont) : bool :=
  match k with
  | DB_job _ _ | DF_marked _ _ | CD_job => true
  | _ => false
  end.



(** ** A batch submitted while other calls run *)




(** A step that leaves the entry of task [tid] alone. *)
Definition keepsTask (tid : nat) (x y : State) : Prop :=
  (nextTask x <= nextTask y)%nat
  ∧ ((tid < nextTask x)%nat → tasks y !! tid = tasks x !! tid).






(** ** Scenarios *)

(** A file as the scan route stores it; [n] is the id the store gives it. *)
Definition scanned (n : Z) (filename : string) : PdfFile :=
  mkPdfFile n ("https://www.archives.gov/files/" ++ filename) filename
    (Some "Unknown") ready 0 0.

Definition fileA : PdfFile := scanned 1 "104-10001-10001.pdf".
Definition fileB : PdfFile := scanned 2 "104-10002-10002.pdf".
Definition fileC : PdfFile := scanned 3 "104-10003-10003.pdf".
Definition fileD : PdfFile := scanned 4 "104-10004-10004.pdf".
Definition fileE : PdfFile := scanned 5 "104-10005-10005.pdf".

Definition scan (filename : string) (st : MemStorage) : MemStorage :=
  (createPdfFile ("https://www.archives.gov/files/" ++ filename) filename
     (Some "Unknown") ready 0 st).2.

Definition withJob (name : string) (totalFiles : Z) (st : MemStorage)
  : MemStorage :=
  (createDownloadJob name totalFiles None "queued" 0 st).2.

Definition startWith (st : MemStorage) : State :=
  on_storage (λ _, st) (initialState "/app/temp" "/app/downloads").

(** Four scanned files and one job over all of them; capacity is 3. *)
Definition fourFiles : State :=
  startWith
    (withJob "JFK Records 104-104" 4
       (scan "104-10004-10004.pdf"
          (scan "104-10003-10003.pdf"
             (scan "104-10002-10002.pdf"
                (scan "104-10001-10001.pdf" emptyStorage))))).

(** [downloadBatch(1, [A, B, C, D])] and the five resumptions that take it
    to its end. *)
Definition submitFour : list Event :=
  Call_downloadBatch 1 [fileA; fileB; fileC; fileD]
  :: replicate 5 (Resume 0 (Settled 10)).

(** Each of the four calls of [downloadFile] goes on to its [fetch]. *)
Definition fetchFour : list Event :=
  [Resume 1 (Clock 11 11); Resume 2 (Clock 11 11);
   Resume 3 (Clock 11 11); Resume 4 (Clock 11 11)].

(** Two scanned files and a job of one file whose name covers both: what
    the retry route submits for such a job is both files. *)
Definition twoFilesJobOfOne : State :=
  startWith
    (withJob "JFK Records 104-104" 1
       (scan "104-10002-10002.pdf"
          (scan "104-10001-10001.pdf" emptyStorage))).

(** Two scanned files and a job of two files. *)
Definition twoFilesJobOfTwo : State :=
  startWith
    (withJob "JFK Records 104-104" 2
       (scan "104-10002-10002.pdf"
          (scan "104-10001-10001.pdf" emptyStorage))).

(** Three scanned files, a job of three files and a job of one file. *)
Definition threeFilesTwoJobs : State :=
  startWith
    (withJob "JFK Records 104-104" 1
       (withJob "JFK Records 104-104" 3
          (scan "104-10003-10003.pdf"
             (scan "104-10002-10002.pdf"
                (scan "104-10001-10001.pdf" emptyStorage))))).

(** Five scanned files, a job of three files and a job of two files. *)
Definition fiveFilesTwoJobs : State :=
  startWith
    (withJob "JFK Records 104-104" 2
       (withJob "JFK Records 104-104" 3
          (scan "104-10005-10005.pdf"
             (scan "104-10004-10004.pdf"
                (scan "104-10003-10003.pdf"
                   (scan "104-10002-10002.pdf"
                      (scan "104-10001-10001.pdf" emptyStorage))))))).

(** The temp directory after file A, and after both files, were written. *)
Definition stagedA : list DirEntry :=
  [("1700000000000-104-10001-10001.pdf", Some 2048);
   ("1700000000000-104-10002-10002.pdf", Some 0)].

Definition stagedBoth : list DirEntry :=
  [("1700000000000-104-10001-10001.pdf", Some 2048);
   ("1700000000000-104-10002-10002.pdf", Some 4096)].

(** Task [tid], a call of [downloadFile] whose [fetch] is under way,
    succeeds up to the point where the job counter has been written
    ([DF_counted]). *)
Definition succeedUntilCounted (tid : nat) (bytes t : Z) : list Event :=
  [Resume tid (Fetched (Some true) true);
   Resume tid (Buffered (Some bytes));
   Resume tid (Settled t);
   Resume tid (Stats (Some bytes));
   Resume tid (Settled t);
   Resume tid (Settled t)].

(** Task [tid], a call of [completeJob] that has just been made, archives
    with success and returns to [downloadFile], which ends. *)
Definition archiveWithSuccess (tid : nat) (staged : list DirEntry) (t : Z)
  : list Event :=
  [Resume tid (Settled t);
   Resume tid (Settled t);
   Resume tid (Listed (inr staged) t);
   Resume tid (Zipped (inr 5000) t);
   Resume tid (Settled t);
   Resume tid (Settled t);
   Resume tid (Settled t);
   Resume tid (Settled t)].

(** [downloadBatch(1, [A, B])]: both files are dequeued and both calls of
    [downloadFile] go on to their [fetch]. *)
Definition submitTwo : list Event :=
  Call_downloadBatch 1 [fileA; fileB]
  :: replicate 3 (Resume 0 (Settled 10))
  ++ [Resume 1 (Clock 1700000000000 1700000000000);
      Resume 2 (Clock 1700000000000 1700000000000)].

(** File A succeeds, its completion check fires and the job is archived. *)
Definition firstFileArchives : list Event :=
  submitTwo ++ succeedUntilCounted 1 2048 1700000001000
  ++ [Resume 1 (Settled 1700000001000)]
  ++ archiveWithSuccess 1 stagedA 1700000002000.

(** Then file B succeeds as well. *)
Definition secondFileCounted : list Event :=
  firstFileArchives ++ succeedUntilCounted 2 4096 1700000003000.

(** The completion check of file B, and the archiving it sets off. *)
Definition secondCheck : Event := Resume 2 (Settled 1700000003000).

Definition secondArchive : list Event :=
  archiveWithSuccess 2 stagedBoth 1700000004000.

(** [downloadBatch(1, [A, B])] is called and [cancelDownload(1)] is called
    after [k] of the three resumptions of the batch; then the rest of the
    batch runs and the promise of [cancelDownload] settles. *)
Definition cancelAfter (k : nat) : list Event :=
  Call_downloadBatch 1 [fileA; fileB]
  :: replicate k (Resume 0 (Settled 10))
  ++ Call_cancelDownload 1 20
  :: replicate (3 - k) (Resume 0 (Settled 30))
  ++ [Resume 1 (Settled 30)].

(** Job 1 has files A, B and C in flight, which fills the three slots;
    then job 2 is submitted for file A and waits in the queue. *)
Definition fillThenSubmit : list Event :=
  Call_downloadBatch 1 [fileA; fileB; fileC]
  :: replicate 4 (Resume 0 (Settled 10))
  ++ [Resume 1 (Clock 11 11); Resume 2 (Clock 11 11); Resume 3 (Clock 11 11)]
  ++ Call_downloadBatch 2 [fileA]
  :: replicate 2 (Resume 4 (Settled 20)).

(** Then the download of file A for job 1 fails. *)
Definition firstFails : list Event :=
  fillThenSubmit ++ [Resume 1 (Fetched None true)].

(** Job 1 has files A, B and C in flight, which fills the three slots. *)
Definition fillSlots : list Event :=
  Call_downloadBatch 1 [fileA; fileB; fileC]
  :: replicate 4 (Resume 0 (Settled 10))
  ++ [Resume 1 (Clock 11 11); Resume 2 (Clock 11 11); Resume 3 (Clock 11 11)].

(** Then job 2 is submitted with files D and E, which wait in the queue,
    and is cancelled while they wait. *)
Definition submitThenCancel : list Event :=
  fillSlots
  ++ Call_downloadBatch 2 [fileD; fileE]
  :: replicate 3 (Resume 4 (Settled 20))
  ++ [Call_cancelDownload 2 30; Resume 5 (Settled 30)].

(** Then the download of file A fails, which frees a slot and drains the
    queue. *)
Definition cancelWhileWaiting : list Event :=
  submitThenCancel ++ [Resume 1 (Fetched None true); Resume 1 (Settled 40)].

(** Both files of the job of one file are submitted, file A succeeds, its
    completion check fires and the call of [completeJob] reaches
    [fs.readdirSync]. *)
Definition untilListing : list Event :=
  submitTwo ++ succeedUntilCounted 1 2048 1700000001000
  ++ [Resume 1 (Settled 1700000001000);
      Resume 1 (Settled 1700000002000);
      Resume 1 (Settled 1700000002000)].

(** File A once its download has succeeded. *)
Definition fileA_completed : PdfFile :=
  mkPdfFile 1 "https://www.archives.gov/files/104-10001-10001.pdf"
    "104-10001-10001.pdf" (Some "2.0 KB") completed 100 0.



Definition jobAfterSecond : DownloadJob :=
  mkDownloadJob 1 "JFK Records 104-104" 1 2 (Some "4.9 KB") "completed" 0
    (Some 1700000002000).

(** What the outside answers while both staged files are in the temp
    directory and the zip library works. *)
Definition archivingWorks : Outside :=
  mkOutside 1700000004000 (Some true) true (Some 4096) (Some 4096)
    (inr stagedBoth) (inr 5000).




(** Four downloads in flight.  The call for file A succeeds up to the
    point where it has read the job, the calls for files B and C succeed
    and write the counter, and then the call for file A takes its next
    step although it was queued before them. *)
Definition staleWrite : list Event :=
  (submitFour ++ fetchFour
   ++ take 5 (succeedUntilCounted 1 2048 1700000001000)
   ++ succeedUntilCounted 2 2048 1700000002000
   ++ succeedUntilCounted 3 2048 1700000003000)%list.

(** * Properties *)

Open Scope list_scope.

(** ** The record store: frame properties *)

Lemma insert_by_id_perm {A} (x : Z * A) (l : list (Z * A)) :
  insert_by_id x l ≡ₚ x :: l.
Proof.
  induction l as [|y l IH]; simpl; [done|].
  destruct (x.1 <=? y.1); [done|]. rewrite IH. apply Permutation_swap.
Qed.

(** The records of a map in the order of their ids are the records of the
    map. *)
Lemma values_by_id_perm {A} (m : gmap Z A) :
  values_by_id m ≡ₚ (map_to_list m).*2.
Proof.
  unfold values_by_id. apply fmap_Permutation.
  induction (map_to_list m) as [|x l IH]; simpl; [done|].
  by rewrite insert_by_id_perm, IH.
Qed.

Lemma length_values_by_id {A} (m : gmap Z A) :
  length (values_by_id m) = size m.
Proof.
  by rewrite values_by_id_perm, length_fmap, length_map_to_list.
Qed.

Lemma elem_of_values_by_id {A} (m : gmap Z A) (x : A) :
  x ∈ values_by_id m ↔ ∃ id, m !! id = Some x.
Proof.
  rewrite values_by_id_perm, list_elem_of_fmap. split.
  - intros ([id y] & -> & Hin). exists id. by apply elem_of_map_to_list.
  - intros [id Hid]. exists (id, x). split; [done|].
    by apply elem_of_map_to_list.
Qed.

Lemma spread_Some {A} (old v : A) : spread old (Some v) = v.
Proof. reflexivity. Qed.

Lemma spread_None {A} (old : A) : spread old None = old.
Proof. reflexivity. Qed.

Lemma updatePdfFile_absent id data st :
  pdfFiles st !! id = None → updatePdfFile id data st = (None, st).
Proof. intros H. unfold updatePdfFile. by rewrite H. Qed.

Lemma updatePdfFile_present id data st file :
  pdfFiles st !! id = Some file →
  updatePdfFile id data st =
    (Some (spreadPdfFile file data),
     set_pdfFiles (<[id := spreadPdfFile file data]> (pdfFiles st)) st).
Proof. intros H. unfold updatePdfFile. by rewrite H. Qed.

Lemma updateDownloadJob_absent id data st :
  downloadJobs st !! id = None → updateDownloadJob id data st = (None, st).
Proof. intros H. unfold updateDownloadJob. by rewrite H. Qed.

Lemma updateDownloadJob_present id data st job :
  downloadJobs st !! id = Some job →
  updateDownloadJob id data st =
    (Some (spreadDownloadJob job data),
     set_downloadJobs (<[id := spreadDownloadJob job data]> (downloadJobs st))
       st).
Proof. intros H. unfold updateDownloadJob. by rewrite H. Qed.

Lemma updatePdfFile_jobs id data st :
  downloadJobs (updatePdfFile id data st).2 = downloadJobs st.
Proof. unfold updatePdfFile. by destruct (pdfFiles st !! id). Qed.

Lemma updatePdfFile_completed id data st :
  completedDownloads (updatePdfFile id data st).2 = completedDownloads st.
Proof. unfold updatePdfFile. by destruct (pdfFiles st !! id). Qed.

Lemma updatePdfFile_history id data st :
  historyEntries (updatePdfFile id data st).2 = historyEntries st.
Proof. unfold updatePdfFile. by destruct (pdfFiles st !! id). Qed.

Lemma updateDownloadJob_files id data st :
  pdfFiles (updateDownloadJob id data st).2 = pdfFiles st.
Proof. unfold updateDownloadJob. by destruct (downloadJobs st !! id). Qed.

Lemma updateDownloadJob_completed id data st :
  completedDownloads (updateDownloadJob id data st).2 = completedDownloads st.
Proof. unfold updateDownloadJob. by destruct (downloadJobs st !! id). Qed.

Lemma updateDownloadJob_history id data st :
  historyEntries (updateDownloadJob id data st).2 = historyEntries st.
Proof. unfold updateDownloadJob. by destruct (downloadJobs st !! id). Qed.

Lemma updateDownloadJob_historyCounter id data st :
  historyCounter (updateDownloadJob id data st).2 = historyCounter st.
Proof. unfold updateDownloadJob. by destruct (downloadJobs st !! id). Qed.

Lemma updateDownloadJob_completedCounter id data st :
  completedDownloadsCounter (updateDownloadJob id data st).2
  = completedDownloadsCounter st.
Proof. unfold updateDownloadJob. by destruct (downloadJobs st !! id). Qed.

Lemma updatePdfFile_historyCounter id data st :
  historyCounter (updatePdfFile id data st).2 = historyCounter st.
Proof. unfold updatePdfFile. by destruct (pdfFiles st !! id). Qed.

Lemma updatePdfFile_completedCounter id data st :
  completedDownloadsCounter (updatePdfFile id data st).2
  = completedDownloadsCounter st.
Proof. unfold updatePdfFile. by destruct (pdfFiles st !! id). Qed.

Lemma updateDownloadJob_lookup id data st id' :
  downloadJobs (updateDownloadJob id data st).2 !! id' =
    if decide (id = id')
    then (λ job, spreadDownloadJob job data) <$> downloadJobs st !! id'
    else downloadJobs st !! id'.
Proof.
  unfold updateDownloadJob.
  destruct (downloadJobs st !! id) as [job|] eqn:E; simpl.
  - rewrite lookup_insert. destruct (decide (id = id')) as [<-|]; [|done].
    by rewrite E.
  - destruct (decide (id = id')) as [<-|]; [|done]. by rewrite E.
Qed.

Lemma updatePdfFile_lookup id data st id' :
  pdfFiles (updatePdfFile id data st).2 !! id' =
    if decide (id = id')
    then (λ file, spreadPdfFile file data) <$> pdfFiles st !! id'
    else pdfFiles st !! id'.
Proof.
  unfold updatePdfFile.
  destruct (pdfFiles st !! id) as [file|] eqn:E; simpl.
  - rewrite lookup_insert. destruct (decide (id = id')) as [<-|]; [|done].
    by rewrite E.
  - destruct (decide (id = id')) as [<-|]; [|done]. by rewrite E.
Qed.

Lemma takes_spread {A} (given : option A) (old : A) :
  takes given old (spread old given).
Proof. by destruct given. Qed.

(** C10. Record-store updates of a file or a job: when the id is absent the
    result is undefined and the whole store is unchanged; when it is present
    the fields named in the partial update take the given values, every other
    field of the record keeps its value, and every other record, table and
    counter of the store is unchanged. *)
Theorem C10_update_frame (id : Z) (fdata : PartialPdfFile)
  (jdata : PartialDownloadJob) (st : MemStorage) :
  match pdfFiles st !! id with
  | None => updatePdfFile id fdata st = (None, st)
  | Some file =>
      ∃ file' st',
        updatePdfFile id fdata st = (Some file', st')
        ∧ pdfFiles st' !! id = Some file'
        ∧ takes (pp_id fdata) (pf_id file) (pf_id file')
        ∧ takes (pp_url fdata) (pf_url file) (pf_url file')
        ∧ takes (pp_filename fdata) (pf_filename file) (pf_filename file')
        ∧ takes (pp_size fdata) (pf_size file) (pf_size file')
        ∧ takes (pp_status fdata) (pf_status file) (pf_status file')
        ∧ takes (pp_progress fdata) (pf_progress file) (pf_progress file')
        ∧ takes (pp_createdAt fdata) (pf_createdAt file) (pf_createdAt file')
        ∧ (∀ id', id' ≠ id → pdfFiles st' !! id' = pdfFiles st !! id')
        ∧ downloadJobs st' = downloadJobs st
        ∧ completedDownloads st' = completedDownloads st
        ∧ historyEntries st' = historyEntries st
        ∧ pdfFilesCounter st' = pdfFilesCounter st
        ∧ downloadJobsCounter st' = downloadJobsCounter st
        ∧ completedDownloadsCounter st' = completedDownloadsCounter st
        ∧ historyCounter st' = historyCounter st
  end
  ∧
  match downloadJobs st !! id with
  | None => updateDownloadJob id jdata st = (None, st)
  | Some job =>
      ∃ job' st',
        updateDownloadJob id jdata st = (Some job', st')
        ∧ downloadJobs st' !! id = Some job'
        ∧ takes (pj_id jdata) (job_id job) (job_id job')
        ∧ takes (pj_name jdata) (job_name job) (job_name job')
        ∧ takes (pj_totalFiles jdata) (job_totalFiles job)
            (job_totalFiles job')
        ∧ takes (pj_downloadedFiles jdata) (job_downloadedFiles job)
            (job_downloadedFiles job')
        ∧ takes (pj_size jdata) (job_size job) (job_size job')
        ∧ takes (pj_status jdata) (job_status job) (job_status job')
        ∧ takes (pj_createdAt jdata) (job_createdAt job) (job_createdAt job')
        ∧ takes (pj_completedAt jdata) (job_completedAt job)
            (job_completedAt job')
        ∧ (∀ id', id' ≠ id →
             downloadJobs st' !! id' = downloadJobs st !! id')
        ∧ pdfFiles st' = pdfFiles st
        ∧ completedDownloads st' = completedDownloads st
        ∧ historyEntries st' = historyEntries st
        ∧ pdfFilesCounter st' = pdfFilesCounter st
        ∧ downloadJobsCounter st' = downloadJobsCounter st
        ∧ completedDownloadsCounter st' = completedDownloadsCounter st
        ∧ historyCounter st' = historyCounter st
  end.
Proof.
  split.
  - destruct (pdfFiles st !! id) as [file|] eqn:E.
    + eexists _, _. split; [by apply updatePdfFile_present|].
      simpl. split; [by rewrite lookup_insert_eq|].
      repeat (split; [apply takes_spread|]).
      split; [|done]. intros id' Hne. by rewrite lookup_insert_ne.
    + by apply updatePdfFile_absent.
  - destruct (downloadJobs st !! id) as [job|] eqn:E.
    + eexists _, _. split; [by apply updateDownloadJob_present|].
      simpl. split; [by rewrite lookup_insert_eq|].
      repeat (split; [apply takes_spread|]).
      split; [|done]. intros id' Hne. by rewrite lookup_insert_ne.
    + by apply updateDownloadJob_absent.
Qed.

(** ** [processQueue] *)

Lemma sameButFilesAndTasks_refl s : sameButFilesAndTasks s s.
Proof. by split. Qed.

Lemma sameButFilesAndTasks_trans s1 s2 s3 :
  sameButFilesAndTasks s1 s2 → sameButFilesAndTasks s2 s3 →
  sameButFilesAndTasks s1 s3.
Proof.
  intros H1 H2. split; (etransitivity; [apply H2|apply H1]).
Qed.

Lemma downloadFile_same jobId file s :
  sameButFilesAndTasks s (downloadFile jobId file s).
Proof.
  split; simpl; try done; unfold updatePdfFile;
    by destruct (pdfFiles (storage s) !! pf_id file).
Qed.

Lemma set_queue_same q s :
  sameButFilesAndTasks s (on_downloader (set_queue q) s).
Proof. by split. Qed.

Lemma hasFreeSlot_same s s' :
  sameButFilesAndTasks s s' → hasFreeSlot s' = hasFreeSlot s.
Proof.
  intros H. unfold hasFreeSlot.
  by rewrite (same_active _ _ H), (same_max _ _ H).
Qed.

Lemma notCancelled_same s s' item :
  sameButFilesAndTasks s s' → notCancelled s' item = notCancelled s item.
Proof.
  intros H. unfold notCancelled. by rewrite (same_cancelled _ _ H).
Qed.

Lemma processQueue_loop_same q s :
  sameButFilesAndTasks s (processQueue_loop q s).
Proof.
  revert s. induction q as [|[jobId file] q IH]; intros s; simpl.
  - apply sameButFilesAndTasks_refl.
  - case_bool_decide; [|apply sameButFilesAndTasks_refl].
    case_bool_decide.
    + eapply sameButFilesAndTasks_trans; [|apply IH]. apply set_queue_same.
    + eapply sameButFilesAndTasks_trans; [|apply IH].
      eapply sameButFilesAndTasks_trans; [|apply downloadFile_same].
      apply set_queue_same.
Qed.

Lemma processQueue_same s : sameButFilesAndTasks s (processQueue s).
Proof. apply processQueue_loop_same. Qed.

Lemma admittedFrom_same q s s' :
  sameButFilesAndTasks s s' → admittedFrom q s' = admittedFrom q s.
Proof.
  intros H. unfold admittedFrom. rewrite (hasFreeSlot_same _ _ H).
  destruct (hasFreeSlot s); [|done].
  apply filter_ext. intros item. by apply notCancelled_same.
Qed.

(** One iteration of the loop, with its tests named. *)
Lemma processQueue_loop_cons jobId file q s :
  processQueue_loop ((jobId, file) :: q) s =
    if hasFreeSlot s
    then if notCancelled s (jobId, file)
         then processQueue_loop q
                (downloadFile jobId file (on_downloader (set_queue q) s))
         else processQueue_loop q (on_downloader (set_queue q) s)
    else s.
Proof.
  simpl. unfold hasFreeSlot, notCancelled. simpl.
  destruct (bool_decide (Z.of_nat _ < _)); [|done].
  by destruct (bool_decide (jobId ∈ _)).
Qed.

Lemma admittedFrom_cons item q s :
  admittedFrom (item :: q) s =
    if hasFreeSlot s
    then if notCancelled s item then item :: admittedFrom q s
         else admittedFrom q s
    else [].
Proof. unfold admittedFrom. simpl. by destruct (hasFreeSlot s). Qed.

Lemma admittedFrom_nil s : admittedFrom [] s = [].
Proof. unfold admittedFrom. by destruct (hasFreeSlot s). Qed.

Lemma admittedFrom_dequeued q q' s :
  admittedFrom q (on_downloader (set_queue q') s) = admittedFrom q s.
Proof. apply admittedFrom_same, set_queue_same. Qed.

Lemma admittedFrom_downloadFile q q' jobId file s :
  admittedFrom q (downloadFile jobId file (on_downloader (set_queue q') s))
  = admittedFrom q s.
Proof.
  apply admittedFrom_same.
  eapply sameButFilesAndTasks_trans;
    [apply set_queue_same|apply downloadFile_same].
Qed.

(** The calls of [downloadFile] that one run of the loop makes. *)
Lemma processQueue_loop_started q s :
  started (processQueue_loop q s) = started s ++ admittedFrom q s.
Proof.
  revert s. induction q as [|[jobId file] q IH]; intros s.
  - by rewrite admittedFrom_nil, app_nil_r.
  - rewrite processQueue_loop_cons, admittedFrom_cons.
    destruct (hasFreeSlot s); [|by rewrite app_nil_r].
    destruct (notCancelled s (jobId, file)); rewrite IH.
    + rewrite admittedFrom_downloadFile. simpl. by rewrite <- app_assoc.
    + by rewrite admittedFrom_dequeued.
Qed.

Lemma processQueue_started s :
  started (processQueue s) = started s ++ admitted s.
Proof. apply processQueue_loop_started. Qed.

Lemma markDownloading_idemp file :
  markDownloading (markDownloading file) = markDownloading file.
Proof. by destruct file. Qed.

Lemma downloadFile_files jobId file s id :
  pdfFiles (storage (downloadFile jobId file s)) !! id =
    if decide (pf_id file = id)
    then markDownloading <$> pdfFiles (storage s) !! id
    else pdfFiles (storage s) !! id.
Proof. simpl. apply updatePdfFile_lookup. Qed.

Lemma processQueue_loop_files q s id :
  pdfFiles (storage (processQueue_loop q s)) !! id =
    if bool_decide (id ∈ (λ item : Z * PdfFile, pf_id item.2)
                          <$> admittedFrom q s)
    then markDownloading <$> pdfFiles (storage s) !! id
    else pdfFiles (storage s) !! id.
Proof.
  revert s. induction q as [|[jobId file] q IH]; intros s.
  - by rewrite admittedFrom_nil.
  - rewrite processQueue_loop_cons, admittedFrom_cons.
    destruct (hasFreeSlot s); [|done].
    destruct (notCancelled s (jobId, file)); rewrite IH.
    + rewrite admittedFrom_downloadFile, downloadFile_files. simpl.
      set (ids := (λ item : Z * PdfFile, pf_id item.2) <$> admittedFrom q s).
      destruct (decide (pf_id file = id)) as [<-|Hne].
      * rewrite (bool_decide_eq_true_2 (pf_id file ∈ pf_id file :: ids))
          by apply list_elem_of_here.
        case_bool_decide; [|done].
        destruct (pdfFiles (storage s) !! pf_id file); simpl; [|done].
        by rewrite markDownloading_idemp.
      * rewrite (bool_decide_ext (id ∈ pf_id file :: ids) (id ∈ ids));
          [done|].
        rewrite elem_of_cons.
        split; [intros [->|?]; done|by right].
    + by rewrite admittedFrom_dequeued.
Qed.



(** ** Steps and runs *)

Lemma run_cons s e events :
  run s (e :: events) =
    match step s e with Some s' => run s' events | None => None end.
Proof. reflexivity. Qed.


Lemma step_Resume s tid r k :
  tasks s !! tid = Some k →
  step s (Resume tid r) = resume tid k r (remove_task tid s).
Proof. intros H. simpl. by rewrite H. Qed.

(** ** Admission *)

(** C1. With capacity 3 and one batch of four files, all four files are in
    [downloading] at once: [processQueue] hands all four entries to
    [downloadFile] in one run of its loop, because [activeDownloads] is only
    written after the first [await] of [downloadFile] and so still has size 0
    at every test of the loop; the four calls then register four active
    downloads. *)
Theorem C1_four_downloading_with_capacity_three :
  maxConcurrentDownloads (downloader fourFiles) = 3
  ∧ downloadingCount <$> run fourFiles submitFour = Some 4%nat
  ∧ (λ s, started s) <$> run fourFiles submitFour
    = Some [(1, fileA); (1, fileB); (1, fileC); (1, fileD)]
  ∧ (λ s, size (activeDownloads (downloader s)))
      <$> run fourFiles (submitFour ++ fetchFour) = Some 4%nat
  ∧ (λ s, tasks s !! 4%nat) <$> run fourFiles (submitFour ++ fetchFour)
    = Some (Some (DF_fetch 1 fileD "/app/temp/11-104-10004-10004.pdf")).
Proof.
  repeat split; vm_compute; reflexivity.
Qed.

(** C8, as the specification states it, fails: the three slots are taken by
    files A, B and C of job 1, job 2 is submitted for file A and waits, and
    the download of A for job 1 fails.  The waiting entry of job 2 now
    refers to a file that is [failed], not [queued]; when the slot is freed
    [processQueue] dequeues it all the same, marks the file [downloading] and
    [downloadFile] goes on, with no failure of any kind. *)
Lemma C8_failed_file_is_dequeued_and_started :
  (λ s, (queue (downloader s), fileStatus 1 s, started s))
    <$> run threeFilesTwoJobs firstFails
  = Some ([(2, fileA)], Some failed, [(1, fileA); (1, fileB); (1, fileC)])
  ∧ (λ s, (queue (downloader s), fileStatus 1 s, started s, tasks s !! 5%nat))
      <$> run threeFilesTwoJobs (firstFails ++ [Resume 1 (Settled 40)])
    = Some ([], Some downloading,
            [(1, fileA); (1, fileB); (1, fileC); (2, fileA)],
            Some (DF_marked 2 fileA)).
Proof. split; vm_compute; reflexivity. Qed.

Lemma processQueue_loop_tasks q s tid :
  (tid < nextTask s)%nat →
  tasks (processQueue_loop q s) !! tid = tasks s !! tid.
Proof.
  revert s. induction q as [|[jobId file] q IH]; intros s Hlt; [done|].
  rewrite processQueue_loop_cons.
  destruct (hasFreeSlot s); [|done].
  destruct (notCancelled s (jobId, file)); rewrite IH; try done.
  - cbn [downloadFile spawn tasks nextTask storage_updatePdfFile on_storage
         record_started on_downloader].
    rewrite lookup_insert_ne; [done|lia].
  - cbn [downloadFile spawn nextTask storage_updatePdfFile on_storage
         record_started on_downloader]. lia.
Qed.

(** C8, amended.  Neither [processQueue] nor [downloadFile] looks at the
    status of a file.  When a slot is free and the job of the entry at the
    head of the queue is not cancelled, [processQueue] takes that entry and
    calls [downloadFile] for it, whatever the status of its file: the file,
    if the store holds it, is marked [downloading] with progress 0, the call
    is suspended at its first [await] and, resumed, goes on to its
    [fetch].  Nothing fails. *)
Theorem C8_dequeue_ignores_file_status (s : State) (jobId : Z)
  (file : PdfFile) (rest : list (Z * PdfFile)) :
  queue (downloader s) = (jobId, file) :: rest →
  hasFreeSlot s = true →
  jobId ∉ cancelledJobs (downloader s) →
  (∃ more, started (processQueue s) = started s ++ (jobId, file) :: more)
  ∧ pdfFiles (storage (processQueue s)) !! pf_id file
    = markDownloading <$> pdfFiles (storage s) !! pf_id file
  ∧ (∀ f, pf_status (markDownloading f) = downloading
          ∧ pf_progress (markDownloading f) = 0)
  ∧ tasks (processQueue s) !! nextTask s = Some (DF_marked jobId file)
  ∧ ∀ t1 t2, ∃ s',
      step (processQueue s) (Resume (nextTask s) (Clock t1 t2)) = Some s'
      ∧ tasks s' !! nextTask s
        = Some (DF_fetch jobId file
                  (path_join (tempDir s)
                     (pretty t1 ++ "-" ++ pf_filename file)%string))
      ∧ is_Some (activeDownloads (downloader s') !! pf_id file).
Proof.
  intros Hq Hslot Hlive.
  assert (Hadm : admitted s = (jobId, file) :: admittedFrom rest s).
  { unfold admitted. rewrite Hq, admittedFrom_cons, Hslot.
    unfold notCancelled. by rewrite bool_decide_eq_false_2. }
  assert (Htask : tasks (processQueue s) !! nextTask s
                  = Some (DF_marked jobId file)).
  { unfold processQueue. rewrite Hq, processQueue_loop_cons, Hslot.
    unfold notCancelled. rewrite bool_decide_eq_false_2 by done.
    cbn [negb]. rewrite processQueue_loop_tasks.
    - cbn [downloadFile spawn tasks storage_updatePdfFile on_storage
           record_started on_downloader nextTask].
      apply lookup_insert_eq.
    - cbn [downloadFile spawn nextTask storage_updatePdfFile on_storage
           record_started on_downloader]. lia. }
  split; [|split; [|split; [done|split; [done|]]]].
  - exists (admittedFrom rest s). by rewrite processQueue_started, Hadm.
  - unfold processQueue. rewrite processQueue_loop_files.
    rewrite bool_decide_eq_true_2; [done|].
    fold (admitted s). rewrite Hadm. apply list_elem_of_here.
  - intros t1 t2. eexists. rewrite (step_Resume _ _ _ _ Htask).
    cbn [resume]. split; [reflexivity|].
    unfold downloadFile_start.
    cbn [suspend tasks downloader on_downloader set_activeDownloads
         activeDownloads remove_task tempDir].
    rewrite lookup_insert_eq, lookup_insert_eq.
    rewrite (same_tempDir _ _ (processQueue_same s)). by split.
Qed.

(** C8 at work: the state of the counterexample in which [downloadFile]
    reaches its last statement, [this.processQueue()]; the file of the
    entry of job 2 is [failed] and is marked [downloading]. *)
Lemma C8_dequeue_ignores_file_status_witness :
  queue (downloader
           (activeDownloads_delete 1
              (remove_task 1 (stateAfter threeFilesTwoJobs firstFails))))
  = [(2, fileA)]
  ∧ fileStatus 1
      (activeDownloads_delete 1
         (remove_task 1 (stateAfter threeFilesTwoJobs firstFails)))
    = Some failed
  ∧ fileStatus 1
      (processQueue
         (activeDownloads_delete 1
            (remove_task 1 (stateAfter threeFilesTwoJobs firstFails))))
    = Some downloading.
Proof.
  set (s := activeDownloads_delete 1
              (remove_task 1 (stateAfter threeFilesTwoJobs firstFails))).
  assert (Hq : queue (downloader s) = [(2, fileA)])
    by (vm_compute; reflexivity).
  assert (Hfailed : fileStatus 1 s = Some failed)
    by (vm_compute; reflexivity).
  split; [exact Hq|]. split; [exact Hfailed|].
  assert (Hslot : hasFreeSlot s = true) by (vm_compute; reflexivity).
  assert (Hlive : 2 ∉ cancelledJobs (downloader s))
    by (intros Hin; vm_compute in Hin; discriminate).
  assert (Hheld : fileStatus 1 s = Some failed →
                  pf_status <$> (markDownloading <$> pdfFiles (storage s) !! 1)
                  = Some downloading).
  { unfold fileStatus. by destruct (pdfFiles (storage s) !! 1). }
  pose proof (proj1 (proj2 (C8_dequeue_ignores_file_status s 2 fileA [] Hq
                              Hslot Hlive))) as Hf.
  unfold fileStatus at 1.
  etransitivity; [exact (f_equal (fmap pf_status) Hf)|].
  exact (Hheld Hfailed).
Defined.

(** ** Submission *)

(** Lay the state operations open down to record constructors. *)
Ltac open_state :=
  unfold remove_task, spawn, suspend, storage_updateDownloadJob,
    storage_updatePdfFile, on_storage, on_downloader, set_queue,
    set_activeDownloads, set_cancelledJobs, queue_push, record_started,
    activeDownloads_delete;
  simpl.





(** ** Submission while other calls run *)


Lemma keepsTask_trans tid x y z :
  keepsTask tid x y → keepsTask tid y z → keepsTask tid x z.
Proof.
  intros [Hn1 Ht1] [Hn2 Ht2]. split; [lia|].
  intros Hlt. rewrite Ht2 by lia. by apply Ht1.
Qed.















(** ** The order of the queue *)













(** ** Failure of the archiving step *)

(** The [catch] block of [completeJob], entered by task [tid] with [error],
    and the step after it. *)
Lemma completeJob_catch_then_log tid jobId file error now now' s :
  let s1 := completeJob_catch tid jobId file error now (remove_task tid s) in
  let s2 := completeJob_logFailure tid jobId file error now'
              (remove_task tid s1) in
  step s1 (Resume tid (Settled now')) = Some s2
  ∧ downloadJobs (storage s1) !! jobId
    = failedAt now <$> downloadJobs (storage s) !! jobId
  ∧ downloadJobs (storage s2) = downloadJobs (storage s1)
  ∧ historyEntries (storage s2)
    = <[historyCounter (storage s)
        := failureEntry (historyCounter (storage s)) jobId error now']>
        (historyEntries (storage s))
  ∧ historyCounter (storage s2) = historyCounter (storage s) + 1
  ∧ completedDownloads (storage s2) = completedDownloads (storage s)
  ∧ pdfFiles (storage s2) = pdfFiles (storage s)
  ∧ downloader s2 = downloader s
  ∧ started s2 = started s
  ∧ tasks s2 !! tid = Some (CJ_logged jobId file)
  ∧ ∀ t3 t4,
      run s2 [Resume tid (Settled t3); Resume tid (Settled t4)]
      = Some (downloadFile_finish file (remove_task tid s2)).
Proof.
  intros s1 s2.
  assert (H1 : tasks s1 !! tid = Some (CJ_failed jobId file error))
    by (simpl; by rewrite lookup_insert_eq).
  assert (H2 : tasks s2 !! tid = Some (CJ_logged jobId file))
    by (simpl; by rewrite lookup_insert_eq).
  split; [by rewrite (step_Resume _ _ _ _ H1)|].
  split.
  { simpl. rewrite updateDownloadJob_lookup, decide_True by done. done. }
  split; [done|].
  split.
  { simpl.
    by rewrite updateDownloadJob_history, updateDownloadJob_historyCounter. }
  split; [simpl; by rewrite updateDownloadJob_historyCounter|].
  split; [simpl; by rewrite updateDownloadJob_completed|].
  split; [simpl; by rewrite updateDownloadJob_files|].
  split; [done|]. split; [done|]. split; [done|].
  intros t3 t4. rewrite run_cons, (step_Resume _ _ _ _ H2). cbn [resume].
  rewrite run_cons.
  rewrite (step_Resume _ _ (Settled t4) (DF_joined jobId file))
    by (simpl; by rewrite lookup_insert_eq).
  cbn [resume run]. do 2 f_equal. open_state.
  by rewrite !delete_insert_eq, !delete_delete_eq.
Qed.

(** C7. Whenever the archiving step fails, because no staged artifact
    resolves or because archive creation throws, the next two steps of the
    call set the status of the job to "failed" with [completedAt] the time
    of the failure, and append one history entry, "Download failed", that
    names the job and the error.  No archive record is written, the queue is
    left as it is, and the call then returns to [downloadFile], which ends:
    nothing is tried again. *)
Theorem C7_archiving_failure (s : State) (tid : nat) (jobId : Z)
  (file : PdfFile) (now now' : Z) (r : Response) (error : option string) :
  archivingFails s tid jobId file now r error →
  ∃ s1 s2,
    step s (Resume tid r) = Some s1
    ∧ step s1 (Resume tid (Settled now')) = Some s2
    ∧ downloadJobs (storage s1) !! jobId
      = failedAt now <$> downloadJobs (storage s) !! jobId
    ∧ (∀ job, job_status (failedAt now job) = "failed"
              ∧ job_completedAt (failedAt now job) = Some now)
    ∧ downloadJobs (storage s2) = downloadJobs (storage s1)
    ∧ historyEntries (storage s2)
      = <[historyCounter (storage s)
          := failureEntry (historyCounter (storage s)) jobId error now']>
          (historyEntries (storage s))
    ∧ historyCounter (storage s2) = historyCounter (storage s) + 1
    ∧ completedDownloads (storage s2) = completedDownloads (storage s)
    ∧ pdfFiles (storage s2) = pdfFiles (storage s)
    ∧ downloader s2 = downloader s
    ∧ started s2 = started s
    ∧ tasks s2 !! tid = Some (CJ_logged jobId file)
    ∧ ∀ t3 t4,
        run s2 [Resume tid (Settled t3); Resume tid (Settled t4)]
        = Some (downloadFile_finish file (remove_task tid s2)).
Proof.
  intros Hfails.
  pose proof (completeJob_catch_then_log tid jobId file error now now' s)
    as (Hstep & Hjob & Hjobs & Hhist & Hcount & Hcd & Hfiles & Hd & Hst
        & Htask & Hend).
  eexists _, _. split; [|split; [exact Hstep|]].
  - destruct Hfails as [job allFiles listing Htid Hempty
                       |job tempFiles zipFileName zipFilePath error Htid];
      rewrite (step_Resume _ _ _ _ Htid); cbn [resume]; [|done].
    unfold completeJob_collect.
    change (tempDir (remove_task tid s)) with (tempDir s).
    by rewrite Hempty.
  - by repeat (split; [assumption || done|]).
Qed.

(** C7 at work: both files of the job of one file are submitted, file A
    succeeds and the temp directory turns out to be empty. *)
Lemma C7_archiving_failure_witness :
  archivingFails (stateAfter twoFilesJobOfOne untilListing) 1 1 fileA
    1700000003000 (Listed (inr []) 1700000003000)
    (Some "No files found to include in zip")
  ∧ jobStatus 1
      (stateAfter twoFilesJobOfOne
         (untilListing ++ [Resume 1 (Listed (inr []) 1700000003000);
                           Resume 1 (Settled 1700000003000)]))
    = Some "failed".
Proof.
  assert (H : archivingFails (stateAfter twoFilesJobOfOne untilListing) 1 1
                fileA 1700000003000 (Listed (inr []) 1700000003000)
                (Some "No files found to include in zip")).
  { assert (∃ job allFiles,
              tasks (stateAfter twoFilesJobOfOne untilListing) !! 1%nat
              = Some (CJ_files 1 fileA job allFiles)
              ∧ completedFilesOf job allFiles = [fileA_completed])
      as (job & allFiles & Htid & Hfiles)
      by (eexists _, _; split; [vm_compute; reflexivity|];
          vm_compute; reflexivity).
    eapply fails_without_artifacts; [exact Htid|by rewrite Hfiles]. }
  split; [exact H|].
  destruct (C7_archiving_failure _ _ _ _ _ 1700000003000 _ _ H)
    as (s1 & s2 & _).
  vm_compute. reflexivity.
Defined.

(** ** Cancellation *)

Lemma admittedFrom_not_cancelled q s :
  Forall (λ item : Z * PdfFile, item.1 ∉ cancelledJobs (downloader s))
    (admittedFrom q s).
Proof.
  unfold admittedFrom. destruct (hasFreeSlot s); [|constructor].
  induction q as [|item q IH]; simpl; [constructor|].
  unfold notCancelled at 1. case_bool_decide; simpl; [done|].
  by constructor.
Qed.

Lemma startsOnlyLive_quiet s s' :
  cancelledJobs (downloader s') = cancelledJobs (downloader s) →
  started s' = started s →
  startsOnlyLive s s'.
Proof.
  intros Hc Hs. split; [by rewrite Hc|].
  exists []. by rewrite Hs, app_nil_r.
Qed.

Lemma startsOnlyLive_processQueue s x :
  cancelledJobs (downloader x) = cancelledJobs (downloader s) →
  started x = started s →
  startsOnlyLive s (processQueue x).
Proof.
  intros Hc Hs. split.
  - by rewrite (same_cancelled _ _ (processQueue_same x)), Hc.
  - exists (admitted x). rewrite processQueue_started, Hs. split; [done|].
    rewrite <- Hc. apply admittedFrom_not_cancelled.
Qed.

Lemma resume_startsOnlyLive tid k r s s' :
  resume tid k r (remove_task tid s) = Some s' → startsOnlyLive s s'.
Proof.
  intros H.
  destruct k, r; simpl in H; try discriminate; injection H as <-;
    try (by apply startsOnlyLive_quiet).
  - destruct files; simpl;
      [by apply startsOnlyLive_processQueue|by apply startsOnlyLive_quiet].
  - destruct rest; simpl;
      [by apply startsOnlyLive_processQueue|by apply startsOnlyLive_quiet].
  - unfold downloadFile_fetched.
    destruct response as [[]|]; try (by apply startsOnlyLive_quiet).
    case_bool_decide; [|by apply startsOnlyLive_quiet].
    destruct unlinked; by apply startsOnlyLive_quiet.
  - destruct buffer; by apply startsOnlyLive_quiet.
  - unfold downloadFile_stat. destruct stats; [|by apply startsOnlyLive_quiet].
    case_bool_decide; by apply startsOnlyLive_quiet.
  - destruct job; simpl;
      [by apply startsOnlyLive_quiet|by apply startsOnlyLive_processQueue].
  - unfold downloadFile_check. case_bool_decide;
      [by apply startsOnlyLive_quiet|by apply startsOnlyLive_processQueue].
  - by apply startsOnlyLive_processQueue.
  - by apply startsOnlyLive_processQueue.
  - destruct job; by apply startsOnlyLive_quiet.
  - unfold completeJob_collect. destruct listing;
      [by apply startsOnlyLive_quiet|].
    case_bool_decide; by apply startsOnlyLive_quiet.
  - destruct result; by apply startsOnlyLive_quiet.
Qed.

Lemma step_startsOnlyLive s e s' : step s e = Some s' → startsOnlyLive s s'.
Proof.
  destruct e as [jobId files|jobId now|tid r]; simpl.
  - intros [= <-]. by apply startsOnlyLive_quiet.
  - intros [= <-]. split; [simpl; set_solver|].
    exists []. by rewrite app_nil_r.
  - destruct (tasks s !! tid) as [k|]; [|done]. apply resume_startsOnlyLive.
Qed.

Lemma startedFor_app jobId s s' new :
  started s' = started s ++ new →
  Forall (λ item : Z * PdfFile, item.1 ≠ jobId) new →
  startedFor jobId s' = startedFor jobId s.
Proof.
  intros Hs Hnew. unfold startedFor. rewrite Hs, List.filter_app.
  rewrite <- (app_nil_r (List.filter _ (started s))) at 2. f_equal.
  clear Hs. induction Hnew as [|item new Hitem _ IH]; [done|].
  simpl. by rewrite bool_decide_eq_false_2.
Qed.

(** Once a job is cancelled it stays cancelled, and [downloadFile] is never
    called for it again, whatever happens. *)
Lemma run_cancelled jobId events s s' :
  jobId ∈ cancelledJobs (downloader s) →
  run s events = Some s' →
  jobId ∈ cancelledJobs (downloader s')
  ∧ startedFor jobId s' = startedFor jobId s.
Proof.
  revert s. induction events as [|e events IH]; intros s Hin Hrun.
  - by injection Hrun as <-.
  - rewrite run_cons in Hrun.
    destruct (step s e) as [s1|] eqn:Hstep; [|done].
    destruct (step_startsOnlyLive _ _ _ Hstep) as (Hsub & new & Hs & Hnew).
    destruct (IH s1 (Hsub _ Hin) Hrun) as [Hin' Hfor].
    split; [done|]. rewrite Hfor.
    apply (startedFor_app _ _ _ new Hs).
    eapply Forall_impl; [exact Hnew|].
    intros item Hitem Heq. apply Hitem. by rewrite Heq.
Qed.

(** C5, as the specification states it, fails in its scenario.  The three
    slots are taken by job 1; job 2 is submitted with files D and E, which
    wait in the queue, and is cancelled before any of them is dequeued; then
    a slot is freed.  The job ends "cancelled", nothing was dequeued for it
    and no archive record exists, but both files are left [queued], not
    [ready]: [cancelDownload] does not touch the file records. *)
Lemma C5_cancelled_files_stay_queued :
  (λ s, (jobStatus 2 s, fileStatus 4 s, fileStatus 5 s, startedFor 2 s,
         queue (downloader s), size (completedDownloads (storage s))))
    <$> run fiveFilesTwoJobs cancelWhileWaiting
  = Some (Some "cancelled", Some queued, Some queued, [], [], 0%nat).
Proof. vm_compute. reflexivity. Qed.

(** C5, amended.  [cancelDownload(jobId)] removes every entry of the job
    from the queue and marks the job cancelled with a completion time; from
    then on, whatever is submitted, resumed or cancelled, the job stays in
    the set of cancelled jobs and [downloadFile] is never called for it, so
    none of its files goes to [downloading] on its account.  In the
    scenario of a job of two files cancelled before any dequeue (right after
    the call of [downloadBatch], after one or after two of its
    resumptions, or while both entries wait for a slot), the job ends
    "cancelled", no archive record is created and both files end [queued],
    the status [downloadBatch] gives them. *)
Theorem C5_cancel_stops_dequeues (s : State) (jobId now : Z)
  (events : list Event) (s' : State) :
  run (cancelDownload jobId now s) events = Some s' →
  queue (downloader (cancelDownload jobId now s))
  = filter (λ item, item.1 ≠ jobId) (queue (downloader s))
  ∧ (∀ item, item ∈ queue (downloader (cancelDownload jobId now s)) →
       item.1 ≠ jobId)
  ∧ downloadJobs (storage (cancelDownload jobId now s)) !! jobId
    = (λ job, spreadDownloadJob job (withJobStatusAt "cancelled" now))
        <$> downloadJobs (storage s) !! jobId
  ∧ pdfFiles (storage (cancelDownload jobId now s)) = pdfFiles (storage s)
  ∧ jobId ∈ cancelledJobs (downloader s')
  ∧ startedFor jobId s' = startedFor jobId s
  ∧ Forall
      (λ k, (λ s, (jobStatus 1 s, fileStatus 1 s, fileStatus 2 s,
                   started s, queue (downloader s),
                   size (completedDownloads (storage s))))
              <$> run twoFilesJobOfTwo (cancelAfter k)
            = Some (Some "cancelled", Some queued, Some queued, [], [],
                    0%nat))
      [0; 1; 2]%nat
  ∧ (λ s, (jobStatus 2 s, fileStatus 4 s, fileStatus 5 s, startedFor 2 s,
           queue (downloader s), size (completedDownloads (storage s))))
      <$> run fiveFilesTwoJobs cancelWhileWaiting
    = Some (Some "cancelled", Some queued, Some queued, [], [], 0%nat).
Proof.
  intros Hrun.
  split; [done|]. split.
  { intros item Hin. simpl in Hin. by apply list_elem_of_filter in Hin as []. }
  split.
  { simpl. rewrite updateDownloadJob_lookup, decide_True by done. done. }
  split; [simpl; by rewrite updateDownloadJob_files|].
  assert (Hin : jobId ∈ cancelledJobs (downloader (cancelDownload jobId now s)))
    by (simpl; set_solver).
  destruct (run_cancelled _ _ _ _ Hin Hrun) as [Hin' Hfor].
  split; [done|]. split; [done|].
  split; [|vm_compute; reflexivity].
  repeat constructor; vm_compute; reflexivity.
Qed.

(** C5 at work: job 2 is cancelled while its two entries wait, and a slot
    is freed afterwards. *)
Lemma C5_cancel_stops_dequeues_witness :
  startedFor 2
    (stateAfter
       (cancelDownload 2 30
          (stateAfter fiveFilesTwoJobs
             (fillSlots ++ Call_downloadBatch 2 [fileD; fileE]
                           :: replicate 3 (Resume 4 (Settled 20)))))
       [Resume 5 (Settled 30); Resume 1 (Fetched None true);
        Resume 1 (Settled 40)])
  = [].
Proof.
  set (s := stateAfter fiveFilesTwoJobs
              (fillSlots ++ Call_downloadBatch 2 [fileD; fileE]
                            :: replicate 3 (Resume 4 (Settled 20)))).
  set (events := [Resume 5 (Settled 30); Resume 1 (Fetched None true);
                  Resume 1 (Settled 40)]).
  assert (Hrun : run (cancelDownload 2 30 s) events
                 = Some (stateAfter (cancelDownload 2 30 s) events))
    by (vm_compute; reflexivity).
  destruct (C5_cancel_stops_dequeues s 2 30 events _ Hrun)
    as (_ & _ & _ & _ & _ & Hfor & _).
  rewrite Hfor. vm_compute. reflexivity.
Defined.

(** ** The counter of downloaded files *)











(** ** The microtask queue *)




















Lemma fresh_immediate k : fresh k = true → immediate k = true.
Proof. by destruct k. Qed.











(** Why the order of the microtask queue is part of the statement.  [run]
    lets any suspended call take the next step.  In [staleWrite] the call
    for file A has read the counter 0, the calls for files B and C have
    taken it to 2, and the step of the call for file A then writes 1.  The
    event loop makes no such run: the continuation of the call for file A
    was queued first, and [run_fifo] refuses the step that overtakes it. *)
Lemma write_out_of_turn :
  jobDownloaded 1 <$> run fourFiles staleWrite = Some (Some 2)
  ∧ jobDownloaded 1
      <$> run fourFiles (staleWrite ++ [Resume 1 (Settled 1700000004000)])
    = Some (Some 1)
  ∧ run_fifo [] fourFiles staleWrite = None.
Proof. repeat split; vm_compute; reflexivity. Qed.

(** ** The completion check *)




(** ** Repeated completion *)

Lemma run_alone_cons o os tid s k :
  tasks s !! tid = Some k →
  run_alone (o :: os) tid s =
    match resume tid k (respond o k) (remove_task tid s) with
    | Some s' => run_alone os tid s'
    | None => None
    end.
Proof. intros H. simpl. by rewrite H. Qed.

Ltac alone_step :=
  erewrite run_alone_cons by (simpl; apply lookup_insert_eq);
  cbn [resume respond].

(** The [catch] block of [completeJob] and the step after it, from [x]. *)
Lemma completeJob_fails_from s tid jobId file error now now' x :
  archivingFrom s jobId x →
  archivedAgain s tid jobId file
    (completeJob_logFailure tid jobId file error now'
       (remove_task tid (completeJob_catch tid jobId file error now x))).
Proof.
  intros ([j Hj] & Hh & Hhc & Hc & Hcc).
  split; [simpl; by rewrite lookup_insert_eq|].
  split; [simpl; by rewrite updateDownloadJob_historyCounter, Hhc|].
  split.
  { eexists. simpl.
    by rewrite updateDownloadJob_history, updateDownloadJob_historyCounter,
      Hh, Hhc. }
  right. split; [|simpl; by rewrite updateDownloadJob_completed].
  unfold jobStatus. simpl.
  rewrite updateDownloadJob_lookup, decide_True by done. by rewrite Hj.
Qed.

(** The three steps of [completeJob] after [zipper.createZip] returned. *)
Lemma completeJob_succeeds_from s tid jobId file job tempFiles zipFileName
  zipFilePath zipSizeInBytes now now' now'' x :
  archivingFrom s jobId x →
  archivedAgain s tid jobId file
    (completeJob_log tid jobId file job tempFiles now''
       (remove_task tid
          (completeJob_record tid jobId file job tempFiles zipFileName
             zipFilePath (formatSize zipSizeInBytes) now'
             (remove_task tid
                (completeJob_zipped tid jobId file job tempFiles zipFileName
                   zipFilePath (inr zipSizeInBytes) now x))))).
Proof.
  intros ([j Hj] & Hh & Hhc & Hc & Hcc).
  split; [simpl; by rewrite lookup_insert_eq|].
  split; [simpl; by rewrite updateDownloadJob_historyCounter, Hhc|].
  split.
  { eexists. simpl.
    by rewrite updateDownloadJob_history, updateDownloadJob_historyCounter,
      Hh, Hhc. }
  left. split.
  { unfold jobStatus. simpl.
    rewrite updateDownloadJob_lookup, decide_True by done. by rewrite Hj. }
  split; [simpl; by rewrite updateDownloadJob_completedCounter, Hcc|].
  eexists. simpl.
  by rewrite updateDownloadJob_completed, updateDownloadJob_completedCounter,
    Hc, Hcc.
Qed.

Lemma run_alone_app os1 os2 tid s :
  run_alone (os1 ++ os2) tid s =
    match run_alone os1 tid s with
    | Some s1 => run_alone os2 tid s1
    | None => None
    end.
Proof.
  revert s. induction os1 as [|o os1 IH]; intros s; [done|].
  simpl. destruct (tasks s !! tid) as [k|]; [|done].
  destruct (resume tid k (respond o k) (remove_task tid s)); [|done].
  apply IH.
Qed.

(** C3, amended.  [completeJob] has no guard on the status of the job.
    Called for a job that the store holds, whatever its status (so also
    "creating zip" or "completed"), its first step sets the status to
    "creating zip", and it then goes through the archiving again: within six
    steps it has appended one more history entry and either written one more
    archive record and set the status to "completed", or set the status to
    "failed". *)
Theorem C3_completeJob_repeats (s : State) (tid : nat) (jobId : Z)
  (file : PdfFile) (job : DownloadJob) (o1 o2 o3 o4 o5 o6 : Outside) :
  downloadJobs (storage s) !! jobId = Some job →
  (∃ s1, run_alone [o1] tid (completeJob tid jobId file s) = Some s1
         ∧ jobStatus jobId s1 = Some "creating zip"
         ∧ tasks s1 !! tid = Some (CJ_zipping jobId file job))
  ∧ ∃ n s',
      (n ≤ 6)%nat
      ∧ run_alone (take n [o1; o2; o3; o4; o5; o6]) tid
          (completeJob tid jobId file s) = Some s'
      ∧ archivedAgain s tid jobId file s'.
Proof.
  intros Hjob.
  assert (H0 : completeJob tid jobId file s
               = suspend tid (CJ_job jobId file (Some job)) s).
  { unfold completeJob, getDownloadJob. by rewrite Hjob. }
  rewrite H0. clear H0.
  split.
  { eexists. split; [alone_step; cbn [completeJob_begin run_alone]; reflexivity|].
    split; [|simpl; by rewrite lookup_insert_eq].
    unfold jobStatus. simpl.
    rewrite updateDownloadJob_lookup, decide_True by done. by rewrite Hjob. }
  set (x := remove_task tid
              (completeJob_getFiles tid jobId file job
                 (remove_task tid
                    (suspend tid (CJ_zipping jobId file job)
                       (storage_updateDownloadJob jobId
                          (withJobStatus "creating zip")
                          (remove_task tid
                             (suspend tid (CJ_job jobId file (Some job))
                                s))))))).
  assert (Hx : archivingFrom s jobId x).
  { split.
    { simpl. rewrite updateDownloadJob_lookup, decide_True by done.
      by rewrite Hjob. }
    split; [simpl; apply updateDownloadJob_history|].
    split; [simpl; apply updateDownloadJob_historyCounter|].
    split; [simpl; apply updateDownloadJob_completed|].
    simpl; apply updateDownloadJob_completedCounter. }
  destruct (o_listing o3) as [error|listing] eqn:Hl.
  { exists 4%nat. eexists. split; [lia|]. split.
    - cbn [take]. do 3 alone_step. rewrite Hl.
      cbn [completeJob_begin completeJob_getFiles completeJob_collect].
      alone_step. reflexivity.
    - by apply completeJob_fails_from. }
  assert (Hcollect :
            run_alone [o1; o2; o3] tid
              (suspend tid (CJ_job jobId file (Some job)) s)
            = Some (match resolveTempFiles (tempDir s) listing
                            (completedFilesOf job (getPdfFiles (storage x)))
                    with
                    | [] => completeJob_catch tid jobId file
                              (Some "No files found to include in zip")
                              (o_now o3) x
                    | tempFiles =>
                        suspend tid
                          (CJ_zip jobId file job tempFiles (zipFileNameOf job)
                             (path_join (downloadsDir s) (zipFileNameOf job)))
                          x
                    end)).
  { do 3 alone_step. rewrite Hl.
    cbn [completeJob_begin completeJob_getFiles run_alone].
    unfold completeJob_collect. fold x.
    change (tempDir x) with (tempDir s).
    change (downloadsDir x) with (downloadsDir s).
    change (getPdfFiles _) with (getPdfFiles (storage x)).
    by destruct (resolveTempFiles _ _ _). }
  destruct (resolveTempFiles (tempDir s) listing
              (completedFilesOf job (getPdfFiles (storage x))))
    as [|tempFile tempFiles].
  { exists 4%nat. eexists. split; [lia|]. split.
    - change (take 4 [o1; o2; o3; o4; o5; o6]) with ([o1; o2; o3] ++ [o4]).
      rewrite run_alone_app, Hcollect. alone_step. reflexivity.
    - by apply completeJob_fails_from. }
  destruct (o_zip o4) as [error|zipSizeInBytes] eqn:Hz.
  { exists 5%nat. eexists. split; [lia|]. split.
    - change (take 5 [o1; o2; o3; o4; o5; o6]) with ([o1; o2; o3] ++ [o4; o5]).
      rewrite run_alone_app, Hcollect. alone_step. rewrite Hz.
      cbn [completeJob_zipped]. alone_step. reflexivity.
    - by apply completeJob_fails_from. }
  exists 6%nat. eexists. split; [lia|]. split.
  - change (take 6 [o1; o2; o3; o4; o5; o6])
      with ([o1; o2; o3] ++ [o4; o5; o6]).
    rewrite run_alone_app, Hcollect. alone_step. rewrite Hz.
    do 2 alone_step. reflexivity.
  - by apply completeJob_succeeds_from.
Qed.

(** C3, as the specification states it, fails.  Both files of the job of
    one file are submitted; the success of file A archives the job, which
    is then "completed" with one archive record and one history entry; the
    success of file B calls [completeJob] a second time.  That call sets
    the status back to "creating zip", archives again and leaves a second
    archive record and a second history entry. *)
Lemma C3_second_call_archives_again :
  (λ s, (jobStatus 1 s, size (completedDownloads (storage s)),
         size (historyEntries (storage s)), tasks s !! 2%nat))
    <$> run twoFilesJobOfOne (secondFileCounted ++ [secondCheck])
  = Some (Some "completed", 1%nat, 1%nat,
          Some (CJ_job 1 fileB (Some jobAfterSecond)))
  ∧ jobStatus 1
      <$> run twoFilesJobOfOne
            (secondFileCounted
             ++ [secondCheck; Resume 2 (Settled 1700000004000)])
    = Some (Some "creating zip")
  ∧ (λ s, (jobStatus 1 s, size (completedDownloads (storage s)),
           size (historyEntries (storage s)), tasks s !! 2%nat))
      <$> run twoFilesJobOfOne
            (secondFileCounted ++ secondCheck :: secondArchive)
    = Some (Some "completed", 2%nat, 2%nat, None).
Proof. repeat split; vm_compute; reflexivity. Qed.

(** C3 at work: [completeJob] is called for the job of one file when it is
    already "completed". *)
Lemma C3_completeJob_repeats_witness :
  jobStatus 1 (stateAfter twoFilesJobOfOne secondFileCounted)
  = Some "completed"
  ∧ ∃ s1,
      run_alone [archivingWorks] 2
        (completeJob 2 1 fileB
           (stateAfter twoFilesJobOfOne secondFileCounted)) = Some s1
      ∧ jobStatus 1 s1 = Some "creating zip"
      ∧ tasks s1 !! 2%nat = Some (CJ_zipping 1 fileB jobAfterSecond).
Proof.
  assert (Hjob : downloadJobs
                   (storage (stateAfter twoFilesJobOfOne secondFileCounted))
                 !! 1 = Some jobAfterSecond)
    by (vm_compute; reflexivity).
  split; [vm_compute; reflexivity|].
  exact (proj1 (C3_completeJob_repeats _ 2 1 fileB _ archivingWorks
                  archivingWorks archivingWorks archivingWorks archivingWorks
                  archivingWorks Hjob)).
Defined.

(** ** Throughput *)


Lemma append_String a s t :
  (String a s ++ t)%string = String a (s ++ t)%string.
Proof. reflexivity. Qed.

Lemma append_empty t : ("" ++ t)%string = t.
Proof. reflexivity. Qed.








Lemma includes_append_r s t needle :
  includes t needle = true → includes (s ++ t)%string needle = true.
Proof.
  intros Ht. induction s as [|c s IH]; [done|].
  rewrite append_String. cbn [includes]. rewrite IH. apply orb_true_r.
Qed.



(** ** The record store: identifiers *)

Lemma below_insert {A} (m : gmap Z A) counter (x : A) :
  below m counter → below (<[counter := x]> m) (counter + 1).
Proof.
  intros Hm id. destruct (decide (counter = id)) as [<-|Hne]; [lia|].
  rewrite lookup_insert_ne by done. intros H. specialize (Hm id H). lia.
Qed.

Lemma below_update {A} (m : gmap Z A) counter id (x : A) :
  is_Some (m !! id) → below m counter → below (<[id := x]> m) counter.
Proof.
  intros Hid Hm id'. destruct (decide (id = id')) as [<-|Hne]; [auto|].
  rewrite lookup_insert_ne by done. apply Hm.
Qed.

Lemma below_delete {A} (m : gmap Z A) counter id :
  below m counter → below (delete id m) counter.
Proof.
  intros Hm id' H. apply lookup_delete_is_Some in H as [_ H]. by apply Hm.
Qed.

Lemma below_empty {A} counter : below (∅ : gmap Z A) counter.
Proof. intros id H. rewrite lookup_empty in H. by destruct H. Qed.

Lemma below_fresh {A} (m : gmap Z A) counter :
  below m counter → m !! counter = None.
Proof.
  intros Hm. destruct (m !! counter) eqn:E; [|done].
  assert (counter < counter) by (apply Hm; by rewrite E). lia.
Qed.

Lemma countersAhead_afterCall st c :
  countersAhead st → countersAhead (afterCall st c).
Proof.
  intros [Hf Hj Hc Hh].
  destruct c; simpl; unfold updatePdfFile, updateDownloadJob.
  - split; simpl; auto using below_insert.
  - destruct (pdfFiles st !! id) eqn:E; split; simpl; auto.
    apply below_update; auto.
  - split; simpl; auto using below_delete.
  - split; simpl; auto using below_insert.
  - destruct (downloadJobs st !! id) eqn:E; split; simpl; auto.
    apply below_update; auto.
  - split; simpl; auto using below_delete.
  - split; simpl; auto using below_insert.
  - split; simpl; auto using below_delete.
  - split; simpl; auto using below_insert.
  - split; simpl; auto using below_empty.
Qed.

Lemma countersAhead_afterCalls st cs :
  countersAhead st → countersAhead (afterCalls st cs).
Proof.
  revert st. induction cs as [|c cs IH]; intros st H; [done|].
  apply IH. by apply countersAhead_afterCall.
Qed.

Lemma countersAhead_empty : countersAhead emptyStorage.
Proof. split; apply below_empty. Qed.

Lemma counters_afterCall st c :
  pdfFilesCounter st <= pdfFilesCounter (afterCall st c)
  ∧ downloadJobsCounter st <= downloadJobsCounter (afterCall st c)
  ∧ completedDownloadsCounter st <= completedDownloadsCounter (afterCall st c)
  ∧ historyCounter st <= historyCounter (afterCall st c).
Proof.
  destruct c; simpl; unfold updatePdfFile, updateDownloadJob;
    try (destruct (pdfFiles st !! id));
    try (destruct (downloadJobs st !! id));
    simpl; lia.
Qed.

Lemma counters_afterCalls st cs :
  pdfFilesCounter st <= pdfFilesCounter (afterCalls st cs)
  ∧ downloadJobsCounter st <= downloadJobsCounter (afterCalls st cs)
  ∧ completedDownloadsCounter st
    <= completedDownloadsCounter (afterCalls st cs)
  ∧ historyCounter st <= historyCounter (afterCalls st cs).
Proof.
  revert st. induction cs as [|c cs IH]; intros st; [simpl; lia|].
  specialize (IH (afterCall st c)).
  pose proof (counters_afterCall st c).
  change (afterCalls st (c :: cs)) with (afterCalls (afterCall st c) cs). lia.
Qed.

(** X1. In a store whose counters are ahead of its keys, as they are in
    every store built from the empty one by the methods of the class, a
    [create] method stores the new record under an id that no record holds:
    the new record is the one [get] returns for that id, every other id
    keeps its record, the counters stay ahead, and deleting the new id
    reports [true] and gives back the table as it was. *)
Theorem create_never_overwrites (st : MemStorage) (url filename : string)
  (size : option string) (status : PdfStatus) (name : string) (totalFiles : Z)
  (jobStatus : string) (zipName contents zipSize path action details : string)
  (filesCount now : Z) :
  countersAhead st →
  (let '(file, st') := createPdfFile url filename size status now st in
   getPdfFile (pf_id file) st = None
   ∧ getPdfFile (pf_id file) st' = Some file
   ∧ (∀ id, id ≠ pf_id file → getPdfFile id st' = getPdfFile id st)
   ∧ countersAhead st'
   ∧ (deletePdfFile (pf_id file) st').1 = true
   ∧ pdfFiles (deletePdfFile (pf_id file) st').2 = pdfFiles st)
  ∧ (let '(job, st') :=
       createDownloadJob name totalFiles size jobStatus now st in
     getDownloadJob (job_id job) st = None
     ∧ getDownloadJob (job_id job) st' = Some job
     ∧ (∀ id, id ≠ job_id job → getDownloadJob id st' = getDownloadJob id st)
     ∧ countersAhead st'
     ∧ (deleteDownloadJob (job_id job) st').1 = true
     ∧ downloadJobs (deleteDownloadJob (job_id job) st').2 = downloadJobs st)
  ∧ (let '(download, st') :=
       createCompletedDownload zipName contents zipSize path now st in
     getCompletedDownload (cd_id download) st = None
     ∧ getCompletedDownload (cd_id download) st' = Some download
     ∧ (∀ id, id ≠ cd_id download →
          getCompletedDownload id st' = getCompletedDownload id st)
     ∧ countersAhead st'
     ∧ (deleteCompletedDownload (cd_id download) st').1 = true
     ∧ completedDownloads (deleteCompletedDownload (cd_id download) st').2
       = completedDownloads st)
  ∧ (let '(entry, st') :=
       createHistoryEntry action details filesCount now st in
     historyEntries st !! h_id entry = None
     ∧ historyEntries st' !! h_id entry = Some entry
     ∧ (∀ id, id ≠ h_id entry →
          historyEntries st' !! id = historyEntries st !! id)
     ∧ countersAhead st'
     ∧ length (getHistory st') = S (length (getHistory st))).
Proof.
  intros Hst. pose proof Hst as [Hf Hj Hc Hh].
  unfold getPdfFile, getDownloadJob, getCompletedDownload, getHistory.
  repeat split; simpl; try assumption;
    try (by apply below_fresh);
    try (by rewrite lookup_insert_eq);
    try (intros id Hne; by rewrite lookup_insert_ne);
    try (by apply below_insert);
    try (apply bool_decide_eq_true_2; by rewrite lookup_insert_eq);
    try (apply delete_insert_id; by apply below_fresh).
  rewrite !length_values_by_id.
  apply map_size_insert_None. by apply below_fresh.
Qed.

(** X1 at work: three files are stored and the second is deleted; the fourth
    is stored under an id of its own. *)
Lemma create_never_overwrites_witness :
  countersAhead
    (afterCalls emptyStorage
       [createPdfFile_call "u/a.pdf" "a.pdf" None ready 1;
        createPdfFile_call "u/b.pdf" "b.pdf" None ready 2;
        createPdfFile_call "u/c.pdf" "c.pdf" None ready 3;
        deletePdfFile_call 2])
  ∧ getPdfFile 4
      (afterCalls emptyStorage
         [createPdfFile_call "u/a.pdf" "a.pdf" None ready 1;
          createPdfFile_call "u/b.pdf" "b.pdf" None ready 2;
          createPdfFile_call "u/c.pdf" "c.pdf" None ready 3;
          deletePdfFile_call 2])
    = None.
Proof.
  assert (H : countersAhead
                (afterCalls emptyStorage
                   [createPdfFile_call "u/a.pdf" "a.pdf" None ready 1;
                    createPdfFile_call "u/b.pdf" "b.pdf" None ready 2;
                    createPdfFile_call "u/c.pdf" "c.pdf" None ready 3;
                    deletePdfFile_call 2]))
    by apply countersAhead_afterCalls, countersAhead_empty.
  split; [exact H|].
  exact (proj1 (proj1 (create_never_overwrites _ "u/d.pdf" "d.pdf" None ready
                         "JFK Records 1-1" 1 "queued" "jfk.zip" "1 PDFs"
                         "1 B" "/app/downloads/jfk.zip" "Scan" "d" 0 4 H))).
Defined.

(** X2. Identifiers are never handed out twice: whatever calls are made
    between two [create] calls on the same table, deletions and
    [clearHistory] included, the later call returns a larger id than the
    earlier one. *)
Theorem ids_are_never_reused (st : MemStorage) (c : StorageCall)
  (cs : list StorageCall) (c' : StorageCall) (table : Table) (id id' : Z) :
  created st c = Some (table, id) →
  created (afterCalls (afterCall st c) cs) c' = Some (table, id') →
  id < id'.
Proof.
  intros Hc Hc'.
  pose proof (counters_afterCalls (afterCall st c) cs) as Hle.
  destruct c; try discriminate; injection Hc as <- <-;
    destruct c'; try discriminate; injection Hc' as <-;
    simpl in *; lia.
Qed.

(** X2 at work: the history is cleared between two entries. *)
Lemma ids_are_never_reused_witness :
  created emptyStorage (createHistoryEntry_call "Scan initiated" "Scanning" 0 1)
  = Some (history_table, 1)
  ∧ created
      (afterCalls
         (afterCall emptyStorage
            (createHistoryEntry_call "Scan initiated" "Scanning" 0 1))
         [clearHistory_call])
      (createHistoryEntry_call "History cleared" "Cleared" 0 2)
    = Some (history_table, 2)
  ∧ 1 < 2.
Proof.
  split; [reflexivity|]. split; [reflexivity|].
  exact (ids_are_never_reused emptyStorage
           (createHistoryEntry_call "Scan initiated" "Scanning" 0 1)
           [clearHistory_call]
           (createHistoryEntry_call "History cleared" "Cleared" 0 2)
           history_table 1 2 eq_refl eq_refl).
Defined.

(** X3. Deleting a file, a job or an archive record reports whether the id
    was there, leaves every other record, table and counter as it was and
    changes nothing at all when the id is absent; afterwards [get] and
    [update] on that id return nothing and [update] leaves the store alone.
    [clearHistory] empties the history and keeps its counter. *)
Theorem delete_frame (id : Z) (st : MemStorage) (fdata : PartialPdfFile)
  (jdata : PartialDownloadJob) :
  (let '(deleted, st') := deletePdfFile id st in
   (deleted = true ↔ is_Some (getPdfFile id st))
   ∧ (deleted = false → st' = st)
   ∧ getPdfFile id st' = None
   ∧ (∀ id', id' ≠ id → getPdfFile id' st' = getPdfFile id' st)
   ∧ updatePdfFile id fdata st' = (None, st')
   ∧ downloadJobs st' = downloadJobs st
   ∧ completedDownloads st' = completedDownloads st
   ∧ historyEntries st' = historyEntries st
   ∧ counters st' = counters st)
  ∧ (let '(deleted, st') := deleteDownloadJob id st in
     (deleted = true ↔ is_Some (getDownloadJob id st))
     ∧ (deleted = false → st' = st)
     ∧ getDownloadJob id st' = None
     ∧ (∀ id', id' ≠ id → getDownloadJob id' st' = getDownloadJob id' st)
     ∧ updateDownloadJob id jdata st' = (None, st')
     ∧ pdfFiles st' = pdfFiles st
     ∧ completedDownloads st' = completedDownloads st
     ∧ historyEntries st' = historyEntries st
     ∧ counters st' = counters st)
  ∧ (let '(deleted, st') := deleteCompletedDownload id st in
     (deleted = true ↔ is_Some (getCompletedDownload id st))
     ∧ (deleted = false → st' = st)
     ∧ getCompletedDownload id st' = None
     ∧ (∀ id', id' ≠ id →
          getCompletedDownload id' st' = getCompletedDownload id' st)
     ∧ pdfFiles st' = pdfFiles st
     ∧ downloadJobs st' = downloadJobs st
     ∧ historyEntries st' = historyEntries st
     ∧ counters st' = counters st)
  ∧ (let '(cleared, st') := clearHistory st in
     cleared = true
     ∧ getHistory st' = []
     ∧ pdfFiles st' = pdfFiles st
     ∧ downloadJobs st' = downloadJobs st
     ∧ completedDownloads st' = completedDownloads st
     ∧ counters st' = counters st).
Proof.
  unfold getPdfFile, getDownloadJob, getCompletedDownload.
  repeat split; simpl; try done;
    try (by rewrite bool_decide_eq_true);
    try (by apply lookup_delete_eq);
    try (intros id' Hne; by apply lookup_delete_ne);
    try (apply updatePdfFile_absent; simpl; by apply lookup_delete_eq);
    try (apply updateDownloadJob_absent; simpl; by apply lookup_delete_eq).
  - intros H. apply bool_decide_eq_false in H.
    destruct st. unfold set_pdfFiles. simpl in *. f_equal.
    apply delete_id. by apply eq_None_not_Some.
  - intros H. apply bool_decide_eq_false in H.
    destruct st. unfold set_downloadJobs. simpl in *. f_equal.
    apply delete_id. by apply eq_None_not_Some.
  - intros H. apply bool_decide_eq_false in H.
    destruct st. unfold set_completedDownloads. simpl in *. f_equal.
    apply delete_id. by apply eq_None_not_Some.
Qed.
(** ** What the downloader never writes *)

Lemma storeEvolves_refl st : storeEvolves st st.
Proof. split; try done; try lia. intros id. by left. Qed.

Lemma storeEvolves_trans st1 st2 st3 :
  storeEvolves st1 st2 → storeEvolves st2 st3 → storeEvolves st1 st3.
Proof.
  intros H12 H23. split.
  - by rewrite (keeps_filesCounter _ _ H23), (keeps_filesCounter _ _ H12).
  - by rewrite (keeps_jobsCounter _ _ H23), (keeps_jobsCounter _ _ H12).
  - intros id. by rewrite (keeps_files _ _ H23), (keeps_files _ _ H12).
  - intros id. by rewrite (keeps_jobs _ _ H23), (keeps_jobs _ _ H12).
  - intros id. destruct (keeps_status _ _ H23 id) as [Heq|Hlit]; [|by right].
    rewrite Heq. apply (keeps_status _ _ H12).
  - pose proof (grows_historyCounter _ _ H12).
    pose proof (grows_historyCounter _ _ H23). lia.
  - pose proof (grows_completedCounter _ _ H12).
    pose proof (grows_completedCounter _ _ H23). lia.
  - intros id Hid. pose proof (grows_historyCounter _ _ H12).
    rewrite (keeps_history _ _ H23) by lia. by apply (keeps_history _ _ H12).
  - intros id Hid. pose proof (grows_completedCounter _ _ H12).
    rewrite (keeps_completed _ _ H23) by lia.
    by apply (keeps_completed _ _ H12).
  - intros H. apply (keeps_ahead _ _ H23), (keeps_ahead _ _ H12), H.
Qed.

Lemma updatePdfFile_counters id data st :
  counters (updatePdfFile id data st).2 = counters st.
Proof. unfold updatePdfFile. by destruct (pdfFiles st !! id). Qed.

Lemma updateDownloadJob_counters id data st :
  counters (updateDownloadJob id data st).2 = counters st.
Proof. unfold updateDownloadJob. by destruct (downloadJobs st !! id). Qed.

Lemma storeEvolves_updatePdfFile id data st :
  pp_id data = None → pp_url data = None → pp_filename data = None →
  pp_createdAt data = None →
  storeEvolves st (updatePdfFile id data st).2.
Proof.
  intros Hid Hurl Hname Hat.
  pose proof (updatePdfFile_counters id data st) as Hc.
  injection Hc as Hc1 Hc2 Hc3 Hc4.
  split; rewrite ?updatePdfFile_jobs, ?updatePdfFile_history,
           ?updatePdfFile_completed; try done; try lia.
  - intros id'. rewrite updatePdfFile_lookup.
    destruct (decide (id = id')) as [<-|]; [|done].
    destruct (pdfFiles st !! id) as [file|]; [|done]. simpl.
    unfold fileIdentity. simpl. by rewrite Hid, Hurl, Hname, Hat.
  - intros id'. by left.
  - intros H. apply (countersAhead_afterCall st (updatePdfFile_call id data) H).
Qed.

Lemma storeEvolves_updateDownloadJob id data st :
  pj_id data = None → pj_name data = None → pj_totalFiles data = None →
  pj_createdAt data = None →
  match pj_status data with
  | Some status => status ∈ writtenStatuses
  | None => True
  end →
  storeEvolves st (updateDownloadJob id data st).2.
Proof.
  intros Hid Hname Htotal Hat Hstatus.
  pose proof (updateDownloadJob_counters id data st) as Hc.
  injection Hc as Hc1 Hc2 Hc3 Hc4.
  split; rewrite ?updateDownloadJob_files, ?updateDownloadJob_history,
           ?updateDownloadJob_completed; try done; try lia.
  - intros id'. rewrite updateDownloadJob_lookup.
    destruct (decide (id = id')) as [<-|]; [|done].
    destruct (downloadJobs st !! id) as [job|]; [|done]. simpl.
    unfold jobIdentity. simpl. by rewrite Hid, Hname, Htotal, Hat.
  - intros id'. rewrite updateDownloadJob_lookup.
    destruct (decide (id = id')) as [<-|]; [|by left].
    destruct (downloadJobs st !! id) as [job|]; [|by left]. simpl.
    destruct (pj_status data) as [status|]; [|by left].
    right. by exists status.
  - intros H.
    apply (countersAhead_afterCall st (updateDownloadJob_call id data) H).
Qed.

Lemma storeEvolves_createCompletedDownload filename contents size path now st :
  storeEvolves st
    (createCompletedDownload filename contents size path now st).2.
Proof.
  split; simpl; try done; try lia.
  - intros id. by left.
  - intros id Hid. apply lookup_insert_ne. lia.
  - intros H.
    apply (countersAhead_afterCall st
             (createCompletedDownload_call filename contents size path now) H).
Qed.

Lemma storeEvolves_createHistoryEntry action details filesCount now st :
  storeEvolves st (createHistoryEntry action details filesCount now st).2.
Proof.
  split; simpl; try done; try lia.
  - intros id. by left.
  - intros id Hid. apply lookup_insert_ne. lia.
  - intros H.
    apply (countersAhead_afterCall st
             (createHistoryEntry_call action details filesCount now) H).
Qed.

Lemma evolves_refl s : evolves s s.
Proof. split; try done. apply storeEvolves_refl. Qed.

Lemma evolves_trans s1 s2 s3 : evolves s1 s2 → evolves s2 s3 → evolves s1 s3.
Proof.
  intros [H1 ? ? ?] [H2 ? ? ?].
  split; try congruence. by apply (storeEvolves_trans _ _ _ H1).
Qed.

Lemma evolves_suspend tid k s x : evolves s x → evolves s (suspend tid k x).
Proof. by intros []. Qed.

Lemma evolves_spawn k s x : evolves s x → evolves s (spawn k x).
Proof. by intros []. Qed.

Lemma evolves_remove_task tid s x : evolves s x → evolves s (remove_task tid x).
Proof. by intros []. Qed.

Lemma evolves_record_started jobId file s x :
  evolves s x → evolves s (record_started jobId file x).
Proof. by intros []. Qed.

Lemma evolves_on_downloader f s x :
  maxConcurrentDownloads (f (downloader x))
  = maxConcurrentDownloads (downloader x) →
  evolves s x → evolves s (on_downloader f x).
Proof. intros Hf []. split; try done. simpl. congruence. Qed.

Lemma evolves_on_storage f s x :
  storeEvolves (storage x) (f (storage x)) →
  evolves s x → evolves s (on_storage f x).
Proof.
  intros Hf [H ? ? ?]. split; try done.
  by apply (storeEvolves_trans _ _ _ H).
Qed.

Lemma evolves_updatePdfFile id data s x :
  pp_id data = None → pp_url data = None → pp_filename data = None →
  pp_createdAt data = None →
  evolves s x → evolves s (storage_updatePdfFile id data x).
Proof.
  intros. apply evolves_on_storage; [|done].
  by apply storeEvolves_updatePdfFile.
Qed.

Lemma evolves_updateDownloadJob id data s x :
  pj_id data = None → pj_name data = None → pj_totalFiles data = None →
  pj_createdAt data = None →
  match pj_status data with
  | Some status => status ∈ writtenStatuses
  | None => True
  end →
  evolves s x → evolves s (storage_updateDownloadJob id data x).
Proof.
  intros. apply evolves_on_storage; [|done].
  by apply storeEvolves_updateDownloadJob.
Qed.

Lemma evolves_downloadFile jobId file s x :
  evolves s x → evolves s (downloadFile jobId file x).
Proof.
  intros H. unfold downloadFile.
  by apply evolves_spawn, evolves_updatePdfFile, evolves_record_started.
Qed.

Lemma evolves_processQueue_loop q s x :
  evolves s x → evolves s (processQueue_loop q x).
Proof.
  revert x. induction q as [|[jobId file] q IH]; intros x H; [done|].
  rewrite processQueue_loop_cons.
  destruct (hasFreeSlot x); [|done].
  destruct (notCancelled x (jobId, file)); apply IH;
    [apply evolves_downloadFile|]; by apply evolves_on_downloader.
Qed.

Lemma evolves_processQueue s x : evolves s x → evolves s (processQueue x).
Proof. apply evolves_processQueue_loop. Qed.

Ltac evolve :=
  repeat first
    [ apply evolves_suspend
    | apply evolves_spawn
    | apply evolves_remove_task
    | apply evolves_record_started
    | apply evolves_processQueue
    | apply evolves_on_downloader; [reflexivity|]
    | apply evolves_updatePdfFile; [reflexivity..|]
    | apply evolves_updateDownloadJob;
        [reflexivity..|by (simpl; repeat constructor)|]
    | apply evolves_on_storage;
        [first [apply storeEvolves_createCompletedDownload
               |apply storeEvolves_createHistoryEntry]|] ];
  try apply evolves_refl.

Lemma resume_evolves tid k r s s' :
  resume tid k r (remove_task tid s) = Some s' → evolves s s'.
Proof.
  intros H.
  destruct k, r; cbn [resume] in H; try discriminate; injection H as <-;
    unfold downloadBatch_loop, queue_push, downloadFile_start,
      downloadFile_fetched, downloadFile_buffered, downloadFile_stat,
      downloadFile_count, downloadFile_check, downloadFile_getJob,
      downloadFile_catch, downloadFile_finish, activeDownloads_delete,
      completeJob, completeJob_begin, completeJob_getFiles,
      completeJob_collect, completeJob_zipped, completeJob_record,
      completeJob_log, completeJob_logFailure, completeJob_catch;
    repeat case_match; evolve.
Qed.

Lemma step_evolves s e s' : step s e = Some s' → evolves s s'.
Proof.
  destruct e as [jobId files|jobId now|tid r]; simpl.
  - intros [= <-]. unfold downloadBatch. evolve.
  - intros [= <-]. unfold cancelDownload. evolve.
  - destruct (tasks s !! tid) as [k|]; [|done]. apply resume_evolves.
Qed.

Lemma run_evolves events s s' : run s events = Some s' → evolves s s'.
Proof.
  revert s. induction events as [|e events IH]; intros s; simpl.
  - intros [= <-]. apply evolves_refl.
  - destruct (step s e) as [s1|] eqn:E; [|done]. intros H.
    apply (evolves_trans _ s1); [by apply (step_evolves _ e)|by apply IH].
Qed.

Lemma stateAfter_evolves s events : evolves s (stateAfter s events).
Proof.
  unfold stateAfter. destruct (run s events) as [s'|] eqn:E.
  - by apply (run_evolves events).
  - apply evolves_refl.
Qed.

(** X4. Whatever is submitted, cancelled or resumed, and whatever the
    outside answers, the downloader adds no file and no job to the store and
    removes none, and it never changes the id, the url, the file name or the
    creation date of a file, nor the id, the name, the total or the creation
    date of a job; the two id counters stay as they are. *)
Theorem downloader_keeps_identity (s : State) (events : list Event) :
  dom (pdfFiles (storage (stateAfter s events))) = dom (pdfFiles (storage s))
  ∧ dom (downloadJobs (storage (stateAfter s events)))
    = dom (downloadJobs (storage s))
  ∧ (∀ id, fileIdentity <$> pdfFiles (storage (stateAfter s events)) !! id
           = fileIdentity <$> pdfFiles (storage s) !! id)
  ∧ (∀ id, jobIdentity <$> downloadJobs (storage (stateAfter s events)) !! id
           = jobIdentity <$> downloadJobs (storage s) !! id)
  ∧ pdfFilesCounter (storage (stateAfter s events))
    = pdfFilesCounter (storage s)
  ∧ downloadJobsCounter (storage (stateAfter s events))
    = downloadJobsCounter (storage s).
Proof.
  destruct (stateAfter_evolves s events) as [[Hfc Hjc Hf Hj _ _ _ _ _ _] _ _ _].
  repeat split; try done.
  - apply set_eq. intros id. rewrite !elem_of_dom.
    by rewrite <- !(fmap_is_Some fileIdentity), Hf.
  - apply set_eq. intros id. rewrite !elem_of_dom.
    by rewrite <- !(fmap_is_Some jobIdentity), Hj.
Qed.

(** X5. The capacity of the downloader is 3 in every state it can reach:
    no method assigns [maxConcurrentDownloads], so the setting of the same
    name in the store has no effect on it.  The two directories are
    constant as well. *)
Theorem capacity_is_constant (temp downloads : string) (events : list Event) :
  maxConcurrentDownloads
    (downloader (stateAfter (initialState temp downloads) events)) = 3
  ∧ tempDir (stateAfter (initialState temp downloads) events) = temp
  ∧ downloadsDir (stateAfter (initialState temp downloads) events) = downloads.
Proof.
  destruct (stateAfter_evolves (initialState temp downloads) events)
    as [_ Hmax Htemp Hdown].
  by rewrite Hmax, Htemp, Hdown.
Qed.

(** X6. In a store whose counters are ahead of its keys, no step of the
    downloader removes or rewrites a history entry or an archive record:
    both tables only grow, their counters never go back, and the counters
    stay ahead of the keys. *)
Theorem history_only_grows (s : State) (events : list Event) :
  countersAhead (storage s) →
  countersAhead (storage (stateAfter s events))
  ∧ historyEntries (storage s) ⊆ historyEntries (storage (stateAfter s events))
  ∧ completedDownloads (storage s)
    ⊆ completedDownloads (storage (stateAfter s events))
  ∧ historyCounter (storage s) <= historyCounter (storage (stateAfter s events))
  ∧ completedDownloadsCounter (storage s)
    <= completedDownloadsCounter (storage (stateAfter s events)).
Proof.
  intros Hs.
  destruct (stateAfter_evolves s events)
    as [[_ _ _ _ _ Hhc Hcc Hh Hc Hahead] _ _ _].
  split; [by apply Hahead|]. split; [|split; [|done]].
  - apply map_subseteq_spec. intros id entry Hid. rewrite Hh; [done|].
    apply (history_below _ Hs). by rewrite Hid.
  - apply map_subseteq_spec. intros id record Hid. rewrite Hc; [done|].
    apply (completed_below _ Hs). by rewrite Hid.
Qed.

Lemma activeJobs_zero st :
  activeJobs st = 0%nat
  ↔ ∀ id, job_status <$> downloadJobs st !! id ≠ Some "downloading".
Proof.
  unfold activeJobs, getDownloadJobs. rewrite length_zero_iff_nil. split.
  - intros Hnil id Hid.
    destruct (downloadJobs st !! id) as [job|] eqn:E; [|done].
    injection Hid as Hid.
    assert (Hin : job ∈ List.filter
                          (λ job, bool_decide (job_status job = "downloading"))
                          (values_by_id (downloadJobs st))).
    { apply list_elem_of_In, filter_In. split.
      - apply list_elem_of_In, elem_of_values_by_id. by exists id.
      - by apply bool_decide_eq_true_2. }
    rewrite Hnil in Hin. by apply elem_of_nil in Hin.
  - intros Hall.
    destruct (List.filter _ _) as [|job rest] eqn:E; [done|].
    assert (Hin : In job (job :: rest)) by by left.
    rewrite <- E in Hin. apply filter_In in Hin as [Hin Hst].
    apply list_elem_of_In, elem_of_values_by_id in Hin as [id Hin].
    apply bool_decide_eq_true in Hst.
    destruct (Hall id). by rewrite Hin, <- Hst.
Qed.

(** X6 at work: both files of the job of one file are submitted and the
    first one is archived. *)
Lemma history_only_grows_witness :
  countersAhead (storage twoFilesJobOfOne)
  ∧ historyEntries (storage twoFilesJobOfOne)
    ⊆ historyEntries (storage (stateAfter twoFilesJobOfOne firstFileArchives)).
Proof.
  assert (H : countersAhead (storage twoFilesJobOfOne)).
  { exact (countersAhead_afterCalls emptyStorage
             [createPdfFile_call
                "https://www.archives.gov/files/104-10001-10001.pdf"
                "104-10001-10001.pdf" (Some "Unknown") ready 0;
              createPdfFile_call
                "https://www.archives.gov/files/104-10002-10002.pdf"
                "104-10002-10002.pdf" (Some "Unknown") ready 0;
              createDownloadJob_call "JFK Records 104-104" 1 None "queued" 0]
             countersAhead_empty). }
  split; [exact H|].
  exact (proj1 (proj2 (history_only_grows twoFilesJobOfOne firstFileArchives
                         H))).
Defined.

(** X7. The only statuses the downloader gives to a job are "in progress",
    "creating zip", "completed", "failed" and "cancelled".  It never
    writes "downloading", the status the status route counts as active: when
    no job has it, as is the case for the jobs the routes create, none ever
    gets it and the route reports 0 active jobs. *)
Theorem job_status_is_never_downloading (s : State) (events : list Event) :
  activeJobs (storage s) = 0%nat →
  activeJobs (storage (stateAfter s events)) = 0%nat
  ∧ ∀ id, jobStatus id (stateAfter s events) = jobStatus id s
          ∨ ∃ status, status ∈ writtenStatuses
                      ∧ jobStatus id (stateAfter s events) = Some status.
Proof.
  intros Hs.
  destruct (stateAfter_evolves s events) as [[_ _ _ _ Hst _ _ _ _ _] _ _ _].
  split; [|exact Hst].
  apply activeJobs_zero. intros id Hid.
  destruct (Hst id) as [Heq|(status & Hin & Heq)].
  - rewrite Heq in Hid. revert Hid. by apply activeJobs_zero.
  - rewrite Heq in Hid. injection Hid as ->.
    unfold writtenStatuses in Hin.
    repeat (apply elem_of_cons in Hin as [Hin|Hin]; [discriminate|]).
    by apply elem_of_nil in Hin.
Qed.

(** X7 at work: both files of the job of one file are submitted and the
    first one is archived; the job goes from "queued" to "completed". *)
Lemma job_status_is_never_downloading_witness :
  activeJobs (storage twoFilesJobOfOne) = 0%nat
  ∧ jobStatus 1 twoFilesJobOfOne = Some "queued"
  ∧ jobStatus 1 <$> run twoFilesJobOfOne firstFileArchives
    = Some (Some "completed")
  ∧ activeJobs (storage (stateAfter twoFilesJobOfOne firstFileArchives))
    = 0%nat.
Proof.
  assert (H : activeJobs (storage twoFilesJobOfOne) = 0%nat)
    by (vm_compute; reflexivity).
  split; [exact H|].
  split; [vm_compute; reflexivity|].
  split; [vm_compute; reflexivity|].
  exact (proj1 (job_status_is_never_downloading twoFilesJobOfOne
                  firstFileArchives H)).
Defined.

(** ** How a call of [downloadFile] ends without success *)

Lemma ended_from status tid file k s :
  activeDownloads_delete (pf_id file)
    (remove_task tid
       (suspend tid k
          (storage_updatePdfFile (pf_id file) (withStatusProgress status 0)
             (remove_task tid s))))
  = ended status tid file s.
Proof.
  destruct s as [st [mx act q c] td dd ts nt sd].
  unfold ended. open_state. f_equal.
  by rewrite delete_insert_eq, delete_delete_eq.
Qed.

Lemma ended_fileStatus status tid file s :
  fileStatus (pf_id file) (ended status tid file s)
  = (λ _, status) <$> fileStatus (pf_id file) s.
Proof.
  unfold fileStatus. simpl. rewrite updatePdfFile_lookup, decide_True by done.
  by destruct (pdfFiles (storage s) !! pf_id file).
Qed.

(** X8. A download whose job was cancelled while [fetch] was under way
    ends as follows when the response arrives: the file goes back to
    [ready] with progress 0 and its entry of [activeDownloads] is removed.
    The call then returns without running [processQueue]: the queue is left
    as it is and no download is started, although a slot has become free;
    the job records are not touched.  When no other call is suspended,
    nothing is left to run, whatever the queue holds. *)
Theorem cancelled_download_reverts (s : State) (tid : nat) (jobId : Z)
  (file : PdfFile) (tempFilePath : string) (t : Z) :
  tasks s !! tid = Some (DF_fetch jobId file tempFilePath) →
  jobId ∈ cancelledJobs (downloader s) →
  run s [Resume tid (Fetched (Some true) true); Resume tid (Settled t)]
  = Some (ended ready tid file s)
  ∧ fileStatus (pf_id file) (ended ready tid file s)
    = (λ _, ready) <$> fileStatus (pf_id file) s
  ∧ activeDownloads (downloader (ended ready tid file s))
    = delete (pf_id file) (activeDownloads (downloader s))
  ∧ queue (downloader (ended ready tid file s)) = queue (downloader s)
  ∧ started (ended ready tid file s) = started s
  ∧ downloadJobs (storage (ended ready tid file s)) = downloadJobs (storage s)
  ∧ ((∀ tid', tid' ≠ tid → tasks s !! tid' = None) →
     ∀ tid' r, step (ended ready tid file s) (Resume tid' r) = None).
Proof.
  intros Htid Hcancelled.
  split; [|split; [apply ended_fileStatus|]].
  - rewrite run_cons, (step_Resume _ _ _ _ Htid). cbn [resume].
    unfold downloadFile_fetched.
    change (cancelledJobs (downloader (remove_task tid s)))
      with (cancelledJobs (downloader s)).
    rewrite bool_decide_eq_true_2 by done.
    rewrite run_cons.
    erewrite step_Resume by (simpl; apply lookup_insert_eq).
    cbn [resume run]. by rewrite ended_from.
  - repeat (split; [done|]).
    split; [simpl; apply updatePdfFile_jobs|].
    intros Hothers tid' r. simpl.
    destruct (decide (tid' = tid)) as [->|Hne].
    + by rewrite lookup_delete_eq.
    + by rewrite lookup_delete_ne, Hothers.
Qed.

(** X9. A download that fails, because [fetch] rejects or answers with a
    status that is not ok, because the body cannot be read or because the
    staged file cannot be inspected or removed, marks its file [failed]
    with progress 0, removes its entry of [activeDownloads] and runs
    [processQueue].  The job is not told: its record, the history and the
    archive records stay as they are, and nothing downloads the file again. *)
Theorem failed_download_ends (s : State) (tid : nat) (jobId : Z)
  (file : PdfFile) (r : Response) (t : Z) :
  downloadFails s tid jobId file r →
  run s [Resume tid r; Resume tid (Settled t)]
  = Some (processQueue (ended failed tid file s))
  ∧ fileStatus (pf_id file) (ended failed tid file s)
    = (λ _, failed) <$> fileStatus (pf_id file) s
  ∧ started (processQueue (ended failed tid file s))
    = started s ++ admitted (ended failed tid file s)
  ∧ downloadJobs (storage (processQueue (ended failed tid file s)))
    = downloadJobs (storage s)
  ∧ historyEntries (storage (processQueue (ended failed tid file s)))
    = historyEntries (storage s)
  ∧ completedDownloads (storage (processQueue (ended failed tid file s)))
    = completedDownloads (storage s).
Proof.
  intros Hfails.
  assert (Hcatch :
    ∀ x, x = downloadFile_catch tid jobId file (remove_task tid s) →
         run x [Resume tid (Settled t)]
         = Some (processQueue (ended failed tid file s))).
  { intros x ->. rewrite run_cons.
    erewrite step_Resume by (simpl; apply lookup_insert_eq).
    cbn [resume run]. unfold downloadFile_finish, downloadFile_catch.
    by rewrite ended_from. }
  split; [|split; [apply ended_fileStatus|]].
  - rewrite run_cons.
    destruct Hfails as [path unlinked Htid|path unlinked Htid
                       |path Htid Hcancelled|path Htid|path Htid];
      rewrite (step_Resume _ _ _ _ Htid); cbn [resume];
      try (by apply Hcatch).
    apply Hcatch. unfold downloadFile_fetched.
    change (cancelledJobs (downloader (remove_task tid s)))
      with (cancelledJobs (downloader s)).
    by rewrite bool_decide_eq_true_2.
  - split; [exact (processQueue_started (ended failed tid file s))|].
    destruct (processQueue_same (ended failed tid file s))
      as [_ _ _ Hj Hc Hh _ _ _ _].
    rewrite Hj, Hh, Hc. simpl.
    by rewrite updatePdfFile_jobs, updatePdfFile_history,
      updatePdfFile_completed.
Qed.

(** X8 at work: files A, B and C of job 1 fill the three slots, files D and
    E of job 2 wait in the queue, job 1 is cancelled and the response for
    file A arrives. The slot of A is freed and D and E go on waiting. *)
Lemma cancelled_download_reverts_witness :
  tasks (stateAfter fiveFilesTwoJobs
           (fillSlots ++ Call_downloadBatch 2 [fileD; fileE]
                         :: replicate 3 (Resume 4 (Settled 20))
                         ++ [Call_cancelDownload 1 30])) !! 1%nat
  = Some (DF_fetch 1 fileA "/app/temp/11-104-10001-10001.pdf")
  ∧ (λ s, (fileStatus 1 s, size (activeDownloads (downloader s)),
           queue (downloader s), started s))
      <$> run (stateAfter fiveFilesTwoJobs
                 (fillSlots ++ Call_downloadBatch 2 [fileD; fileE]
                               :: replicate 3 (Resume 4 (Settled 20))
                               ++ [Call_cancelDownload 1 30]))
            [Resume 1 (Fetched (Some true) true); Resume 1 (Settled 40)]
    = Some (Some ready, 2%nat, [(2, fileD); (2, fileE)],
            [(1, fileA); (1, fileB); (1, fileC)]).
Proof.
  set (s := stateAfter fiveFilesTwoJobs
              (fillSlots ++ Call_downloadBatch 2 [fileD; fileE]
                            :: replicate 3 (Resume 4 (Settled 20))
                            ++ [Call_cancelDownload 1 30])).
  assert (Htid : tasks s !! 1%nat
                 = Some (DF_fetch 1 fileA "/app/temp/11-104-10001-10001.pdf"))
    by (vm_compute; reflexivity).
  assert (Hcancelled : 1 ∈ cancelledJobs (downloader s))
    by (apply (bool_decide_unpack _); vm_compute; exact I).
  split; [exact Htid|].
  rewrite (proj1 (cancelled_download_reverts s 1 1 fileA _ 40 Htid Hcancelled)).
  vm_compute. reflexivity.
Defined.

(** X9 at work: the four files of the batch are in flight and [fetch]
    rejects for file A. *)
Lemma failed_download_ends_witness :
  downloadFails (stateAfter fourFiles (submitFour ++ fetchFour)) 1 1 fileA
    (Fetched None true)
  ∧ (λ s, (fileStatus 1 s, size (activeDownloads (downloader s)),
           jobDownloaded 1 s, jobStatus 1 s))
      <$> run (stateAfter fourFiles (submitFour ++ fetchFour))
            [Resume 1 (Fetched None true); Resume 1 (Settled 20)]
    = Some (Some failed, 3%nat, Some 0, Some "in progress").
Proof.
  assert (Hfails :
    downloadFails (stateAfter fourFiles (submitFour ++ fetchFour)) 1 1 fileA
      (Fetched None true)).
  { apply (fetch_rejects _ _ _ _ "/app/temp/11-104-10001-10001.pdf").
    vm_compute. reflexivity. }
  split; [exact Hfails|].
  rewrite (proj1 (failed_download_ends _ 1 1 fileA _ 20 Hfails)).
  vm_compute. reflexivity.
Defined.

(** ** A cancellation that comes after the check *)

(** Project a field out of a state the operations built. *)
Ltac project :=
  cbn [storage downloader tempDir downloadsDir tasks nextTask started
       maxConcurrentDownloads activeDownloads queue cancelledJobs
       suspend spawn remove_task record_started on_storage on_downloader
       storage_updatePdfFile storage_updateDownloadJob activeDownloads_delete
       set_activeDownloads set_queue set_cancelledJobs].

(** One resumption of a task that has just been suspended. *)
Ltac resume_step :=
  rewrite run_cons;
  erewrite step_Resume by (project; apply lookup_insert_eq);
  cbn [resume].

(** The three last steps of [succeedAfterCheck], from the state [x] in
    which [downloadFile] reads the job. *)
Lemma counts_and_archives tid jobId file job t x :
  downloadJobs (storage x) !! jobId = Some job →
  job_downloadedFiles job + 1 >= job_totalFiles job →
  ∃ s',
    run (downloadFile_getJob tid jobId file x)
      [Resume tid (Settled t); Resume tid (Settled t); Resume tid (Settled t)]
    = Some s'
    ∧ pdfFiles (storage s') = pdfFiles (storage x)
    ∧ cancelledJobs (downloader s') = cancelledJobs (downloader x)
    ∧ jobDownloaded jobId s' = Some (job_downloadedFiles job + 1)
    ∧ jobStatus jobId s' = Some "creating zip".
Proof.
  intros Hjob Hge. eexists. split.
  - unfold downloadFile_getJob, getDownloadJob. rewrite Hjob.
    resume_step. unfold downloadFile_count.
    resume_step. unfold downloadFile_check.
    rewrite bool_decide_eq_true_2 by done.
    unfold completeJob, getDownloadJob.
    resume_step. reflexivity.
  - unfold jobDownloaded, jobStatus. simpl.
    rewrite !updateDownloadJob_lookup, !decide_True by done.
    rewrite Hjob. simpl.
    rewrite !updateDownloadJob_files, !updateDownloadJob_lookup,
      !decide_True by done.
    by rewrite Hjob.
Qed.

(** X10. The downloader looks at the set of cancelled jobs once per
    download, when the response of [fetch] arrives.  A job that is cancelled
    after that is counted and archived all the same: the download goes on,
    the file ends [completed], the counter of the cancelled job is written
    and, when it reaches the total, [completeJob] overwrites the status
    "cancelled" with "creating zip". *)
Theorem cancel_after_check_is_too_late (s : State) (tid : nat) (jobId : Z)
  (file : PdfFile) (tempFilePath : string) (job : DownloadJob)
  (bytes now t : Z) :
  tasks s !! tid = Some (DF_buffer jobId file tempFilePath) →
  (tid < nextTask s)%nat →
  downloadJobs (storage s) !! jobId = Some job →
  job_downloadedFiles job + 1 >= job_totalFiles job →
  jobStatus jobId (cancelDownload jobId now s) = Some "cancelled"
  ∧ ∃ s',
      run s (Call_cancelDownload jobId now
             :: succeedAfterCheck tid file bytes t) = Some s'
      ∧ jobId ∈ cancelledJobs (downloader s')
      ∧ fileStatus (pf_id file) s'
        = (λ _, completed) <$> fileStatus (pf_id file) s
      ∧ jobDownloaded jobId s' = Some (job_downloadedFiles job + 1)
      ∧ jobStatus jobId s' = Some "creating zip".
Proof.
  intros Htid Hlt Hjob Hge.
  set (s0 := cancelDownload jobId now s).
  assert (Htid0 : tasks s0 !! tid = Some (DF_buffer jobId file tempFilePath))
    by (simpl; rewrite lookup_insert_ne by lia; done).
  assert (Hjob0 : downloadJobs (storage s0) !! jobId
                  = Some (spreadDownloadJob job
                            (withJobStatusAt "cancelled" now))).
  { simpl. rewrite updateDownloadJob_lookup, decide_True by done.
    by rewrite Hjob. }
  split; [unfold jobStatus; fold s0; by rewrite Hjob0|].
  rewrite run_cons. cbn [step]. fold s0. unfold succeedAfterCheck.
  cbn [app]. rewrite run_cons, (step_Resume _ _ _ _ Htid0). cbn [resume].
  unfold downloadFile_buffered.
  resume_step. resume_step. unfold downloadFile_stat.
  assert (Hend :
    ∀ x, downloadJobs (storage x) = downloadJobs (storage s0) →
         cancelledJobs (downloader x) = cancelledJobs (downloader s0) →
         fileStatus (pf_id file) x
         = (λ _, completed) <$> fileStatus (pf_id file) s →
         ∃ s',
           run (downloadFile_getJob tid jobId file x)
             [Resume tid (Settled t); Resume tid (Settled t);
              Resume tid (Settled t)] = Some s'
           ∧ jobId ∈ cancelledJobs (downloader s')
           ∧ fileStatus (pf_id file) s'
             = (λ _, completed) <$> fileStatus (pf_id file) s
           ∧ jobDownloaded jobId s' = Some (job_downloadedFiles job + 1)
           ∧ jobStatus jobId s' = Some "creating zip").
  { intros x Hjobs Hcancelled Hfile.
    destruct (counts_and_archives tid jobId file
                (spreadDownloadJob job (withJobStatusAt "cancelled" now)) t x)
      as (s' & Hrun & Hfiles & Hc & Hd & Hst);
      [by rewrite Hjobs|done|].
    exists s'. split; [exact Hrun|].
    split.
    { rewrite Hc, Hcancelled. simpl. apply elem_of_union_l.
      by apply elem_of_singleton. }
    split; [|done]. unfold fileStatus. rewrite Hfiles. exact Hfile. }
  case_bool_decide; cbn [app].
  - resume_step. apply Hend.
    + project. by rewrite !updatePdfFile_jobs.
    + done.
    + unfold fileStatus, s0, cancelDownload. project.
      rewrite !updatePdfFile_lookup, !decide_True by done.
      rewrite updateDownloadJob_files.
      by destruct (pdfFiles (storage s) !! pf_id file).
  - apply Hend.
    + project. by rewrite !updatePdfFile_jobs.
    + done.
    + unfold fileStatus, s0, cancelDownload. project.
      rewrite !updatePdfFile_lookup, !decide_True by done.
      rewrite updateDownloadJob_files.
      by destruct (pdfFiles (storage s) !! pf_id file).
Qed.

(** X10 at work: the response for file A has arrived when the job of one
    file is cancelled. *)
Lemma cancel_after_check_is_too_late_witness :
  tasks (stateAfter twoFilesJobOfOne
           (submitTwo ++ [Resume 1 (Fetched (Some true) true)])) !! 1%nat
  = Some (DF_buffer 1 fileA "/app/temp/1700000000000-104-10001-10001.pdf")
  ∧ ∃ s',
      run (stateAfter twoFilesJobOfOne
             (submitTwo ++ [Resume 1 (Fetched (Some true) true)]))
        (Call_cancelDownload 1 1700000000500
         :: succeedAfterCheck 1 fileA 2048 1700000001000) = Some s'
      ∧ 1 ∈ cancelledJobs (downloader s')
      ∧ jobStatus 1 s' = Some "creating zip".
Proof.
  set (s := stateAfter twoFilesJobOfOne
              (submitTwo ++ [Resume 1 (Fetched (Some true) true)])).
  assert (Htid : tasks s !! 1%nat
                 = Some (DF_buffer 1 fileA
                           "/app/temp/1700000000000-104-10001-10001.pdf"))
    by (vm_compute; reflexivity).
  assert (Hlt : (1 < nextTask s)%nat) by (vm_compute; lia).
  assert (Hjob : downloadJobs (storage s) !! 1
                 = Some (mkDownloadJob 1 "JFK Records 104-104" 1 0 None
                           "in progress" 0 None))
    by (vm_compute; reflexivity).
  split; [exact Htid|].
  destruct (cancel_after_check_is_too_late s 1 1 fileA _ _ 2048 1700000000500
              1700000001000 Htid Hlt Hjob)
    as (_ & s' & Hrun & Hin & _ & _ & Hstatus); [simpl; lia|].
  exists s'. by repeat split.
Defined.

(** ** A download that succeeds below the total *)

Lemma delete_alter_same {A} (f : A → A) (m : gmap Z A) id :
  delete id (alter f id m) = delete id m.
Proof.
  apply map_eq. intros id'. destruct (decide (id = id')) as [<-|Hne].
  - by rewrite !lookup_delete_eq.
  - by rewrite !lookup_delete_ne, lookup_alter_ne.
Qed.

Lemma State_eq s s' :
  storage s = storage s' → downloader s = downloader s' →
  tempDir s = tempDir s' → downloadsDir s = downloadsDir s' →
  tasks s = tasks s' → nextTask s = nextTask s' → started s = started s' →
  s = s'.
Proof. destruct s, s'. simpl. by intros -> -> -> -> -> -> ->. Qed.

Lemma Downloader_eq d d' :
  maxConcurrentDownloads d = maxConcurrentDownloads d' →
  activeDownloads d = activeDownloads d' → queue d = queue d' →
  cancelledJobs d = cancelledJobs d' → d = d'.
Proof. destruct d, d'. simpl. by intros -> -> -> ->. Qed.

(** X11. A download that succeeds while the job still lacks files: the
    file ends [completed] with progress 100, its size is filled in when the
    record held by the call said "Unknown", the counter of the job goes up
    by one and its status stays as it is, the entry of [activeDownloads] is
    removed and [processQueue] runs.  No archive is made and no history
    entry is written. *)
Theorem successful_download_ends (s : State) (tid : nat) (jobId : Z)
  (file : PdfFile) (tempFilePath : string) (job : DownloadJob)
  (bytes size t : Z) :
  tasks s !! tid = Some (DF_buffer jobId file tempFilePath) →
  downloadJobs (storage s) !! jobId = Some job →
  job_downloadedFiles job + 1 < job_totalFiles job →
  run s (succeedAndEnd tid file bytes size t)
  = Some (processQueue (succeeded tid jobId file job size s))
  ∧ pdfFiles (storage (succeeded tid jobId file job size s)) !! pf_id file
    = (λ f, mkPdfFile (pf_id f) (pf_url f) (pf_filename f)
              (if bool_decide (pf_size file = Some "Unknown")
               then Some (formatSize size) else pf_size f)
              completed 100 (pf_createdAt f))
        <$> pdfFiles (storage s) !! pf_id file
  ∧ jobDownloaded jobId (processQueue (succeeded tid jobId file job size s))
    = Some (job_downloadedFiles job + 1)
  ∧ jobStatus jobId (processQueue (succeeded tid jobId file job size s))
    = jobStatus jobId s
  ∧ completedDownloads
      (storage (processQueue (succeeded tid jobId file job size s)))
    = completedDownloads (storage s)
  ∧ historyEntries
      (storage (processQueue (succeeded tid jobId file job size s)))
    = historyEntries (storage s).
Proof.
  intros Htid Hjob Hlt.
  split; [|split; [|split; [|split]]].
  - unfold succeedAndEnd. cbn [app].
    rewrite run_cons, (step_Resume _ _ _ _ Htid). cbn [resume].
    unfold downloadFile_buffered.
    resume_step. resume_step. unfold downloadFile_stat.
    assert (Hend :
      ∀ x, downloadJobs (storage x) = downloadJobs (storage s) →
           processQueue (activeDownloads_delete (pf_id file)
                           (remove_task tid
                              (suspend tid (DF_counted jobId file job)
                                 (storage_updateDownloadJob jobId
                                    (withDownloaded
                                       (job_downloadedFiles job + 1)
                                       (sizeOrCalculating (job_size job)))
                                    (remove_task tid
                                       (suspend tid
                                          (DF_job jobId file (Some job))
                                          x))))))
           = processQueue (succeeded tid jobId file job size s) →
           run (downloadFile_getJob tid jobId file x)
             [Resume tid (Settled t); Resume tid (Settled t)]
           = Some (processQueue (succeeded tid jobId file job size s))).
    { intros x Hjobs Hx. unfold downloadFile_getJob, getDownloadJob.
      rewrite Hjobs, Hjob. resume_step. unfold downloadFile_count.
      resume_step. unfold downloadFile_check.
      rewrite bool_decide_eq_false_2 by lia.
      unfold downloadFile_finish. cbn [run]. by rewrite Hx. }
    case_bool_decide as Hsize; cbn [app].
    + resume_step. apply Hend; [project; by rewrite !updatePdfFile_jobs|].
      f_equal. apply State_eq; try reflexivity.
      * unfold succeeded, storeAfterSuccess. cbn [storage].
        by rewrite bool_decide_eq_true_2.
      * apply Downloader_eq; try reflexivity. apply delete_alter_same.
      * unfold succeeded. project.
        by rewrite !delete_insert_eq, !delete_delete_eq.
    + apply Hend; [project; by rewrite !updatePdfFile_jobs|].
      f_equal. apply State_eq; try reflexivity.
      * unfold succeeded, storeAfterSuccess. cbn [storage].
        by rewrite bool_decide_eq_false_2.
      * apply Downloader_eq; try reflexivity. apply delete_alter_same.
      * unfold succeeded. project.
        by rewrite !delete_insert_eq, !delete_delete_eq.
  - unfold succeeded, storeAfterSuccess. cbn [storage].
    rewrite updateDownloadJob_files.
    case_bool_decide; rewrite !updatePdfFile_lookup, !decide_True by done;
      by destruct (pdfFiles (storage s) !! pf_id file).
  - unfold jobDownloaded.
    rewrite (same_jobs _ _ (processQueue_same _)).
    unfold succeeded, storeAfterSuccess. cbn [storage].
    rewrite updateDownloadJob_lookup, decide_True by done.
    case_bool_decide; rewrite !updatePdfFile_jobs, Hjob; done.
  - unfold jobStatus.
    rewrite (same_jobs _ _ (processQueue_same _)).
    unfold succeeded, storeAfterSuccess. cbn [storage].
    rewrite updateDownloadJob_lookup, decide_True by done.
    case_bool_decide; rewrite !updatePdfFile_jobs, Hjob; done.
  - rewrite (same_completed _ _ (processQueue_same _)),
      (same_history _ _ (processQueue_same _)).
    unfold succeeded, storeAfterSuccess. cbn [storage].
    rewrite updateDownloadJob_completed, updateDownloadJob_history.
    case_bool_decide;
      by rewrite !updatePdfFile_completed, !updatePdfFile_history.
Qed.

(** X11 at work: file A of the job of two files. *)
Lemma successful_download_ends_witness :
  tasks (stateAfter twoFilesJobOfTwo
           (submitTwo ++ [Resume 1 (Fetched (Some true) true)])) !! 1%nat
  = Some (DF_buffer 1 fileA "/app/temp/1700000000000-104-10001-10001.pdf")
  ∧ (λ s, (fileStatus 1 s, jobDownloaded 1 s, jobStatus 1 s,
           size (activeDownloads (downloader s))))
      <$> run (stateAfter twoFilesJobOfTwo
                 (submitTwo ++ [Resume 1 (Fetched (Some true) true)]))
            (succeedAndEnd 1 fileA 2048 2048 1700000001000)
    = Some (Some completed, Some 1, Some "in progress", 1%nat).
Proof.
  set (s := stateAfter twoFilesJobOfTwo
              (submitTwo ++ [Resume 1 (Fetched (Some true) true)])).
  assert (Htid : tasks s !! 1%nat
                 = Some (DF_buffer 1 fileA
                           "/app/temp/1700000000000-104-10001-10001.pdf"))
    by (vm_compute; reflexivity).
  assert (Hjob : downloadJobs (storage s) !! 1
                 = Some (mkDownloadJob 1 "JFK Records 104-104" 2 0 None
                           "in progress" 0 None))
    by (vm_compute; reflexivity).
  split; [exact Htid|].
  rewrite (proj1 (successful_download_ends s 1 1 fileA _ _ 2048 2048
                    1700000001000 Htid Hjob ltac:(simpl; lia))).
  vm_compute. reflexivity.
Defined.

(** ** The entries of [activeDownloads] and the calls that own them *)

Lemma slotsOwned_spawn k x : slotsOwned x → slotsOwned (spawn k x).
Proof.
  intros [Hb Ho]. split; project.
  - intros tid Htid. destruct (decide (nextTask x = tid)) as [<-|Hne]; [lia|].
    rewrite lookup_insert_ne in Htid by done. specialize (Hb tid Htid). lia.
  - intros id Hid. destruct (Ho id Hid) as (tid & k0 & Htid & Hk0).
    exists tid, k0. split; [|done].
    rewrite lookup_insert_ne; [done|].
    intros <-. assert (nextTask x < nextTask x)%nat; [|lia].
    apply Hb. by rewrite Htid.
Qed.

(** A change that touches neither the tasks nor the active downloads. *)
Lemma slotsOwned_quiet x y :
  tasks y = tasks x → nextTask y = nextTask x →
  activeDownloads (downloader y) = activeDownloads (downloader x) →
  slotsOwned x → slotsOwned y.
Proof.
  intros Ht Hn Ha [Hb Ho]. split.
  - rewrite Ht, Hn. exact Hb.
  - rewrite Ht, Ha. exact Ho.
Qed.

Lemma slotsOwned_downloadFile jobId file x :
  slotsOwned x → slotsOwned (downloadFile jobId file x).
Proof.
  intros H. unfold downloadFile. apply slotsOwned_spawn.
  by apply (slotsOwned_quiet x).
Qed.

Lemma slotsOwned_processQueue_loop q x :
  slotsOwned x → slotsOwned (processQueue_loop q x).
Proof.
  revert x. induction q as [|[jobId file] q IH]; intros x H; [done|].
  rewrite processQueue_loop_cons.
  destruct (hasFreeSlot x); [|done].
  destruct (notCancelled x (jobId, file)); apply IH;
    [apply slotsOwned_downloadFile|]; by apply (slotsOwned_quiet x).
Qed.

Lemma slotsOwned_processQueue x : slotsOwned x → slotsOwned (processQueue x).
Proof. apply slotsOwned_processQueue_loop. Qed.

(** The call goes on, suspended as [k'], and owns what it owned. *)
Lemma slotsOwned_continue s tid k k' y :
  slotsOwned s → tasks s !! tid = Some k →
  tasks y = <[tid := k']> (delete tid (tasks s)) →
  registered k' = registered k →
  nextTask y = nextTask s →
  (∀ id, is_Some (activeDownloads (downloader y) !! id) →
         is_Some (activeDownloads (downloader s) !! id)) →
  slotsOwned y.
Proof.
  intros [Hb Ho] Htid Ht Hk Hn Ha. split.
  - rewrite Ht, Hn. intros tid' H.
    destruct (decide (tid = tid')) as [<-|Hne]; [apply Hb; by rewrite Htid|].
    rewrite lookup_insert_ne, lookup_delete_ne in H by done. by apply Hb.
  - intros id Hid. destruct (Ho id (Ha id Hid)) as (tid0 & k0 & Htid0 & Hk0).
    rewrite Ht. destruct (decide (tid = tid0)) as [<-|Hne].
    + exists tid, k'. rewrite lookup_insert_eq. split; [done|]. congruence.
    + exists tid0, k0. by rewrite lookup_insert_ne, lookup_delete_ne.
Qed.

(** The call writes its entry and goes on as its owner. *)
Lemma slotsOwned_start s tid k k' y id a :
  slotsOwned s → tasks s !! tid = Some k →
  tasks y = <[tid := k']> (delete tid (tasks s)) →
  registered k' = Some id →
  nextTask y = nextTask s →
  activeDownloads (downloader y)
  = <[id := a]> (activeDownloads (downloader s)) →
  registered k = None →
  slotsOwned y.
Proof.
  intros [Hb Ho] Htid Ht Hk' Hn Ha Hk. split.
  - rewrite Ht, Hn. intros tid' H.
    destruct (decide (tid = tid')) as [<-|Hne]; [apply Hb; by rewrite Htid|].
    rewrite lookup_insert_ne, lookup_delete_ne in H by done. by apply Hb.
  - intros id' Hid. rewrite Ht. rewrite Ha in Hid.
    destruct (decide (id = id')) as [<-|Hne].
    + exists tid, k'. by rewrite lookup_insert_eq.
    + rewrite lookup_insert_ne in Hid by done.
      destruct (Ho id' Hid) as (tid0 & k0 & Htid0 & Hk0).
      exists tid0, k0. split; [|done].
      rewrite lookup_insert_ne, lookup_delete_ne; [done| |]; congruence.
Qed.

(** The call is over and has removed what it owned. *)
Lemma slotsOwned_end s tid k y :
  slotsOwned s → tasks s !! tid = Some k →
  tasks y = delete tid (tasks s) →
  nextTask y = nextTask s →
  (∀ id, is_Some (activeDownloads (downloader y) !! id) →
         is_Some (activeDownloads (downloader s) !! id)
         ∧ registered k ≠ Some id) →
  slotsOwned y.
Proof.
  intros [Hb Ho] Htid Ht Hn Ha. split.
  - rewrite Ht, Hn. intros tid' H.
    apply lookup_delete_is_Some in H as [_ H]. by apply Hb.
  - intros id Hid. destruct (Ha id Hid) as [Hs Hk].
    destruct (Ho id Hs) as (tid0 & k0 & Htid0 & Hk0).
    exists tid0, k0. split; [|done]. rewrite Ht.
    rewrite lookup_delete_ne; [done|]. congruence.
Qed.

Lemma is_Some_alter {A} (f : A → A) (m : gmap Z A) i j :
  is_Some (alter f i m !! j) → is_Some (m !! j).
Proof.
  destruct (decide (i = j)) as [<-|Hne].
  - rewrite lookup_alter_eq. by rewrite fmap_is_Some.
  - by rewrite lookup_alter_ne.
Qed.

Lemma is_Some_delete_owned {A} (m : gmap Z A) (fid id : Z) :
  is_Some (delete fid m !! id) → is_Some (m !! id) ∧ Some fid ≠ Some id.
Proof.
  intros H. apply lookup_delete_is_Some in H as [Hne H].
  split; [done|congruence].
Qed.

Ltac slots_side :=
  first
    [ reflexivity
    | by (project; intros ? ?)
    | by (project; intros ?; apply is_Some_alter)
    | by (project; intros ?; apply is_Some_delete_owned)
    | by (project; intros ? ?; split) ].

Ltac slots Hs Htid :=
  try apply slotsOwned_processQueue;
  first
    [ eapply (slotsOwned_continue _ _ _ _ _ Hs Htid); slots_side
    | eapply (slotsOwned_start _ _ _ _ _ _ _ Hs Htid); slots_side
    | eapply (slotsOwned_end _ _ _ _ Hs Htid); slots_side ].

Lemma resume_slotsOwned tid k r s s' :
  slotsOwned s → tasks s !! tid = Some k →
  resume tid k r (remove_task tid s) = Some s' → slotsOwned s'.
Proof.
  intros Hs Htid H.
  destruct k, r; cbn [resume] in H; try discriminate; injection H as <-;
    unfold downloadBatch_loop, queue_push, downloadFile_start,
      downloadFile_fetched, downloadFile_buffered, downloadFile_stat,
      downloadFile_count, downloadFile_check, downloadFile_getJob,
      downloadFile_catch, downloadFile_finish,
      completeJob, completeJob_begin, completeJob_getFiles,
      completeJob_collect, completeJob_zipped, completeJob_record,
      completeJob_log, completeJob_logFailure, completeJob_catch;
    repeat case_match; slots Hs Htid.
Qed.

Lemma step_slotsOwned s e s' :
  slotsOwned s → step s e = Some s' → slotsOwned s'.
Proof.
  intros Hs. destruct e as [jobId files|jobId now|tid r]; simpl.
  - intros [= <-]. apply slotsOwned_spawn. by apply (slotsOwned_quiet s).
  - intros [= <-]. apply slotsOwned_spawn. by apply (slotsOwned_quiet s).
  - destruct (tasks s !! tid) as [k|] eqn:Htid; [|done].
    by apply resume_slotsOwned.
Qed.

Lemma run_slotsOwned events s s' :
  slotsOwned s → run s events = Some s' → slotsOwned s'.
Proof.
  revert s. induction events as [|e events IH]; intros s Hs; simpl.
  - by intros [= <-].
  - destruct (step s e) as [s1|] eqn:E; [|done].
    apply IH. by apply (step_slotsOwned s e).
Qed.

(** X12. No entry of [activeDownloads] outlives its download.  Starting
    with no download under way, in every state the downloader reaches each
    entry belongs to a call of [downloadFile] that is still suspended
    between its [fetch] and its end; so once every call has returned the
    map is empty again and all slots are free, whatever failed or was
    cancelled on the way. *)
Theorem no_slot_is_leaked (s : State) (events : list Event) (s' : State) :
  slotsOwned s → run s events = Some s' →
  slotsOwned s'
  ∧ ((∀ tid k, tasks s' !! tid = Some k → registered k = None) →
     activeDownloads (downloader s') = ∅).
Proof.
  intros Hs Hrun. pose proof (run_slotsOwned _ _ _ Hs Hrun) as Hs'.
  split; [done|]. intros Hnone. apply map_empty. intros id.
  destruct (activeDownloads (downloader s') !! id) as [a|] eqn:E; [|done].
  destruct (slots_owned _ Hs' id) as (tid & k & Htid & Hk); [by rewrite E|].
  rewrite (Hnone _ _ Htid) in Hk. done.
Qed.

(** X12 at work: of four files in flight one fails, one is reverted after
    its job was cancelled, and two go on. *)
Lemma no_slot_is_leaked_witness :
  slotsOwned fourFiles
  ∧ slotsOwned
      (stateAfter fourFiles
         (submitFour ++ fetchFour
          ++ [Resume 1 (Fetched None true); Resume 1 (Settled 20);
              Call_cancelDownload 1 30;
              Resume 2 (Fetched (Some true) true); Resume 2 (Settled 40)]))
  ∧ size (activeDownloads
            (downloader
               (stateAfter fourFiles
                  (submitFour ++ fetchFour
                   ++ [Resume 1 (Fetched None true); Resume 1 (Settled 20);
                       Call_cancelDownload 1 30;
                       Resume 2 (Fetched (Some true) true);
                       Resume 2 (Settled 40)]))))
    = 2%nat.
Proof.
  set (events := submitFour ++ fetchFour
                 ++ [Resume 1 (Fetched None true); Resume 1 (Settled 20);
                     Call_cancelDownload 1 30;
                     Resume 2 (Fetched (Some true) true);
                     Resume 2 (Settled 40)]).
  assert (Hs : slotsOwned fourFiles).
  { split; intros x [y Hx]; vm_compute in Hx; discriminate. }
  assert (Hrun : run fourFiles events = Some (stateAfter fourFiles events))
    by (vm_compute; reflexivity).
  split; [exact Hs|].
  split; [exact (proj1 (no_slot_is_leaked _ _ _ Hs Hrun))|].
  vm_compute. reflexivity.
Defined.

(** ** Selection and batching in the download route *)

Lemma slice_inside {A} (i n : Z) (l : list A) :
  0 <= i → 0 <= n →
  slice i (i + n) l = take (Z.to_nat n) (drop (Z.to_nat i) l).
Proof.
  intros Hi Hn. unfold slice, relativeIndex.
  destruct (i <? 0) eqn:E1; [lia|]. destruct (i + n <? 0) eqn:E2; [lia|].
  set (len := Z.of_nat (length l)).
  destruct (decide (len <= i)) as [Hle|Hgt].
  - rewrite !drop_ge by lia. by rewrite !take_nil.
  - rewrite (Z.min_l i len) by lia.
    destruct (decide (i + n <= len)) as [Hin|Hout].
    + rewrite Z.min_l by lia. do 2 f_equal. lia.
    + rewrite Z.min_r by lia.
      rewrite !take_ge; [done| |]; rewrite length_drop; lia.
Qed.

Lemma take_drop_step {A} (i n : nat) (l : list A) :
  take n (drop i l) ++ drop (i + n) l = drop i l.
Proof. by rewrite <- drop_drop, take_drop. Qed.

Lemma batches_from_enough fuel i pdfsPerZip files :
  0 < pdfsPerZip → 0 <= i →
  Z.of_nat (length files) - i <= Z.of_nat fuel →
  ∃ batches,
    batches_from fuel i pdfsPerZip files = Some batches
    ∧ concat batches = drop (Z.to_nat i) files
    ∧ Forall (λ batch, (0 < length batch)%nat
                       ∧ Z.of_nat (length batch) <= pdfsPerZip) batches
    ∧ Z.of_nat (length batches) * pdfsPerZip
      < Z.max 0 (Z.of_nat (length files) - i) + pdfsPerZip.
Proof.
  intros Hp. revert i. induction fuel as [|fuel IH]; intros i Hi Hfuel.
  - exists []. simpl. rewrite (proj2 (Z.ltb_ge _ _)) by lia.
    split; [done|]. split; [by rewrite drop_ge by lia|]. split; [done|lia].
  - simpl. destruct (i <? Z.of_nat (length files)) eqn:E.
    + apply Z.ltb_lt in E.
      destruct (IH (i + pdfsPerZip)) as (batches & -> & Hcat & Hall & Hlen);
        [lia|lia|].
      eexists. split; [done|]. cbn [concat length].
      rewrite slice_inside by lia.
      split; [|split].
      * rewrite Hcat, Z2Nat.inj_add by lia. apply take_drop_step.
      * constructor; [|done]. rewrite length_take, length_drop. lia.
      * rewrite Nat2Z.inj_succ.
        destruct (length batches) as [|n]; [lia|].
        rewrite Nat2Z.inj_succ in *. nia.
    + apply Z.ltb_ge in E. exists []. split; [done|].
      split; [by rewrite drop_ge by lia|]. split; [done|]. simpl. lia.
Qed.

(** X13. With a positive [pdfsPerZip] the loop that cuts the selected
    files into batches ends within as many turns as there are files, and
    the batches are the selection cut in order: put one behind the other
    they give the selection back, none is empty, none holds more than
    [pdfsPerZip] files, and there are as few as that allows.  So every
    selected file is in exactly one job and the totals of the jobs add up
    to the number of selected files. *)
Theorem batches_cut_the_selection (pdfsPerZip : Z) (files : list PdfFile)
  (fuel : nat) :
  0 < pdfsPerZip → (length files <= fuel)%nat →
  ∃ batches,
    batches_from fuel 0 pdfsPerZip files = Some batches
    ∧ concat batches = files
    ∧ Forall (λ batch, (0 < length batch)%nat
                       ∧ Z.of_nat (length batch) <= pdfsPerZip) batches
    ∧ Z.of_nat (length batches)
      = (Z.of_nat (length files) + pdfsPerZip - 1) / pdfsPerZip
    ∧ list_sum (map length batches) = length files.
Proof.
  intros Hp Hfuel.
  destruct (batches_from_enough fuel 0 pdfsPerZip files)
    as (batches & Hrun & Hcat & Hall & Hlen); [lia..|].
  change (concat batches = files) in Hcat.
  exists batches. split; [done|]. split; [done|]. split; [done|].
  assert (Hsum : list_sum (map length batches) = length files)
    by (by rewrite <- length_concat, Hcat).
  split; [|done].
  assert (Hlow : Z.of_nat (length files)
                 <= Z.of_nat (length batches) * pdfsPerZip).
  { rewrite <- Hsum. clear -Hall.
    induction Hall as [|b bs [_ Hb] _ IH]; [done|].
    cbn [map length].
    change (list_sum (length b :: map length bs))
      with (length b + list_sum (map length bs))%nat.
    rewrite Nat2Z.inj_add, Nat2Z.inj_succ. lia. }
  rewrite Z.max_r in Hlen by lia.
  apply Z.div_unique with
    (r := Z.of_nat (length files) + pdfsPerZip - 1
          - pdfsPerZip * Z.of_nat (length batches)); lia.
Qed.

(** X13 at work: five files, two per batch. *)
Lemma batches_cut_the_selection_witness :
  0 < 2 ∧ (length [fileA; fileB; fileC; fileD; fileE] <= 5)%nat
  ∧ batches_from 5 0 2 [fileA; fileB; fileC; fileD; fileE]
    = Some [[fileA; fileB]; [fileC; fileD]; [fileE]].
Proof.
  assert (Hp : 0 < 2) by lia.
  assert (Hfuel : (length [fileA; fileB; fileC; fileD; fileE] <= 5)%nat)
    by (simpl; lia).
  split; [exact Hp|]. split; [exact Hfuel|].
  destruct (batches_cut_the_selection 2 [fileA; fileB; fileC; fileD; fileE] 5
              Hp Hfuel) as (batches & Hrun & _).
  rewrite Hrun. f_equal.
  assert (H : Some batches = Some [[fileA; fileB]; [fileC; fileD]; [fileE]])
    by (rewrite <- Hrun; vm_compute; reflexivity).
  by injection H.
Defined.

(** X14. A range request selects by position, counting from 1 and with
    both ends included, clipped to the list: for positive [rangeStart] and
    [rangeEnd] and no ids, the selection is the files at the positions
    [rangeStart] to [min rangeEnd (length allFiles)]; it is empty (and the
    route answers 400) exactly when that range is. *)
Theorem range_selects_by_position (rangeStart rangeEnd pdfsPerZip : Z)
  (allFiles : list PdfFile) :
  0 < rangeStart → 0 < rangeEnd →
  filesToDownload
    (mkDownloadRequest None (Some rangeStart) (Some rangeEnd) pdfsPerZip)
    allFiles
  = take (Z.to_nat (Z.min rangeEnd (Z.of_nat (length allFiles))
                    - (rangeStart - 1)))
      (drop (Z.to_nat (rangeStart - 1)) allFiles)
  ∧ Z.of_nat
      (length
         (filesToDownload
            (mkDownloadRequest None (Some rangeStart) (Some rangeEnd)
               pdfsPerZip) allFiles))
    = Z.max 0 (Z.min rangeEnd (Z.of_nat (length allFiles)) - rangeStart + 1)
  ∧ ∀ k file,
      filesToDownload
        (mkDownloadRequest None (Some rangeStart) (Some rangeEnd) pdfsPerZip)
        allFiles !! k = Some file →
      allFiles !! (Z.to_nat (rangeStart - 1) + k)%nat = Some file
      ∧ rangeStart + Z.of_nat k <= rangeEnd.
Proof.
  intros Hs He. unfold filesToDownload.
  cbn [req_ids req_rangeStart req_rangeEnd].
  set (len := Z.of_nat (length allFiles)).
  assert (Heq : slice (Z.max 0 (rangeStart - 1))
                  (Z.min (len - 1) (rangeEnd - 1) + 1) allFiles
                = take (Z.to_nat (Z.min rangeEnd len - (rangeStart - 1)))
                    (drop (Z.to_nat (rangeStart - 1)) allFiles)).
  { unfold slice, relativeIndex. fold len.
    destruct (Z.max 0 (rangeStart - 1) <? 0) eqn:E1; [lia|].
    destruct (Z.min (len - 1) (rangeEnd - 1) + 1 <? 0) eqn:E2; [lia|].
    destruct (decide (rangeStart - 1 <= len)) as [Hle|Hgt].
    - do 2 f_equal; lia.
    - rewrite !drop_ge by lia. by rewrite !take_nil. }
  rewrite Heq. split; [done|]. split.
  - rewrite length_take, length_drop. lia.
  - intros k file Hk. apply lookup_take_Some in Hk as [Hk Hlt].
    rewrite lookup_drop in Hk. split; [done|]. lia.
Qed.

(** X14 at work: positions 2 to 9 of five files. *)
Lemma range_selects_by_position_witness :
  0 < 2 ∧ 0 < 9
  ∧ filesToDownload (mkDownloadRequest None (Some 2) (Some 9) 100)
      [fileA; fileB; fileC; fileD; fileE]
    = [fileB; fileC; fileD; fileE].
Proof.
  assert (Hs : 0 < 2) by lia. assert (He : 0 < 9) by lia.
  split; [exact Hs|]. split; [exact He|].
  rewrite (proj1 (range_selects_by_position 2 9 100
                    [fileA; fileB; fileC; fileD; fileE] Hs He)).
  reflexivity.
Defined.

(** ** Grouping by record series *)

Lemma group_get_push k k' file groups :
  group_get k' (group_push k file groups) =
    if bool_decide (k = k')
    then Some (default [] (group_get k groups) ++ [file])
    else group_get k' groups.
Proof.
  induction groups as [|[key files] rest IH]; simpl.
  - destruct (String.eqb_spec k k') as [->|Hne].
    + by rewrite bool_decide_eq_true_2.
    + by rewrite bool_decide_eq_false_2.
  - destruct (String.eqb_spec key k) as [->|Hne]; simpl.
    + destruct (String.eqb_spec k k') as [->|Hne'].
      * by rewrite bool_decide_eq_true_2.
      * by rewrite bool_decide_eq_false_2.
    + rewrite IH. destruct (String.eqb_spec key k') as [->|Hne']; [|done].
      by rewrite bool_decide_eq_false_2 by congruence.
Qed.

Lemma group_get_None k groups : group_get k groups = None ↔ k ∉ groups.*1.
Proof.
  induction groups as [|[key files] rest IH]; simpl.
  - split; [intros _; apply not_elem_of_nil|done].
  - rewrite not_elem_of_cons, <- IH.
    destruct (String.eqb_spec key k) as [->|Hne]; [|split; [done|tauto]].
    split; [done|]. by intros [[] _].
Qed.

Lemma group_get_elem_of k files groups :
  NoDup groups.*1 → (k, files) ∈ groups ↔ group_get k groups = Some files.
Proof.
  induction groups as [|[key files'] rest IH]; simpl; intros Hnd.
  - split; [intros H; by apply elem_of_nil in H|done].
  - apply NoDup_cons in Hnd as [Hkey Hnd]. rewrite elem_of_cons, (IH Hnd).
    destruct (String.eqb_spec key k) as [->|Hne].
    + split; [|intros [= ->]; by left].
      intros [[= <-]|Hget]; [done|].
      apply group_get_None in Hkey. congruence.
    + split; [|by right]. intros [[= ? ?]|Hget]; [congruence|done].
Qed.

Lemma group_push_keys k file groups :
  (group_push k file groups).*1 =
    groups.*1 ++ (if group_get k groups is Some _ then [] else [k]).
Proof.
  induction groups as [|[key files] rest IH]; [done|].
  cbn [group_push group_get].
  destruct (String.eqb_spec key k) as [->|Hne].
  - rewrite !fmap_cons. by rewrite app_nil_r.
  - by rewrite !fmap_cons, IH.
Qed.

Lemma group_push_NoDup k file groups :
  NoDup groups.*1 → NoDup (group_push k file groups).*1.
Proof.
  intros Hnd. rewrite group_push_keys.
  destruct (group_get k groups) eqn:E; [by rewrite app_nil_r|].
  apply NoDup_app. split; [done|]. split; [|apply NoDup_singleton].
  intros key Hkey Hk. apply list_elem_of_singleton in Hk as ->.
  by apply group_get_None in E.
Qed.

Lemma group_push_total k file groups :
  list_sum (map (λ group : string * list PdfFile, length group.2)
              (group_push k file groups))
  = S (list_sum (map (λ group : string * list PdfFile, length group.2)
                   groups)).
Proof.
  induction groups as [|[key files] rest IH]; simpl; [done|].
  destruct (String.eqb key k); simpl.
  - rewrite length_app. simpl. lia.
  - rewrite IH. lia.
Qed.

Lemma seriesGroups_snoc allFiles file :
  seriesGroups (allFiles ++ [file])
  = group_push (seriesOf file) file (seriesGroups allFiles).
Proof. unfold seriesGroups. by rewrite fold_left_app. Qed.

Lemma ofSeries_snoc series allFiles file :
  ofSeries series (allFiles ++ [file])
  = ofSeries series allFiles
    ++ (if bool_decide (seriesOf file = series) then [file] else []).
Proof.
  unfold ofSeries. rewrite List.filter_app. simpl.
  by destruct (bool_decide (seriesOf file = series)).
Qed.

Lemma seriesGroups_get series allFiles :
  group_get series (seriesGroups allFiles) =
    match ofSeries series allFiles with
    | [] => None
    | files => Some files
    end.
Proof.
  induction allFiles as [|file allFiles IH] using rev_ind; [done|].
  rewrite seriesGroups_snoc, group_get_push, ofSeries_snoc.
  case_bool_decide as Hk.
  - subst series. rewrite IH.
    destruct (ofSeries (seriesOf file) allFiles); [done|]. done.
  - rewrite app_nil_r. exact IH.
Qed.

Lemma seriesGroups_NoDup allFiles : NoDup (seriesGroups allFiles).*1.
Proof.
  induction allFiles as [|file allFiles IH] using rev_ind;
    [apply NoDup_nil_2|].
  rewrite seriesGroups_snoc. by apply group_push_NoDup.
Qed.

Lemma seriesOf_shape file :
  String.length (seriesOf file) = 3%nat
  ∧ all_chars is_digit (seriesOf file) = true.
Proof.
  unfold seriesOf, match_prefix3.
  destruct (pf_filename file) as [|a [|b [|c rest]]]; try done.
  destruct (is_digit a) eqn:Ea, (is_digit b) eqn:Eb, (is_digit c) eqn:Ec;
    try done.
  simpl. by rewrite Ea, Eb, Ec.
Qed.

(** X15. The organized download puts every file into exactly one group,
    the group of its record series (the first three characters of the file
    name when they are digits, "000" otherwise): the series of the groups
    are pairwise different, the group of a series holds the files of that
    series in the order of the list and is never empty, and the group sizes
    add up to the number of files.  A series is always three digits. *)
Theorem series_groups_partition (allFiles : list PdfFile) :
  NoDup (seriesGroups allFiles).*1
  ∧ (∀ series files,
       (series, files) ∈ seriesGroups allFiles
       ↔ files = ofSeries series allFiles ∧ files ≠ [])
  ∧ (∀ file, file ∈ allFiles →
       (seriesOf file, ofSeries (seriesOf file) allFiles)
       ∈ seriesGroups allFiles)
  ∧ list_sum (map (λ group : string * list PdfFile, length group.2)
                (seriesGroups allFiles))
    = length allFiles
  ∧ (∀ series, series ∈ (seriesGroups allFiles).*1 →
       String.length series = 3%nat ∧ all_chars is_digit series = true).
Proof.
  pose proof (seriesGroups_NoDup allFiles) as Hnd.
  assert (Hin : ∀ series files,
            (series, files) ∈ seriesGroups allFiles
            ↔ files = ofSeries series allFiles ∧ files ≠ []).
  { intros series files. rewrite (group_get_elem_of _ _ _ Hnd).
    rewrite seriesGroups_get.
    destruct (ofSeries series allFiles) as [|file rest].
    - split; [done|]. by intros [-> ?].
    - split; [by intros [= <-]|by intros [-> _]]. }
  split; [done|]. split; [done|]. split; [|split].
  - intros file Hfile. apply Hin. split; [done|].
    assert (Hf : file ∈ ofSeries (seriesOf file) allFiles).
    { apply list_elem_of_In, filter_In. split; [by apply list_elem_of_In|].
      by apply bool_decide_eq_true_2. }
    intros Hnil. rewrite Hnil in Hf. by apply elem_of_nil in Hf.
  - clear Hnd Hin.
    induction allFiles as [|file allFiles IH] using rev_ind; [done|].
    rewrite seriesGroups_snoc, group_push_total, length_app, IH. simpl. lia.
  - intros series Hseries.
    apply list_elem_of_fmap in Hseries as ([series' files] & -> & Hgroup).
    apply Hin in Hgroup as [-> Hne]. simpl.
    destruct (ofSeries series' allFiles) as [|file rest] eqn:E; [done|].
    assert (Hf : In file (ofSeries series' allFiles)) by (rewrite E; by left).
    apply filter_In in Hf as [_ Hf]. apply bool_decide_eq_true in Hf as <-.
    apply seriesOf_shape.
Qed.

(** ** Job names and the files they stand for *)

Lemma span_digits_digits d :
  all_chars is_digit d = true → span_digits d = (d, "").
Proof.
  induction d as [|c d IH]; simpl; [done|].
  intros H. apply andb_true_iff in H as [Hc Hd]. by rewrite Hc, IH.
Qed.

(** A run of digits followed by something that does not begin with one. *)
Lemma span_digits_app d c r :
  all_chars is_digit d = true → is_digit c = false →
  span_digits (d ++ String c r) = (d, String c r).
Proof.
  intros Hd Hc. induction d as [|a d IH]; simpl.
  - by rewrite Hc.
  - simpl in Hd. apply andb_true_iff in Hd as [Ha Hd]. by rewrite Ha, IH.
Qed.

Lemma span_digits_fst s : all_chars is_digit (span_digits s).1 = true.
Proof.
  induction s as [|c s IH]; simpl; [done|].
  destruct (is_digit c) eqn:E; [|done].
  destruct (span_digits s) as [d r]. simpl in *. by rewrite E.
Qed.

Lemma match_digits_Some s d :
  match_digits s = Some d → all_chars is_digit d = true ∧ nonempty d = true.
Proof.
  revert d. induction s as [|c s IH]; intros d; [done|]. cbn [match_digits].
  destruct (is_digit c) eqn:E; [|apply IH].
  intros [= <-]. split; [exact (span_digits_fst (String c s))|].
  simpl. rewrite E. by destruct (span_digits s).
Qed.

Lemma match_Series_skip c s :
  after "Series " (String c s) = None →
  match_Series (String c s) = match_Series s.
Proof. intros H. cbn [match_Series]. by rewrite H. Qed.

Lemma match_Series_here s d :
  after "Series " s = Some d → all_chars is_digit d = true →
  nonempty d = true → match_Series s = Some d.
Proof.
  intros Hafter Hd Hne. destruct s as [|c s]; [done|].
  cbn [match_Series]. rewrite Hafter, span_digits_digits by done.
  cbn [fst]. by rewrite Hne.
Qed.

(** A name without a capital S names no series. *)
Lemma match_Series_None s :
  all_chars (λ c, negb (Ascii.eqb c "S")) s = true → match_Series s = None.
Proof.
  induction s as [|c s IH]; [done|]. simpl (all_chars _ _).
  intros H. apply andb_true_iff in H as [Hc Hs].
  rewrite match_Series_skip; [by apply IH|].
  cbn [after]. destruct (Ascii.eqb_spec "S" c) as [<-|]; [|done].
  vm_compute in Hc. discriminate.
Qed.

Lemma all_chars_app test s t :
  all_chars test (s ++ t) = all_chars test s && all_chars test t.
Proof.
  induction s as [|c s IH]; simpl; [done|]. by rewrite IH, andb_assoc.
Qed.

Lemma all_chars_impl (test test' : ascii → bool) s :
  (∀ c, test c = true → test' c = true) →
  all_chars test s = true → all_chars test' s = true.
Proof.
  intros Himpl. induction s as [|c s IH]; simpl; [done|].
  intros H. apply andb_true_iff in H as [Hc Hs].
  by rewrite (Himpl c Hc), IH.
Qed.

Lemma digit_not_S c : is_digit c = true → negb (Ascii.eqb c "S") = true.
Proof. destruct (Ascii.eqb_spec c "S") as [->|]; [by vm_compute|done]. Qed.

Lemma range_here_nondigit c s :
  is_digit c = false → range_here (String c s) = None.
Proof.
  intros Hc. unfold range_here. cbn [span_digits]. rewrite Hc. clear Hc.
  by destruct c as [[] [] [] [] [] [] [] []].
Qed.

Lemma match_range_skip c s :
  is_digit c = false → match_range (String c s) = match_range s.
Proof. intros Hc. cbn [match_range]. by rewrite range_here_nondigit. Qed.

(** A run of digits holds no range. *)
Lemma match_range_digits d :
  all_chars is_digit d = true → match_range d = None.
Proof.
  induction d as [|c d IH]; [done|]. intros Hd.
  cbn [match_range]. unfold range_here.
  rewrite (span_digits_digits _ Hd).
  simpl in Hd. apply andb_true_iff in Hd as [_ Hd]. by apply IH.
Qed.

Lemma match_range_found s m : range_here s = Some m → match_range s = Some m.
Proof. intros H. destruct s; cbn [match_range]; by rewrite H. Qed.

Lemma match_range_next c s :
  range_here (String c s) = None → match_range (String c s) = match_range s.
Proof. intros H. cbn [match_range]. by rewrite H. Qed.

(** Two runs of digits with "-" between them. *)
Lemma match_range_here a b :
  all_chars is_digit a = true → nonempty a = true →
  all_chars is_digit b = true → nonempty b = true →
  match_range (a ++ String "-" b) = Some (a, b).
Proof.
  intros Ha Hna Hb Hnb. apply match_range_found. unfold range_here.
  rewrite span_digits_app by done.
  rewrite span_digits_digits by done. cbn [fst]. by rewrite Hna, Hnb.
Qed.

(** A run of digits, "-" and something that does not begin with a digit
    and holds no range itself. *)
Lemma match_range_no_second a c r :
  all_chars is_digit a = true → is_digit c = false →
  match_range (String c r) = None →
  match_range (a ++ String "-" (String c r)) = None.
Proof.
  intros Ha Hc Hr. induction a as [|x a IH].
  - change ("" ++ String "-" (String c r))%string
      with (String "-" (String c r)).
    by rewrite match_range_skip.
  - change (String x a ++ String "-" (String c r))%string
      with (String x (a ++ String "-" (String c r))).
    rewrite match_range_next.
    + apply IH. simpl in Ha. by apply andb_true_iff in Ha as [_ Ha].
    + unfold range_here.
      change (String x (a ++ String "-" (String c r)))
        with (String x a ++ String "-" (String c r))%string.
      rewrite span_digits_app by done.
      cbn [span_digits]. rewrite Hc. cbn [fst nonempty].
      by rewrite andb_false_r.
Qed.

Ltac skip_Series :=
  repeat (rewrite match_Series_skip by reflexivity).

Ltac skip_range :=
  repeat (rewrite match_range_skip by reflexivity).

Lemma seriesJobName_Series file :
  match_Series (seriesJobName (seriesOf file)) = Some (seriesOf file).
Proof.
  destruct (seriesOf_shape file) as [Hlen Hdigits].
  unfold seriesJobName. rewrite !append_String, append_empty. skip_Series.
  apply match_Series_here; [reflexivity|done|].
  by destruct (seriesOf file).
Qed.

Lemma seriesJobName_range file :
  match_range (seriesJobName (seriesOf file)) = None.
Proof.
  destruct (seriesOf_shape file) as [_ Hdigits].
  unfold seriesJobName. rewrite !append_String, append_empty. skip_range.
  by apply match_range_digits.
Qed.

(** X16. The job the organized download creates for a record series is
    named after the series, and [completeJob] finds the files of the job by
    that name: a file belongs to it exactly when its name begins with the
    three digits of the series.  So a file whose name begins with three
    digits belongs to the job of its group, and a file that was put into
    group "000" because its name does not, belongs to no job.  The retry
    route looks for a range in the name and selects no file at all for such
    a job. *)
Theorem series_job_selects_by_prefix (job : DownloadJob)
  (file other : PdfFile) :
  job_name job = seriesJobName (seriesOf file) →
  belongsToJob job other
  = bool_decide (match_prefix3 (pf_filename other) = Some (seriesOf file))
  ∧ belongsToJob job file
    = bool_decide (is_Some (match_prefix3 (pf_filename file)))
  ∧ retrySelects job other = false.
Proof.
  intros Hname.
  assert (Hother : ∀ other,
            belongsToJob job other
            = bool_decide (match_prefix3 (pf_filename other)
                           = Some (seriesOf file))).
  { intros g. unfold belongsToJob. rewrite Hname, seriesJobName_Series.
    destruct (match_prefix3 (pf_filename g)) as [prefix|].
    - apply bool_decide_ext. split; [by intros ->|by intros [= ->]].
    - by rewrite bool_decide_eq_false_2. }
  split; [apply Hother|]. split.
  - rewrite Hother. unfold seriesOf.
    destruct (match_prefix3 (pf_filename file)) as [prefix|].
    + rewrite !bool_decide_eq_true_2; done.
    + rewrite !bool_decide_eq_false_2; [done| |done]. by intros [? ?].
  - unfold retrySelects. by rewrite Hname, seriesJobName_range.
Qed.

(** X16 at work: the job of series 104. *)
Lemma series_job_selects_by_prefix_witness :
  job_name (mkDownloadJob 1 "JFK Records Series 104" 5 0 None "queued" 0 None)
  = seriesJobName (seriesOf fileA)
  ∧ belongsToJob
      (mkDownloadJob 1 "JFK Records Series 104" 5 0 None "queued" 0 None)
      fileA = true
  ∧ retrySelects
      (mkDownloadJob 1 "JFK Records Series 104" 5 0 None "queued" 0 None)
      fileA = false.
Proof.
  assert (H : job_name (mkDownloadJob 1 "JFK Records Series 104" 5 0 None
                          "queued" 0 None)
              = seriesJobName (seriesOf fileA)) by reflexivity.
  split; [exact H|].
  destruct (series_job_selects_by_prefix _ fileA fileA H)
    as (_ & Hown & Hretry).
  split; [by rewrite Hown|exact Hretry].
Defined.

Lemma numberOf_no_S file :
  all_chars (λ c, negb (Ascii.eqb c "S")) (numberOf file) = true.
Proof.
  unfold numberOf.
  destruct (match_digits (pf_filename file)) as [d|] eqn:E; [|done].
  apply match_digits_Some in E as [Hd _].
  revert Hd. apply all_chars_impl, digit_not_S.
Qed.

Lemma batchJobName_Series firstFile lastFile :
  match_Series (batchJobName firstFile lastFile) = None.
Proof.
  apply match_Series_None. unfold batchJobName.
  by rewrite !all_chars_app, !numberOf_no_S.
Qed.

Lemma batchJobName_range firstFile lastFile :
  match_range (batchJobName firstFile lastFile) =
    match match_digits (pf_filename firstFile),
          match_digits (pf_filename lastFile) with
    | Some first, Some last => Some (first, last)
    | _, _ => None
    end.
Proof.
  unfold batchJobName, numberOf.
  destruct (match_digits (pf_filename firstFile)) as [a|] eqn:Ea;
    destruct (match_digits (pf_filename lastFile)) as [b|] eqn:Eb;
    try apply match_digits_Some in Ea as [Ha Hna];
    try apply match_digits_Some in Eb as [Hb Hnb];
    rewrite ?append_String, ?append_empty; skip_range.
  - by apply match_range_here.
  - by apply match_range_no_second.
  - by apply match_range_digits.
  - reflexivity.
Qed.

Lemma digits2_pos_size p : digits2_pos p = Pos.size p.
Proof. induction p as [p IH|p IH|]; simpl; by rewrite ?IH. Qed.

Lemma digits2_pos_shift k p :
  digits2_pos (Pos.iter xO p k) = (digits2_pos p + k)%positive.
Proof.
  induction k as [|k IH] using Pos.peano_ind.
  - simpl. lia.
  - rewrite Pos.iter_succ. cbn [digits2_pos]. rewrite IH. lia.
Qed.

Lemma Zpos_shift k p :
  Z.pos (Pos.iter xO p k) = Z.pos p * 2 ^ Z.pos k.
Proof.
  induction k as [|k IH] using Pos.peano_ind.
  - simpl. lia.
  - rewrite Pos.iter_succ, Pos2Z.inj_xO, IH, Pos2Z.inj_succ.
    rewrite Z.pow_succ_r by lia. lia.
Qed.

Lemma digits2_pos_bounds p :
  2 ^ (Z.pos (digits2_pos p) - 1) <= Z.pos p < 2 ^ Z.pos (digits2_pos p).
Proof.
  induction p as [p IH|p IH|]; [| |simpl; lia];
    cbn [digits2_pos]; rewrite Pos2Z.inj_succ;
    replace (Z.succ (Z.pos (digits2_pos p)) - 1)
      with (Z.succ (Z.pos (digits2_pos p) - 1)) by lia;
    rewrite !Z.pow_succ_r by lia;
    set (lo := 2 ^ (Z.pos (digits2_pos p) - 1)) in *;
    set (hi := 2 ^ Z.pos (digits2_pos p)) in *; lia.
Qed.

(** A positive integer below 2^53 as a binary64 float: the mantissa is the
    integer shifted to 53 bits. *)
Lemma binary_normalize_small p :
  Z.pos p < 2 ^ 53 →
  ∃ m, binary_normalize prec emax (Z.pos p) 0 false
       = S754_finite false m (Z.pos (digits2_pos p) - 53)
       ∧ Z.pos m = Z.pos p * 2 ^ (53 - Z.pos (digits2_pos p)).
Proof.
  intros Hp.
  assert (Hd : Z.pos (digits2_pos p) <= 53).
  { destruct (digits2_pos_bounds p) as [Hlo _].
    destruct (decide (Z.pos (digits2_pos p) <= 53)) as [|Hgt]; [done|].
    assert (2 ^ 53 <= 2 ^ (Z.pos (digits2_pos p) - 1))
      by (apply Z.pow_le_mono_r; lia).
    lia. }
  cbn [binary_normalize]. unfold binary_round, fexp, emin, prec, emax.
  rewrite Z.add_0_r.
  rewrite Z.max_l by lia.
  assert (Haux : ∀ m, Z.pos (digits2_pos m) = 53 →
    binary_round_aux 53 1024 false (Z.pos m) (Z.pos (digits2_pos p) - 53)
      loc_Exact
    = S754_finite false m (Z.pos (digits2_pos p) - 53)).
  { intros m Hm. unfold binary_round_aux, shr_fexp, fexp, emin.
    cbn [Zdigits2 shr_record_of_loc]. rewrite Hm.
    rewrite Z.max_l by lia.
    replace (53 + (Z.pos (digits2_pos p) - 53) - 53
             - (Z.pos (digits2_pos p) - 53)) with 0 by lia.
    cbn [shr shr_m loc_of_shr_record round_nearest_even Zdigits2
         shr_record_of_loc]. rewrite Hm.
    rewrite Z.max_l by lia.
    replace (53 + (Z.pos (digits2_pos p) - 53) - 53
             - (Z.pos (digits2_pos p) - 53)) with 0 by lia.
    cbn [shr shr_m].
    destruct (Z.leb_spec (Z.pos (digits2_pos p) - 53) (1024 - 53));
      [done|lia]. }
  unfold shl_align.
  destruct (Z.pos (digits2_pos p) - 53 - 0) as [|k|k] eqn:Ek; [|lia|].
  - assert (E0 : Z.pos (digits2_pos p) - 53 = 0) by lia.
    exists p. rewrite E0 in Haux |- *. split; [apply Haux; lia|].
    replace (53 - Z.pos (digits2_pos p)) with 0 by lia. lia.
  - exists (Pos.iter xO p k). split.
    + apply Haux. rewrite digits2_pos_shift. lia.
    + rewrite Zpos_shift. do 2 f_equal. lia.
Qed.

Lemma SFleb_small a b :
  0 <= a < 2 ^ 53 → 0 <= b < 2 ^ 53 →
  SFleb (binary_normalize prec emax a 0 false)
    (binary_normalize prec emax b 0 false)
  = (a <=? b).
Proof.
  intros Ha Hb. unfold SFleb.
  destruct a as [|p|p]; [|
    destruct (binary_normalize_small p) as (mp & -> & Hmp); [lia|] |lia];
    (destruct b as [|q|q]; [|
       destruct (binary_normalize_small q) as (mq & -> & Hmq); [lia|] |lia]);
    try done.
  cbn [SFcompare].
  pose proof (digits2_pos_bounds p) as [Hp1 Hp2].
  pose proof (digits2_pos_bounds q) as [Hq1 Hq2].
  destruct (Z.compare_spec (Z.pos (digits2_pos p) - 53)
              (Z.pos (digits2_pos q) - 53)) as [Heq|Hlt|Hgt].
  - rewrite Pos.compare_cont_spec. cbn [Pos.switch_Eq].
    assert (Hd : Z.pos (digits2_pos p) = Z.pos (digits2_pos q)) by lia.
    rewrite Hd in Hmp.
    assert (Hpow : 0 < 2 ^ (53 - Z.pos (digits2_pos q))).
    { apply Z.pow_pos_nonneg; [lia|].
      assert (Z.pos (digits2_pos q) <= 53); [|lia].
      destruct (decide (Z.pos (digits2_pos q) <= 53)) as [|Hgt]; [done|].
      assert (2 ^ 53 <= 2 ^ (Z.pos (digits2_pos q) - 1))
        by (apply Z.pow_le_mono_r; lia).
      lia. }
    change (Z.pos p <=? Z.pos q) with
      (match Z.pos p ?= Z.pos q with Gt => false | _ => true end).
    assert (Hcmp : (mp ?= mq)%positive = (Z.pos p ?= Z.pos q)).
    { change ((mp ?= mq)%positive) with (Z.pos mp ?= Z.pos mq).
      rewrite Hmp, Hmq.
      destruct (Z.compare_spec (Z.pos p) (Z.pos q)) as [E|E|E].
      - rewrite E. apply Z.compare_refl.
      - apply Z.compare_lt_iff. nia.
      - apply Z.compare_gt_iff. nia. }
    rewrite Hcmp. by destruct (Z.pos p ?= Z.pos q).
  - assert (Z.pos p < Z.pos q).
    { assert (2 ^ Z.pos (digits2_pos p) <= 2 ^ (Z.pos (digits2_pos q) - 1))
        by (apply Z.pow_le_mono_r; lia).
      lia. }
    symmetry. apply Z.leb_le. lia.
  - assert (Z.pos q < Z.pos p).
    { assert (2 ^ Z.pos (digits2_pos q) <= 2 ^ (Z.pos (digits2_pos p) - 1))
        by (apply Z.pow_le_mono_r; lia).
      lia. }
    symmetry. apply Z.leb_gt. lia.
Qed.

(** Below 2^53 the order of the numbers is the order of the integers. *)
Lemma toNumber_leb a b :
  0 <= a < 2 ^ 53 → 0 <= b < 2 ^ 53 →
  PrimFloat.leb (toNumber a) (toNumber b) = (a <=? b).
Proof.
  intros Ha Hb.
  assert (Hint : ∀ n, 0 <= n < 2 ^ 53 →
                      toNumber n = of_uint63 (Uint63.of_Z n)).
  { intros n Hn. unfold toNumber.
    rewrite <- (SF2Prim_Prim2SF (of_uint63 (Uint63.of_Z n))).
    f_equal. rewrite of_uint63_spec, Uint63.of_Z_spec.
    rewrite Z.mod_small; [done|].
    change wB with (2 ^ 63). split; [lia|].
    assert (2 ^ 53 < 2 ^ 63) by (apply Z.pow_lt_mono_r; lia). lia. }
  rewrite leb_spec, !Hint, !of_uint63_spec, !Uint63.of_Z_spec by done.
  assert (H63 : 2 ^ 53 < wB)
    by (change wB with (2 ^ 63); apply Z.pow_lt_mono_r; lia).
  rewrite !Z.mod_small by lia.
  by apply SFleb_small.
Qed.

Lemma parseInt_from_bound d acc :
  0 <= acc →
  0 <= parseInt_from acc d < (acc + 1) * 10 ^ Z.of_nat (String.length d).
Proof.
  revert acc. induction d as [|c d IH]; intros acc Hacc.
  - simpl. lia.
  - cbn [parseInt_from String.length]. rewrite Nat2Z.inj_succ.
    rewrite Z.pow_succ_r by lia.
    destruct (is_digit c) eqn:E.
    + unfold is_digit in E. apply andb_true_iff in E as [E1 E2].
      apply Nat.leb_le in E1, E2.
      specialize (IH (10 * acc + (Z.of_nat (nat_of_ascii c) - 48))).
      assert (0 <= 10 ^ Z.of_nat (String.length d))
        by (apply Z.pow_nonneg; lia).
      nia.
    + assert (0 < 10 ^ Z.of_nat (String.length d))
        by (apply Z.pow_pos_nonneg; lia).
      nia.
Qed.

(** A run of at most 15 digits is read without rounding. *)
Lemma parseInt_short d :
  nonempty d = true → all_chars is_digit d = true →
  (String.length d <= 15)%nat →
  parseInt d = toNumber (parseInt_from 0 d)
  ∧ 0 <= parseInt_from 0 d < 2 ^ 53.
Proof.
  intros Hne Hd Hlen. split.
  - destruct d as [|c d]; [done|]. cbn [parseInt all_chars] in *.
    apply andb_true_iff in Hd as [-> _]. done.
  - destruct (parseInt_from_bound d 0) as [Hlo Hhi]; [lia|].
    split; [done|].
    assert (10 ^ Z.of_nat (String.length d) <= 10 ^ 15)
      by (apply Z.pow_le_mono_r; lia).
    assert (10 ^ 15 < 2 ^ 53) by (vm_compute; reflexivity).
    lia.
Qed.

(** X17. The job of a batch is named after the first run of digits in
    the names of its first and its last file, and [completeJob] and the
    retry route both find the files of the job by that name: a file belongs
    to it exactly when the first run of digits in its own name, read by
    [parseInt] into a number, lies between these two read the same way.
    Runs of at most 15 digits are read without rounding and are compared
    as the integers they denote; longer runs are rounded to the nearest
    binary64 float first.  Which batch a file was in plays no part; when
    the first or the last file of the batch has no digit in its name, no
    file belongs to the job. *)
Theorem batch_job_selects_by_number (job : DownloadJob)
  (firstFile lastFile other : PdfFile) :
  job_name job = batchJobName firstFile lastFile →
  belongsToJob job other
  = match match_digits (pf_filename firstFile),
          match_digits (pf_filename lastFile),
          match_digits (pf_filename other) with
    | Some first, Some last, Some digits =>
        PrimFloat.leb (parseInt first) (parseInt digits)
        && PrimFloat.leb (parseInt digits) (parseInt last)
    | _, _, _ => false
    end
  ∧ retrySelects job other = belongsToJob job other
  ∧ ∀ first last digits,
      match_digits (pf_filename firstFile) = Some first →
      match_digits (pf_filename lastFile) = Some last →
      match_digits (pf_filename other) = Some digits →
      (String.length first <= 15)%nat → (String.length last <= 15)%nat →
      (String.length digits <= 15)%nat →
      belongsToJob job other
      = (parseInt_from 0 first <=? parseInt_from 0 digits)
        && (parseInt_from 0 digits <=? parseInt_from 0 last).
Proof.
  intros Hname.
  assert (Hsel : belongsToJob job other
    = match match_digits (pf_filename firstFile),
            match_digits (pf_filename lastFile),
            match_digits (pf_filename other) with
      | Some first, Some last, Some digits =>
          PrimFloat.leb (parseInt first) (parseInt digits)
          && PrimFloat.leb (parseInt digits) (parseInt last)
      | _, _, _ => false
      end).
  { unfold belongsToJob.
    rewrite Hname, batchJobName_Series, batchJobName_range.
    destruct (match_digits (pf_filename firstFile)),
      (match_digits (pf_filename lastFile)); done. }
  split; [exact Hsel|]. split.
  - unfold belongsToJob, retrySelects.
    by rewrite Hname, batchJobName_Series, batchJobName_range.
  - intros first last digits Hfirst Hlast Hdigits Hlf Hll Hld.
    rewrite Hsel, Hfirst, Hlast, Hdigits.
    apply match_digits_Some in Hfirst as [Hf1 Hf2].
    apply match_digits_Some in Hlast as [Hl1 Hl2].
    apply match_digits_Some in Hdigits as [Hd1 Hd2].
    destruct (parseInt_short first Hf2 Hf1 Hlf) as [-> Hfb].
    destruct (parseInt_short last Hl2 Hl1 Hll) as [-> Hlb].
    destruct (parseInt_short digits Hd2 Hd1 Hld) as [-> Hdb].
    by rewrite !toNumber_leb.
Qed.

(** X17 at work: a batch from file A to file B, and file E, which was in
    no batch of the job and belongs to it; and a job named after a run of
    16 digits, which rounding makes select a file with another number. *)
Lemma batch_job_selects_by_number_witness :
  job_name (mkDownloadJob 1 "JFK Records 104-104" 2 0 None "queued" 0 None)
  = batchJobName fileA fileB
  ∧ belongsToJob
      (mkDownloadJob 1 "JFK Records 104-104" 2 0 None "queued" 0 None) fileE
    = true
  ∧ job_name
      (mkDownloadJob 2 "JFK Records 9007199254740993-9007199254740993" 1 0
         None "queued" 0 None)
    = batchJobName (scanned 6 "9007199254740993.pdf")
        (scanned 6 "9007199254740993.pdf")
  ∧ belongsToJob
      (mkDownloadJob 2 "JFK Records 9007199254740993-9007199254740993" 1 0
         None "queued" 0 None)
      (scanned 7 "9007199254740992.pdf")
    = true.
Proof.
  assert (H : job_name (mkDownloadJob 1 "JFK Records 104-104" 2 0 None
                          "queued" 0 None)
              = batchJobName fileA fileB) by reflexivity.
  assert (H' : job_name
                 (mkDownloadJob 2
                    "JFK Records 9007199254740993-9007199254740993" 1 0
                    None "queued" 0 None)
               = batchJobName (scanned 6 "9007199254740993.pdf")
                   (scanned 6 "9007199254740993.pdf")) by reflexivity.
  split; [exact H|]. split.
  - rewrite (proj1 (batch_job_selects_by_number _ fileA fileB fileE H)).
    vm_compute. reflexivity.
  - split; [exact H'|].
    rewrite (proj1 (batch_job_selects_by_number _ _ _
                      (scanned 7 "9007199254740992.pdf") H')).
    vm_compute. reflexivity.
Defined.

(** ** The archive: its name and its members *)

Lemma lower_plain c :
  is_space c = false → negb (is_space (lower c)) && negb (is_upper (lower c))
                       = true.
Proof. destruct c as [[] [] [] [] [] [] [] []]; by vm_compute. Qed.

Lemma lowered_replaced_plain in_run s :
  all_chars (λ c, negb (is_space c) && negb (is_upper c))
    (toLowerCase (replace_spaces in_run s)) = true.
Proof.
  revert in_run. induction s as [|c s IH]; intros in_run; [done|].
  cbn [replace_spaces]. destruct (is_space c) eqn:E.
  - destruct in_run; [apply IH|]. cbn [toLowerCase all_chars].
    by rewrite IH.
  - cbn [toLowerCase all_chars]. by rewrite lower_plain, IH.
Qed.

(** X18. Whatever the name of the job, the file name of its archive holds
    no white space and no capital letter A to Z: it is "jfk-docs-", the
    name in lower case with every run of white space replaced by one "-",
    and ".zip". *)
Theorem zip_name_is_plain (job : DownloadJob) :
  all_chars (λ c, negb (is_space c) && negb (is_upper c)) (zipFileNameOf job)
  = true.
Proof.
  unfold zipFileNameOf. by rewrite !all_chars_app, lowered_replaced_plain.
Qed.

Lemma firstValid_Some tempDir matching path :
  firstValid tempDir matching = Some path →
  ∃ tempFile size,
    (tempFile, Some size) ∈ matching ∧ 0 < size
    ∧ path = path_join tempDir tempFile.
Proof.
  induction matching as [|[tempFile [size|]] rest IH]; simpl; [done| |].
  - destruct (0 <? size) eqn:E.
    + intros [= <-]. exists tempFile, size. apply Z.ltb_lt in E.
      split; [apply list_elem_of_here|done].
    + intros H. destruct (IH H) as (t & sz & Hin & Hsz & Hp).
      exists t, sz. split; [by apply list_elem_of_further|done].
  - intros H. destruct (IH H) as (t & sz & Hin & Hsz & Hp).
    exists t, sz. split; [by apply list_elem_of_further|done].
Qed.

Lemma firstValid_finds tempDir matching tempFile size :
  (tempFile, Some size) ∈ matching → 0 < size →
  is_Some (firstValid tempDir matching).
Proof.
  intros Hin Hsize.
  induction matching as [|[t [sz|]] rest IH]; [by apply elem_of_nil in Hin| |].
  - simpl. destruct (0 <? sz) eqn:E; [done|].
    apply elem_of_cons in Hin as [[= -> ->]|Hin]; [|by apply IH].
    apply Z.ltb_ge in E. lia.
  - simpl. apply elem_of_cons in Hin as [[=]|Hin]. by apply IH.
Qed.

Lemma length_omap_le {A B} (f : A → option B) (l : list A) :
  (length (omap f l) <= length l)%nat.
Proof.
  induction l as [|x l IH]; [done|].
  change (omap f (x :: l))
    with (match f x with Some y => y :: omap f l | None => omap f l end).
  destruct (f x); simpl; lia.
Qed.

(** X19. The members of the archive: [completeJob] takes at most one
    staged file per completed file of the job, and every path it takes is
    that of an entry of the temp directory that exists with a size above 0
    and whose name contains the name of a completed file of the job. *)
Theorem archive_members_are_staged (tempDir : string)
  (allTempFiles : list DirEntry) (completedFiles : list PdfFile) :
  (length (resolveTempFiles tempDir allTempFiles completedFiles)
   <= length completedFiles)%nat
  ∧ ∀ path,
      path ∈ resolveTempFiles tempDir allTempFiles completedFiles →
      ∃ file tempFile size,
        file ∈ completedFiles
        ∧ (tempFile, Some size) ∈ allTempFiles
        ∧ 0 < size
        ∧ includes tempFile (pf_filename file) = true
        ∧ path = path_join tempDir tempFile.
Proof.
  unfold resolveTempFiles. split.
  - apply length_omap_le.
  - intros path Hpath.
    apply list_elem_of_omap in Hpath as (file & Hfile & Hvalid).
    apply firstValid_Some in Hvalid as (tempFile & size & Hin & Hsize & ->).
    apply list_elem_of_In, filter_In in Hin as [Hin Hinc].
    exists file, tempFile, size. repeat split; try done.
    by apply list_elem_of_In.
Qed.

Lemma prefix_same s : String.prefix s s = true.
Proof.
  induction s as [|c s IH]; [done|]. simpl.
  by destruct (ascii_dec c c).
Qed.

Lemma includes_same s : includes s s = true.
Proof. destruct s; cbn [includes]; by rewrite prefix_same. Qed.

(** The name [downloadFile] stages a file under contains the file name. *)
Lemma includes_staged stamp name :
  includes (stamp ++ "-" ++ name)%string name = true.
Proof. do 2 apply includes_append_r. apply includes_same. Qed.

(** X20. What [downloadFile] stages, [completeJob] finds: when the temp
    directory holds an entry with a size above 0 under the name a download
    of a completed file of the job was staged under (a time stamp, "-" and
    the file name), the archiving step does not fail for want of files: it
    goes on to [zipper.createZip] with at least one member and leaves the
    job record alone. *)
Theorem staged_file_is_found (s : State) (tid : nat) (jobId : Z)
  (caller : PdfFile) (job : DownloadJob) (allFiles : list PdfFile)
  (listing : list DirEntry) (file : PdfFile) (stamp size now : Z) :
  tasks s !! tid = Some (CJ_files jobId caller job allFiles) →
  file ∈ completedFilesOf job allFiles →
  ((pretty stamp ++ "-" ++ pf_filename file)%string, Some size) ∈ listing →
  0 < size →
  ∃ s1 tempFiles,
    step s (Resume tid (Listed (inr listing) now)) = Some s1
    ∧ tasks s1 !! tid
      = Some (CJ_zip jobId caller job tempFiles (zipFileNameOf job)
                (path_join (downloadsDir s) (zipFileNameOf job)))
    ∧ tempFiles
      = resolveTempFiles (tempDir s) listing (completedFilesOf job allFiles)
    ∧ (0 < length tempFiles)%nat
    ∧ storage s1 = storage s.
Proof.
  intros Htid Hfile Hentry Hsize.
  set (tempFiles := resolveTempFiles (tempDir s) listing
                      (completedFilesOf job allFiles)).
  assert (Hlen : (0 < length tempFiles)%nat).
  { destruct (firstValid_finds (tempDir s)
                (List.filter (λ t : DirEntry, includes t.1 (pf_filename file))
                   listing)
                (pretty stamp ++ "-" ++ pf_filename file)%string size)
      as [path Hpath]; [|done|].
    { apply list_elem_of_In, filter_In. split; [by apply list_elem_of_In|].
      apply includes_staged. }
    assert (Hin : path ∈ tempFiles).
    { apply list_elem_of_omap. by exists file. }
    destruct tempFiles; [by apply elem_of_nil in Hin|simpl; lia]. }
  eexists _, tempFiles. split.
  - rewrite (step_Resume _ _ _ _ Htid). cbn [resume].
    unfold completeJob_collect.
    change (tempDir (remove_task tid s)) with (tempDir s). fold tempFiles.
    rewrite bool_decide_eq_false_2 by lia. reflexivity.
  - split; [simpl; by rewrite lookup_insert_eq|]. by repeat split.
Qed.

(** X20 at work: file A of the job of one file. *)
Lemma staged_file_is_found_witness :
  tasks (stateAfter twoFilesJobOfOne untilListing) !! 1%nat
  = Some (CJ_files 1 fileA
            (mkDownloadJob 1 "JFK Records 104-104" 1 1 (Some "Calculating...")
               "in progress" 0 None)
            [fileA_completed;
             mkPdfFile 2 "https://www.archives.gov/files/104-10002-10002.pdf"
               "104-10002-10002.pdf" (Some "Unknown") downloading 0 0])
  ∧ ∃ s1 tempFiles,
      step (stateAfter twoFilesJobOfOne untilListing)
        (Resume 1 (Listed (inr stagedA) 1700000003000)) = Some s1
      ∧ tempFiles = ["/app/temp/1700000000000-104-10001-10001.pdf"].
Proof.
  set (s := stateAfter twoFilesJobOfOne untilListing).
  set (job := mkDownloadJob 1 "JFK Records 104-104" 1 1 (Some "Calculating...")
                "in progress" 0 None).
  set (fileB' := mkPdfFile 2
                   "https://www.archives.gov/files/104-10002-10002.pdf"
                   "104-10002-10002.pdf" (Some "Unknown") downloading 0 0).
  assert (Htid : tasks s !! 1%nat
                 = Some (CJ_files 1 fileA job [fileA_completed; fileB']))
    by (vm_compute; reflexivity).
  split; [exact Htid|].
  destruct (staged_file_is_found s 1 1 fileA job [fileA_completed; fileB']
              stagedA fileA_completed 1700000000000 2048 1700000003000 Htid)
    as (s1 & tempFiles & Hstep & _ & Heq & _).
  - vm_compute. apply list_elem_of_here.
  - vm_compute. apply list_elem_of_here.
  - lia.
  - exists s1, tempFiles. split; [exact Hstep|]. rewrite Heq.
    vm_compute. reflexivity.
Defined.

(** ** The download that completes a job *)

Lemma belongsToJob_names job job' file file' :
  job_name job' = job_name job → pf_filename file' = pf_filename file →
  belongsToJob job' file' = belongsToJob job file.
Proof. intros Hj Hf. unfold belongsToJob. by rewrite Hj, Hf. Qed.

Lemma resolveTempFiles_finds tempDir listing files file tempFile size :
  file ∈ files → (tempFile, Some size) ∈ listing → 0 < size →
  includes tempFile (pf_filename file) = true →
  (0 < length (resolveTempFiles tempDir listing files))%nat.
Proof.
  intros Hfile Hentry Hsize Hinc.
  destruct (firstValid_finds tempDir
              (List.filter (λ t : DirEntry, includes t.1 (pf_filename file))
                 listing) tempFile size) as [path Hpath]; [|done|].
  { apply list_elem_of_In, filter_In. split; [by apply list_elem_of_In|done]. }
  assert (Hin : path ∈ resolveTempFiles tempDir listing files).
  { apply list_elem_of_omap. by exists file. }
  destruct (resolveTempFiles tempDir listing files);
    [by apply elem_of_nil in Hin|simpl; lia].
Qed.

Lemma getPdfFiles_elem_of st id file :
  pdfFiles st !! id = Some file → file ∈ getPdfFiles st.
Proof.
  intros H. unfold getPdfFiles. apply elem_of_values_by_id. by exists id.
Qed.

Lemma completedFilesOf_elem_of job allFiles file :
  file ∈ allFiles → belongsToJob job file = true →
  pf_status file = completed → file ∈ completedFilesOf job allFiles.
Proof.
  intros Hin Hb Hc. unfold completedFilesOf.
  apply list_elem_of_In, filter_In. split.
  - apply filter_In. split; [by apply list_elem_of_In|done].
  - by apply bool_decide_eq_true_2.
Qed.

Lemma remove_suspend tid k x :
  remove_task tid (suspend tid k x) = remove_task tid x.
Proof.
  destruct x. unfold remove_task, suspend. simpl. f_equal.
  apply delete_insert_eq.
Qed.

(** One resumption of a task that has just been suspended; the state is
    kept short. *)
Ltac resume_next :=
  resume_step; rewrite ?remove_suspend.

Ltac project_in H :=
  cbn [storage downloader tempDir downloadsDir tasks nextTask started
       maxConcurrentDownloads activeDownloads queue cancelledJobs
       suspend spawn remove_task record_started on_storage on_downloader
       storage_updatePdfFile storage_updateDownloadJob activeDownloads_delete
       set_activeDownloads set_queue set_cancelledJobs] in H.

Lemma getPdfFiles_files st st' :
  pdfFiles st' = pdfFiles st → getPdfFiles st' = getPdfFiles st.
Proof. unfold getPdfFiles. by intros ->. Qed.

Lemma completedFilesOf_name job job' allFiles :
  job_name job' = job_name job →
  completedFilesOf job' allFiles = completedFilesOf job allFiles.
Proof.
  intros Hname. unfold completedFilesOf. f_equal.
  apply filter_ext. intros file. by apply belongsToJob_names.
Qed.

(** The observations of the state the archiving starts from, as
    observations of the state the download resumed in. *)
Ltac conclude Hm Hc Hh Ha :=
  project_in Hm; project_in Hc; project_in Hh; project_in Ha;
  rewrite !updatePdfFile_completed, !updatePdfFile_completedCounter in Hc;
  rewrite !updatePdfFile_history, !updatePdfFile_historyCounter in Hh;
  rewrite delete_alter_same in Ha;
  repeat split; try assumption;
  rewrite Hm; unfold archiveMembers; do 3 f_equal; symmetry;
  apply getPdfFiles_files, updateDownloadJob_files.

(** From the third statement after the write of the file: the counter, the
    check, and an archiving that works. *)
Lemma archives_from tid jobId file job record listing tempFile size zipSize t
  x :
  downloadJobs (storage x) !! jobId = Some job →
  job_downloadedFiles job + 1 >= job_totalFiles job →
  pdfFiles (storage x) !! pf_id file = Some record →
  pf_status record = completed →
  belongsToJob job record = true →
  (tempFile, Some size) ∈ listing → 0 < size →
  includes tempFile (pf_filename record) = true →
  ∃ s' members,
    run (downloadFile_getJob tid jobId file x)
      (Resume tid (Settled t) :: Resume tid (Settled t)
       :: Resume tid (Settled t) :: archive tid listing zipSize t)
    = Some s'
    ∧ members
      = length (archiveMembers job listing (tempDir x) (storage x))
    ∧ (0 < members)%nat
    ∧ downloadJobs (storage s') !! jobId
      = Some (mkDownloadJob (job_id job) (job_name job) (job_totalFiles job)
                (job_downloadedFiles job + 1) (Some (formatSize zipSize))
                "completed" (job_createdAt job) (Some t))
    ∧ completedDownloads (storage s')
      = <[completedDownloadsCounter (storage x) :=
            archiveRecord (completedDownloadsCounter (storage x))
              (job_name job) members zipSize (downloadsDir x) t]>
          (completedDownloads (storage x))
    ∧ historyEntries (storage s')
      = <[historyCounter (storage x) :=
            completionEntry (historyCounter (storage x)) (job_name job)
              members t]>
          (historyEntries (storage x))
    ∧ activeDownloads (downloader s')
      = delete (pf_id file) (activeDownloads (downloader x)).
Proof.
  intros Hjob Hge Hrec Hdone Hbelongs Hentry Hsize Hinc.
  unfold archive. cbn [app].
  unfold downloadFile_getJob, getDownloadJob. rewrite Hjob.
  resume_next. unfold downloadFile_count.
  resume_next. unfold downloadFile_check.
  rewrite bool_decide_eq_true_2 by done.
  unfold completeJob, getDownloadJob. project.
  rewrite updateDownloadJob_lookup, decide_True, Hjob by done.
  cbn [fmap option_fmap option_map].
  set (job1 := spreadDownloadJob job _).
  resume_next. unfold completeJob_begin.
  resume_next. unfold completeJob_getFiles. project.
  resume_next. unfold completeJob_collect. project.
  assert (Hsame :
    resolveTempFiles (tempDir x) listing
      (completedFilesOf job1
         (getPdfFiles
            (updateDownloadJob jobId (withJobStatus "creating zip")
               (updateDownloadJob jobId
                  (withDownloaded (job_downloadedFiles job + 1)
                     (sizeOrCalculating (job_size job))) (storage x)).2).2))
    = archiveMembers job listing (tempDir x) (storage x)).
  { unfold archiveMembers. f_equal.
    rewrite (completedFilesOf_name job job1) by reflexivity. f_equal.
    apply getPdfFiles_files. by rewrite !updateDownloadJob_files. }
  rewrite Hsame. clear Hsame.
  set (tempFiles := archiveMembers job listing (tempDir x) (storage x)).
  assert (Hmembers : (0 < length tempFiles)%nat).
  { apply (resolveTempFiles_finds _ _ _ record tempFile size); try done.
    apply completedFilesOf_elem_of; [|done..].
    by apply (getPdfFiles_elem_of _ (pf_id file)). }
  rewrite bool_decide_eq_false_2 by lia.
  resume_next. unfold completeJob_zipped.
  resume_next. unfold completeJob_record.
  resume_next. unfold completeJob_log.
  resume_next. resume_next. unfold downloadFile_finish. cbn [run].
  eexists _, (length tempFiles). split; [reflexivity|].
  split; [reflexivity|]. split; [exact Hmembers|].
  match goal with
  | |- context [processQueue ?y] =>
      destruct (processQueue_same y) as [Ha _ _ Hj Hc Hh _ _ _ _]
  end.
  rewrite Ha, Hj, Hc, Hh. clear Ha Hj Hc Hh.
  unfold activeDownloads_delete. project.
  cbn [createHistoryEntry createCompletedDownload snd downloadJobs
       completedDownloads historyEntries completedDownloadsCounter
       historyCounter].
  rewrite !updateDownloadJob_lookup, !decide_True, Hjob by done.
  rewrite !updateDownloadJob_completed, !updateDownloadJob_history,
    !updateDownloadJob_completedCounter, !updateDownloadJob_historyCounter.
  repeat split; reflexivity.
Qed.

(** X21. The download that brings the counter of its job to the total.
    When the response body arrives and the file is written, the call goes
    on into [completeJob]; if the record of the file belongs to the job by
    its name and the temp directory lists a staged file of it with a
    positive size, the archive is made of at least one member, the job ends
    "completed" with the counter raised by one, the formatted size of the
    archive and the completion date, one archive record and one history
    entry are created under the next ids, and the entry of
    [activeDownloads] is removed. *)
Theorem last_download_archives_the_job (s : State) (tid : nat) (jobId : Z)
  (file : PdfFile) (tempFilePath : string) (job : DownloadJob)
  (record : PdfFile) (listing : list DirEntry) (tempFile : string)
  (bytes size zipSize t : Z) :
  tasks s !! tid = Some (DF_buffer jobId file tempFilePath) →
  downloadJobs (storage s) !! jobId = Some job →
  job_downloadedFiles job + 1 >= job_totalFiles job →
  pdfFiles (storage s) !! pf_id file = Some record →
  belongsToJob job record = true →
  (tempFile, Some size) ∈ listing → 0 < size →
  includes tempFile (pf_filename record) = true →
  ∃ s' members,
    run s (succeedAfterCheck tid file bytes t
           ++ archive tid listing zipSize t) = Some s'
    ∧ members
      = length (archiveMembers job listing (tempDir s)
                  (storeAfterSuccess jobId file job bytes (storage s)))
    ∧ (0 < members)%nat
    ∧ downloadJobs (storage s') !! jobId
      = Some (mkDownloadJob (job_id job) (job_name job) (job_totalFiles job)
                (job_downloadedFiles job + 1) (Some (formatSize zipSize))
                "completed" (job_createdAt job) (Some t))
    ∧ completedDownloads (storage s')
      = <[completedDownloadsCounter (storage s) :=
            archiveRecord (completedDownloadsCounter (storage s))
              (job_name job) members zipSize (downloadsDir s) t]>
          (completedDownloads (storage s))
    ∧ historyEntries (storage s')
      = <[historyCounter (storage s) :=
            completionEntry (historyCounter (storage s)) (job_name job)
              members t]>
          (historyEntries (storage s))
    ∧ activeDownloads (downloader s')
      = delete (pf_id file) (activeDownloads (downloader s)).
Proof.
  intros Htid Hjob Hge Hrec Hbelongs Hentry Hsize Hinc.
  unfold succeedAfterCheck. cbn [app].
  rewrite run_cons, (step_Resume _ _ _ _ Htid). cbn [resume].
  unfold downloadFile_buffered.
  resume_next. resume_next. unfold downloadFile_stat.
  unfold storeAfterSuccess.
  case_bool_decide as Hunknown; cbn [app].
  - resume_next.
    match goal with
    | |- context [run (downloadFile_getJob tid jobId file ?x) _] =>
        destruct (archives_from tid jobId file job
                    (spreadPdfFile
                       (spreadPdfFile
                          (spreadPdfFile record (withProgress 100))
                          (withStatusProgress completed 100))
                       (withSize (formatSize bytes)))
                    listing tempFile size zipSize t x)
          as (s' & members & Hrun & Hm & Hpos & Hj & Hc & Hh & Ha);
          [| done | | done | | done | done | done |]
    end.
    + project. by rewrite !updatePdfFile_jobs.
    + project. by rewrite !updatePdfFile_lookup, !decide_True, Hrec by done.
    + rewrite <- Hbelongs. by apply belongsToJob_names.
    + exists s', members. rewrite Hrun. conclude Hm Hc Hh Ha.
  - match goal with
    | |- context [run (downloadFile_getJob tid jobId file ?x) _] =>
        destruct (archives_from tid jobId file job
                    (spreadPdfFile
                       (spreadPdfFile record (withProgress 100))
                       (withStatusProgress completed 100))
                    listing tempFile size zipSize t x)
          as (s' & members & Hrun & Hm & Hpos & Hj & Hc & Hh & Ha);
          [| done | | done | | done | done | done |]
    end.
    + project. by rewrite !updatePdfFile_jobs.
    + project. by rewrite !updatePdfFile_lookup, !decide_True, Hrec by done.
    + rewrite <- Hbelongs. by apply belongsToJob_names.
    + exists s', members. rewrite Hrun. conclude Hm Hc Hh Ha.
Qed.

(** X21 at work: file A is the only file of its job; its response body
    arrives, the staged file is listed with 2048 bytes and the archive has
    1024 bytes. *)
Lemma last_download_archives_the_job_witness :
  tasks (stateAfter twoFilesJobOfOne
           (submitTwo ++ [Resume 1 (Fetched (Some true) true)])) !! 1%nat
  = Some (DF_buffer 1 fileA "/app/temp/1700000000000-104-10001-10001.pdf")
  ∧ ∃ s',
      run (stateAfter twoFilesJobOfOne
             (submitTwo ++ [Resume 1 (Fetched (Some true) true)]))
        (succeedAfterCheck 1 fileA 2048 1700000001000
         ++ archive 1 [("1700000000000-104-10001-10001.pdf", Some 2048)]
              1024 1700000001000) = Some s'
      ∧ jobStatus 1 s' = Some "completed"
      ∧ jobDownloaded 1 s' = Some 1
      ∧ activeDownloads (downloader s') !! 1 = None.
Proof.
  set (s := stateAfter twoFilesJobOfOne
              (submitTwo ++ [Resume 1 (Fetched (Some true) true)])).
  assert (Htid : tasks s !! 1%nat
                 = Some (DF_buffer 1 fileA
                           "/app/temp/1700000000000-104-10001-10001.pdf"))
    by (vm_compute; reflexivity).
  assert (Hjob : downloadJobs (storage s) !! 1
                 = Some (mkDownloadJob 1 "JFK Records 104-104" 1 0 None
                           "in progress" 0 None))
    by (vm_compute; reflexivity).
  assert (Hrec : pdfFiles (storage s) !! pf_id fileA
                 = Some (markDownloading fileA))
    by (vm_compute; reflexivity).
  split; [exact Htid|].
  destruct (last_download_archives_the_job s 1 1 fileA _ _
              (markDownloading fileA)
              [("1700000000000-104-10001-10001.pdf", Some 2048)]
              "1700000000000-104-10001-10001.pdf" 2048 2048 1024
              1700000001000 Htid Hjob)
    as (s' & members & Hrun & _ & _ & Hj & _ & _ & Ha);
    [simpl; lia|exact Hrec|vm_compute; reflexivity|apply list_elem_of_here
    |lia|vm_compute; reflexivity|].
  exists s'. split; [exact Hrun|].
  unfold jobStatus, jobDownloaded. rewrite Hj, Ha.
  repeat split.
Defined.
